(** * Building dataset pipeline: footprint areas and Street View pitch

    A shallow embedding of the programs of [src/dataset]: [utils.py],
    [process_osm_data.py], [fetch_streetview_images.py],
    [fetch_osm_data.py] and [aerial.py].

    Conventions of the embedding.
    - A Python [float] is a real number ([R]): rounding is not modelled.
      Where the code can produce a value that is not a real (the quotient
      of a division by zero in numpy), the value lives in [npfloat], which
      adds NaN and the infinities.
    - A Python call that can raise returns a [result]: [Ok v] for a normal
      return, [Raise e] for an exception of class [e].
    - The third-party libraries (utm, pyproj, shapely, requests) and the
      interpreter's built-ins are not part of the repository.  Each is an
      interface (a type class) whose fields are the library calls the code
      makes; the few library behaviours a property depends on are modelled
      after the library's documented behaviour, each with a comment saying
      so. *)

From Stdlib Require Import Reals Lra Lia Sorted.
From stdpp Require Import base option list strings gmap pretty.

(** ** Python values, exceptions and the exception monad *)

Module Py.

(** The exception classes that the modelled code can see. *)
Inductive exn : Type :=
  | IndexError        (* list index out of range *)
  | KeyError          (* missing dictionary key *)
  | TypeError
  | ValueError
  | AttributeError
  | GEOSException     (* shapely: the WKT reader rejects the geometry *)
  | OutOfRangeError   (* utm: latitude or longitude out of range *)
  | RequestException  (* requests: connection failure *)
  | HTTPError         (* requests: raise_for_status *)
  | JSONDecodeError
  | OSError.

#[global] Instance exn_eq_dec : EqDecision exn.
Proof. solve_decision. Defined.

Inductive result (A : Type) : Type :=
  | Ok (a : A)
  | Raise (e : exn).
Arguments Ok {A} a.
Arguments Raise {A} e.

#[global] Instance result_ret : MRet result := fun A a => Ok a.
#[global] Instance result_bind : MBind result := fun A B f m =>
  match m with
  | Ok a => f a
  | Raise e => Raise e
  end.

(** [str(e)], by the class of the exception. *)
Definition exn_text (e : exn) : string :=
  match e with
  | IndexError => "IndexError"
  | KeyError => "KeyError"
  | TypeError => "TypeError"
  | ValueError => "ValueError"
  | AttributeError => "AttributeError"
  | GEOSException => "GEOSException"
  | OutOfRangeError => "OutOfRangeError"
  | RequestException => "RequestException"
  | HTTPError => "HTTPError"
  | JSONDecodeError => "JSONDecodeError"
  | OSError => "OSError"
  end.

(** The value of an expression that raises [e] where Python has no value. *)
Definition of_option {A} (e : exn) (o : option A) : result A :=
  match o with
  | Some a => Ok a
  | None => Raise e
  end.

Definition is_ok {A} (r : result A) : bool :=
  match r with Ok _ => true | Raise _ => false end.

Definition to_option {A} (r : result A) : option A :=
  match r with Ok a => Some a | Raise _ => None end.

End Py.
Import Py.

(** ** Planar geometry *)

Module Geometry.
Local Open Scope R_scope.

(** A coordinate pair: (lon, lat) in degrees, or (easting, northing) in
    metres. *)
Definition point : Type := R * R.

#[global] Instance R_eq_dec : EqDecision R := Req_dec_T.

(** Python's [!=] on two tuples of floats. *)
Definition point_neqb (p q : point) : bool := bool_decide (p <> q).

(** A shapely [LinearRing] is its coordinate sequence.  The ring of a
    polygon with an interior is closed and has at least four coordinates
    ([valid_ring]); the reader of WKT texts also lets through the closed
    ring of three coordinates, which encloses nothing. *)
Definition LinearRing : Type := list point.

Record Polygon : Type := mkPolygon {
  exterior : LinearRing;
  interiors : list LinearRing
}.

Definition is_closed (r : LinearRing) : Prop :=
  exists p, head r = Some p /\ last r = Some p.

Definition valid_ring (r : LinearRing) : Prop :=
  (4 <= length r)%nat /\ is_closed r.

(** One term of the shoelace sum. *)
Definition cross (p q : point) : R := fst p * snd q - fst q * snd p.

(** Twice the signed area enclosed by a coordinate sequence: the sum of
    the cross products of consecutive coordinates. *)
Fixpoint shoelace (l : list point) : R :=
  match l with
  | p :: tl =>
      match tl with
      | q :: _ => cross p q + shoelace tl
      | [] => 0
      end
  | [] => 0
  end.

(** Modelled from the spec: [Polygon(coords).area] of shapely, which is
    not part of the repository.  For a shell without holes it is the
    planar ring area by the shoelace (signed area) formula on the
    coordinates, in absolute value. *)
Definition shapely_area (coords : list point) : R := Rabs (shoelace coords) / 2.

(** The ring traversed from vertex list [vs], closed by repeating the
    first vertex. *)
Definition closed_ring (vs : list point) : LinearRing :=
  match vs with
  | [] => []
  | v :: _ => vs ++ [v]
  end.

(** The text [POLYGON((x y, ...))], by the coordinates it lists.  Printing
    a float with [f"{lon}"] and reading it back gives the same float, so
    the text and the coordinate list determine each other. *)
Inductive wkt : Type := POLYGON (coords : list point).

(** [shapely.wkt.loads] on such a text (shapely is not part of the
    repository): the reader of GEOS accepts a polygon shell only when it
    has at least three points and its first and last points are equal, and
    raises otherwise.  A closed shell of three points, as [A B A], is
    read: it is a polygon without interior.  The polygon read has no
    holes, as the text has one ring. *)
Definition wkt_loads (text : wkt) : result Polygon :=
  let 'POLYGON coords := text in
  if decide (3 <= length coords)%nat then
    match head coords, last coords with
    | Some first, Some final =>
        if point_neqb first final then Raise GEOSException
        else Ok (mkPolygon coords [])
    | _, _ => Raise GEOSException
    end
  else Raise GEOSException.

(** The vertices of a closed ring, without the closing coordinate. *)
Definition open_ring (r : LinearRing) : list point := take (length r - 1) r.

(** The same ring traversed from its [k]-th vertex. *)
Definition rotate_ring (k : nat) (r : LinearRing) : LinearRing :=
  closed_ring (rotate k (open_ring r)).

End Geometry.
Import Geometry.

(** ** numpy scalars *)

Module Numpy.
Local Open Scope R_scope.

(** A [numpy.float64] result: a real, NaN, or an infinity.  numpy warns
    on a division by zero and on an argument out of domain, and returns
    the IEEE value; it does not raise. *)
Inductive npfloat : Type :=
  | Fin (x : R)
  | NaN
  | PInf
  | NInf.

Definition vec3 : Type := R * R * R.

(** [np.array(a) - np.array(b)] *)
Definition vsub (a b : vec3) : vec3 :=
  let '(ax, ay, az) := a in
  let '(bx, by_, bz) := b in
  (ax - bx, ay - by_, az - bz).

(** [np.dot] *)
Definition dot (a b : vec3) : R :=
  let '(ax, ay, az) := a in
  let '(bx, by_, bz) := b in
  ax * bx + ay * by_ + az * bz.

(** [numpy.linalg.norm] *)
Definition norm (a : vec3) : R := sqrt (dot a a).

(** [x / y] on two finite float64 scalars. *)
Definition np_div (x y : R) : npfloat :=
  if decide (y = 0) then
    if decide (x = 0) then NaN
    else if Rlt_dec 0 x then PInf else NInf
  else Fin (x / y).

(** [np.arccos]: NaN outside of [-1, 1]. *)
Definition np_arccos (c : npfloat) : npfloat :=
  match c with
  | Fin x =>
      if Rle_dec (-1) x then
        if Rle_dec x 1 then Fin (acos x) else NaN
      else NaN
  | _ => NaN
  end.

(** [np.degrees] *)
Definition np_degrees (a : npfloat) : npfloat :=
  match a with
  | Fin x => Fin (x * 180 / PI)
  | other => other
  end.

(** [a * 0.5] *)
Definition np_half (a : npfloat) : npfloat :=
  match a with
  | Fin x => Fin (x * (1 / 2))
  | other => other
  end.

(** The angle between two vectors, in degrees: the inverse cosine of
    their normalized dot product. *)
Definition angle_degrees (a b : vec3) : R :=
  acos (dot a b / (norm a * norm b)) * 180 / PI.

(** The same angle as numpy computes it, NaN included. *)
Definition np_angle_degrees (a b : vec3) : npfloat :=
  np_degrees (np_arccos (np_div (dot a b) (norm a * norm b))).

End Numpy.
Import Numpy.

(** ** External collaborators

    One interface per third-party library.  Each field is the library call
    the repository makes, as a function of its arguments. *)

Module Ext.
Local Open Scope R_scope.

(** [utm.from_latlon(latitude, longitude)]: easting and northing of the
    point in its own UTM zone, or [None] where the library raises
    [OutOfRangeError].  The zone number and letter are dropped by the
    caller. *)
Class Utm : Type := {
  from_latlon : R -> R -> option (R * R)
}.

(** [Polygon.representative_point()] of shapely. *)
Class Shapely : Type := {
  representative_point : Polygon -> result point
}.

(** [float(s)] and [int(s)] on a string; [None] where Python raises
    [ValueError]. *)
Class Builtins : Type := {
  float_of_str : string -> option R;
  int_of_str : string -> option Z
}.

(** [Transformer.from_crs("EPSG:4326", "EPSG:4978", always_xy=True)] of
    pyproj: [transform lon lat height] is the geocentric (X, Y, Z). *)
Class Pyproj : Type := {
  transform : R -> R -> R -> R * R * R
}.

(** The transform for the WGS 84 ellipsoid, after the definition of the
    geocentric system EPSG:4978 (pyproj is not part of the repository):
    with the latitude and longitude in radians and [N] the radius of
    curvature in the prime vertical,
    X = (N + h) cos(lat) cos(lon), Y = (N + h) cos(lat) sin(lon),
    Z = (N (1 - e2) + h) sin(lat). *)
Definition wgs84_a : R := 6378137.
Definition wgs84_f : R := 1 / 298.257223563.
Definition wgs84_e2 : R := wgs84_f * (2 - wgs84_f).

Definition wgs84_transform (lon lat height : R) : R * R * R :=
  let phi := lat * PI / 180 in
  let lam := lon * PI / 180 in
  let N := wgs84_a / sqrt (1 - wgs84_e2 * (sin phi * sin phi)) in
  ((N + height) * cos phi * cos lam,
   (N + height) * cos phi * sin lam,
   (N * (1 - wgs84_e2) + height) * sin phi).

Definition wgs84 : Pyproj := {| transform := wgs84_transform |}.

(** The JSON body of the Street View metadata service. *)
Record location : Type := mkLocation {
  lng : option R;
  lat : option R
}.

Record metadata : Type := mkMetadata {
  meta_status : option string;
  meta_location : option location
}.

(** A [requests.Response]: status code, raw body and the outcome of
    [.json()]. *)
Record response : Type := mkResponse {
  status_code : Z;
  content : list Byte.byte;
  json : result metadata
}.

(** [requests.get(url)]: the response of the remote service, or the
    exception raised when no response arrives. *)
Class Requests : Type := {
  requests_get : string -> result response
}.

(** The rendering of a float inside an f-string. *)
Class Format : Type := {
  str_of_float : npfloat -> string
}.

(** The process environment: [os.getenv("GOOGLE_MAPS_KEY")]. *)
Class Environ : Type := {
  GOOGLE_MAPS_KEY : option string
}.

(** [os.path.dirname], and the directories after
    [os.makedirs(path, exist_ok=True)] or the [OSError] it raises. *)
Class Os : Type := {
  dirname : string -> string;
  makedirs : string -> gset string -> result (gset string)
}.

End Ext.
Import Ext.

(** ** [utils.py]: the polygon area engine *)

Module Utils.
Local Open Scope R_scope.

Section Area.
Context `{Utm}.

(** The loop of [calculate_ring_area_in_utm]: each vertex (lon, lat) is
    projected on its own and appended to [polygon_utm]. *)
Fixpoint project_vertices (coords : list point) (polygon_utm : list point)
  : result (list point) :=
  match coords with
  | [] => Ok polygon_utm
  | vertex :: rest =>
      match from_latlon (snd vertex) (fst vertex) with
      | Some (easting, northing) =>
          project_vertices rest (polygon_utm ++ [(easting, northing)])
      | None => Raise OutOfRangeError
      end
  end.

Definition calculate_ring_area_in_utm (ring : LinearRing) : result R :=
  polygon_utm ← project_vertices ring [];
  mret (shapely_area polygon_utm).

(** The loop [for hole in polygon.interiors: area -= ...]. *)
Fixpoint subtract_holes (holes : list LinearRing) (area : R) : result R :=
  match holes with
  | [] => Ok area
  | hole :: rest =>
      a ← calculate_ring_area_in_utm hole;
      subtract_holes rest (area - a)
  end.

Definition calculate_polygon_area_in_utm (polygon : Polygon) : result R :=
  area ← calculate_ring_area_in_utm (exterior polygon);
  subtract_holes (interiors polygon) area.

(** What each ring's area is said to be: every vertex projected on its
    own, then the planar area of the projected coordinates. *)
Definition project_vertex (vertex : point) : option point :=
  from_latlon (snd vertex) (fst vertex).

Definition ring_area (ring : LinearRing) : result R :=
  of_option OutOfRangeError (shapely_area <$> mapM project_vertex ring).

Definition sum_areas (areas : list R) : R := foldr Rplus 0 areas.

End Area.

(** An OSM node: a JSON object whose ["lon"] and ["lat"] keys may be
    missing. *)
Record node : Type := mkNode {
  node_lon : option R;
  node_lat : option R
}.

(** [(node["lon"], node["lat"])] *)
Definition node_coords (n : node) : result point :=
  lon ← of_option KeyError (node_lon n);
  lat ← of_option KeyError (node_lat n);
  mret (lon, lat).

(** The node of a coordinate pair. *)
Definition node_of (p : point) : node := mkNode (Some (fst p)) (Some (snd p)).

(** The list comprehension over [geometry]. *)
Fixpoint geometry_coords (geometry : list node) : result (list point) :=
  match geometry with
  | [] => Ok []
  | n :: rest =>
      c ← node_coords n;
      cs ← geometry_coords rest;
      mret (c :: cs)
  end.

(** The closing step: [coords[0]] and [coords[-1]] raise [IndexError] on
    the empty list. *)
Definition close_coords (coords : list point) : result (list point) :=
  first ← of_option IndexError (head coords);
  final ← of_option IndexError (last coords);
  if point_neqb first final then mret (coords ++ [first]) else mret coords.

Definition convert_osm_to_wkt (geometry : list node) : result wkt :=
  coords ← geometry_coords geometry;
  closed ← close_coords coords;
  mret (POLYGON closed).

(** *** Street View: the world the calls act on *)

(** A call that leaves the process. *)
Inductive call : Type :=
  | CallTransform (lon lat height : R)   (* pyproj transformer *)
  | CallGet (url : string).              (* HTTP GET *)

Record world : Type := mkWorld {
  calls : list call;                       (* calls made so far, in order *)
  dirs : gset string;                      (* directories on disk *)
  files : gmap string (list Byte.byte);    (* files on disk *)
  stdout : list string                     (* lines printed *)
}.

(** A computation that may raise and acts on the world.  What it did
    before raising stays done. *)
Definition IO (A : Type) : Type := world -> result A * world.

#[global] Instance IO_ret : MRet IO := fun A a w => (Ok a, w).
#[global] Instance IO_bind : MBind IO := fun A B f m w =>
  match m w with
  | (Ok a, w') => f a w'
  | (Raise e, w') => (Raise e, w')
  end.

Definition lift {A} (r : result A) : IO A := fun w => (r, w).

Definition try_io {A} (body : IO A) (handler : exn -> IO A) : IO A := fun w =>
  match body w with
  | (Ok a, w') => (Ok a, w')
  | (Raise e, w') => handler e w'
  end.

Definition record_call (c : call) (w : world) : world :=
  mkWorld (calls w ++ [c]) (dirs w) (files w) (stdout w).

Definition print (line : string) : IO unit := fun w =>
  (Ok tt, mkWorld (calls w) (dirs w) (files w) (stdout w ++ [line])).

(** [with open(path, "wb") as f: f.write(data)]: a directory cannot be
    opened for writing. *)
Definition write_file (path : string) (data : list Byte.byte) : IO unit := fun w =>
  if decide (path ∈ dirs w) then (Raise OSError, w)
  else (Ok tt, mkWorld (calls w) (dirs w) (<[path := data]> (files w)) (stdout w)).

Section StreetView.
Context `{Pyproj} `{Requests} `{Format} `{Environ} `{Os}.

Definition geocent_transform (lon lat height : R) : IO vec3 := fun w =>
  (Ok (transform lon lat height), record_call (CallTransform lon lat height) w).

Definition http_get (url : string) : IO response := fun w =>
  (requests_get url, record_call (CallGet url) w).

Definition os_makedirs (path : string) : IO unit := fun w =>
  match makedirs path (dirs w) with
  | Ok ds => (Ok tt, mkWorld (calls w) ds (files w) (stdout w))
  | Raise e => (Raise e, w)
  end.

(** [f"{GOOGLE_MAPS_KEY}"] *)
Definition key_text : string :=
  match GOOGLE_MAPS_KEY with
  | Some k => k
  | None => "None"
  end.

Definition get_streetview_metadata_url (longitude latitude : R) : string :=
  "https://maps.googleapis.com/maps/api/streetview/metadata?location="
  +:+ str_of_float (Fin latitude) +:+ "," +:+ str_of_float (Fin longitude)
  +:+ "&source=outdoor&key=" +:+ key_text.

Definition get_streetview_camera_position (longitude latitude : R)
  : IO (option (option R * option R)) :=
  let url := get_streetview_metadata_url longitude latitude in
  res ← http_get url;
  if decide (status_code res = 200%Z) then
    meta_data ← lift (json res);
    if decide (meta_status meta_data = Some "OK") then
      location ← lift (of_option AttributeError (meta_location meta_data));
      mret (Some (lng location, lat location))
    else mret None
  else mret None.

(** Truth value of [building_height]: [None] and [0] are false. *)
Definition height_given (building_height : option R) : option R :=
  match building_height with
  | Some h => if decide (h = 0) then None else Some h
  | None => None
  end.

(** The transformer applied to the unpacked [streetview_coords] at
    height 0: a missing coordinate is [None], which the transformer
    rejects. *)
Definition transform_camera (coords : option R * option R) : IO vec3 :=
  match coords with
  | (Some cam_lng, Some cam_lat) => geocent_transform cam_lng cam_lat 0
  | _ => lift (Raise TypeError)
  end.

(** The value of [pitch] after the [if use_building_height and
    building_height:] block of [get_streetview_url]. *)
Definition streetview_pitch (longitude latitude : R)
    (building_height : option R) (use_building_height : bool)
    (pitch : npfloat) : IO npfloat :=
  match (if use_building_height then height_given building_height else None) with
  | Some height =>
      poly_center ← geocent_transform longitude latitude 0;
      streetview_coords ← get_streetview_camera_position longitude latitude;
      match streetview_coords with
      | Some coords =>
          origin ← transform_camera coords;
          let vec0 := vsub poly_center origin in
          top ← geocent_transform longitude latitude height;
          let vec1 := vsub top origin in
          let cosine := np_div (dot vec0 vec1) (norm vec0 * norm vec1) in
          mret (np_half (np_degrees (np_arccos cosine)))
      | None => mret pitch
      end
  | None => mret pitch
  end.

Definition streetview_url_text (longitude latitude : R) (pitch : npfloat) : string :=
  "https://maps.googleapis.com/maps/api/streetview?size=350x350&location="
  +:+ str_of_float (Fin latitude) +:+ "," +:+ str_of_float (Fin longitude)
  +:+ "&fov=70&pitch=" +:+ str_of_float pitch
  +:+ "&source=outdoor&key=" +:+ key_text.

(** The return type is [Optional[str]]. *)
Definition get_streetview_url (longitude latitude : R)
    (building_height : option R) (use_building_height : bool)
    (pitch : npfloat) : IO (option string) :=
  pitch' ← streetview_pitch longitude latitude building_height
             use_building_height pitch;
  mret (Some (streetview_url_text longitude latitude pitch')).

(** [not url] on an [Optional[str]]. *)
Definition py_not (url : option string) : bool :=
  match url with
  | None => true
  | Some s => bool_decide (s = "")
  end.

(** [response.raise_for_status()] *)
Definition raise_for_status (r : response) : IO unit :=
  if decide (400 <= status_code r < 600)%Z then lift (Raise HTTPError)
  else mret tt.

(** The [return] statement through which [download_streetview_image]
    leaves. *)
Inductive exit_point : Type :=
  | ReturnNoUrl      (* [if not url: return False] *)
  | ReturnBlank      (* body below the size threshold: [return False] *)
  | ReturnSaved      (* [return True] *)
  | ReturnError.     (* [except Exception: return False] *)

Definition returned (x : exit_point) : bool :=
  match x with
  | ReturnSaved => true
  | _ => false
  end.

(** The body of the [try] block, on a URL that is a string. *)
Definition fetch_and_save (url output_path : string) : IO exit_point :=
  os_makedirs (dirname output_path);;
  response ← http_get url;
  raise_for_status response;;
  if decide (Z.of_nat (length (content response)) < 5000)%Z then mret ReturnBlank
  else
    write_file output_path (content response);;
    mret ReturnSaved.

(** The [except Exception as e] handler: one line is printed. *)
Definition on_download_error (e : exn) : IO exit_point :=
  print ("Error downloading image: " +:+ exn_text e);;
  mret ReturnError.

Definition download_streetview_image_exit (longitude latitude : R)
    (output_path : string) (building_height : option R)
    (use_building_height : bool) (pitch : npfloat) : IO exit_point :=
  url ← get_streetview_url longitude latitude building_height
          use_building_height pitch;
  if py_not url then mret ReturnNoUrl
  else
    try_io (fetch_and_save (default "" url) output_path) on_download_error.

Definition download_streetview_image (longitude latitude : R)
    (output_path : string) (building_height : option R)
    (use_building_height : bool) (pitch : npfloat) : IO bool :=
  x ← download_streetview_image_exit longitude latitude output_path
        building_height use_building_height pitch;
  mret (returned x).

End StreetView.

End Utils.

(** ** [process_osm_data.py] *)

Module ProcessOsmData.
Import Utils.
Local Open Scope R_scope.

(** A raw building of the OSM document: a JSON object whose keys may be
    missing.  Tag values are strings. *)
Record building : Type := mkBuilding {
  id : option Z;
  geometry : option (list node);
  tags : option (gmap string string)
}.

Record processed_building : Type := mkProcessed {
  osm_id : option Z;
  longitude : R;
  latitude : R;
  building_height : option R;
  levels : option Z;
  building_type : string;
  building_material : string;
  roof_material : string;
  roof_shape : string;
  name : string;
  street : string;
  housenumber : string;
  postcode : string;
  city : string;
  footprint_wkt : wkt;
  footprint_area : R
}.

(** A line of the standard output:
    [Error processing building {id}: {e}]. *)
Inductive log_line : Type :=
  | ErrorProcessing (building_id : option Z) (e : exn).

Section Process.
Context `{Utm} `{Shapely} `{Builtins}.

(** [float(tags.get("height"))] under [except (ValueError, TypeError)]:
    a missing tag is [float(None)], a [TypeError]. *)
Definition tag_float (t : gmap string string) (key : string) : option R :=
  match t !! key with
  | Some s => float_of_str s
  | None => None
  end.

Definition tag_int (t : gmap string string) (key : string) : option Z :=
  match t !! key with
  | Some s => int_of_str s
  | None => None
  end.

(** [tags.get(key, "")] *)
Definition tag_text (t : gmap string string) (key : string) : string :=
  default "" (t !! key).

(** The body of the [try] block of [process_osm_building]. *)
Definition process_body (b : building) : result processed_building :=
  footprint_wkt ← convert_osm_to_wkt (default [] (geometry b));
  footprint_polygon ← wkt_loads footprint_wkt;
  representative ← representative_point footprint_polygon;
  let '(longitude, latitude) := representative in
  footprint_area ← calculate_polygon_area_in_utm footprint_polygon;
  let tags := default ∅ (tags b) in
  let height := tag_float tags "height" in
  let levels := tag_int tags "building:levels" in
  mret {| osm_id := id b;
          longitude := longitude;
          latitude := latitude;
          building_height := height;
          levels := levels;
          building_type := tag_text tags "building";
          building_material := tag_text tags "building:material";
          roof_material := tag_text tags "roof:material";
          roof_shape := tag_text tags "roof:shape";
          name := tag_text tags "name";
          street := tag_text tags "addr:street";
          housenumber := tag_text tags "addr:housenumber";
          postcode := tag_text tags "addr:postcode";
          city := tag_text tags "addr:city";
          footprint_wkt := footprint_wkt;
          footprint_area := footprint_area |}.

(** [process_osm_building], with the standard output it prints to. *)
Definition process_osm_building (b : building) (out : list log_line)
  : option processed_building * list log_line :=
  match process_body b with
  | Ok p => (Some p, out)
  | Raise e => (None, out ++ [ErrorProcessing (id b) e])
  end.

(** The loop of the main program over [filtered_buildings].  A processed
    building is a non-empty dict, which is true. *)
Fixpoint process_buildings (filtered_buildings : list building)
    (processed_buildings : list processed_building) (out : list log_line)
  : list processed_building * list log_line :=
  match filtered_buildings with
  | [] => (processed_buildings, out)
  | b :: rest =>
      let '(processed, out') := process_osm_building b out in
      match processed with
      | Some p => process_buildings rest (processed_buildings ++ [p]) out'
      | None => process_buildings rest processed_buildings out'
      end
  end.

(** The footprint area that [process_osm_building] computes from a raw
    geometry: text, polygon, area. *)
Definition area_of_geometry (g : list node) : result R :=
  footprint_wkt ← convert_osm_to_wkt g;
  footprint_polygon ← wkt_loads footprint_wkt;
  calculate_polygon_area_in_utm footprint_polygon.

End Process.

(** The buildings the batch is expected to keep and the lines it is
    expected to print, each read off the outcome of one building. *)
Definition kept {A} (body : building -> result A) (bs : list building) : list A :=
  omap (fun b => to_option (body b)) bs.

Definition reported {A} (body : building -> result A) (bs : list building)
  : list log_line :=
  omap (fun b => match body b with
                 | Ok _ => None
                 | Raise e => Some (ErrorProcessing (id b) e)
                 end) bs.

End ProcessOsmData.

(** ** Concrete inputs

    Small instances of the interfaces and sample inputs, on which the
    statements below are exercised. *)

Module Fixtures.
Import Utils ProcessOsmData.
Local Open Scope R_scope.

(** A projection that keeps the coordinates: a flat map. *)
#[local] Instance flat_utm : Utm := {|
  from_latlon latitude longitude := Some (longitude, latitude)
|}.

#[local] Instance first_vertex_point : Shapely := {|
  representative_point polygon := of_option ValueError (head (exterior polygon))
|}.

#[local] Instance no_numbers : Builtins := {|
  float_of_str _ := None;
  int_of_str _ := None
|}.

Definition triangle : list point := [(0, 0); (1, 0); (1, 1)].

Definition triangle_ring : LinearRing := [(0, 0); (1, 0); (1, 1); (0, 0)].

Definition segment : list point := [(0, 0); (1, 0)].

(** A square of side 2 with a square hole of side 1. *)
Definition square_with_hole : Polygon :=
  mkPolygon [(0, 0); (2, 0); (2, 2); (0, 2); (0, 0)]
            [[(0, 0); (1, 0); (1, 1); (0, 1); (0, 0)]].

Definition building_of (ident : Z) (vs : list point) : building :=
  mkBuilding (Some ident) (Some (node_of <$> vs)) None.

(** Geocentric coordinates of a local frame: east, north, up. *)
#[local] Instance local_frame : Pyproj := {|
  transform lon lat height := (lon, lat, height)
|}.

(** A metadata service that always reports a camera at [(cam_lng,
    cam_lat)], with an image service that answers with [body]. *)
Definition service (cam_lng cam_lat : R) (body : list Byte.byte) : Requests := {|
  requests_get _ :=
    Ok (mkResponse 200 body
          (Ok (mkMetadata (Some "OK")
                 (Some (mkLocation (Some cam_lng) (Some cam_lat))))))
|}.

(** A metadata service without imagery at the place asked for. *)
Definition no_imagery : Requests := {|
  requests_get _ :=
    Ok (mkResponse 200 [] (Ok (mkMetadata (Some "ZERO_RESULTS") None)))
|}.

#[local] Instance plain_format : Format := {|
  str_of_float x := match x with NaN => "nan" | _ => "0.0" end
|}.

#[local] Instance no_key : Environ := {| GOOGLE_MAPS_KEY := None |}.

#[local] Instance any_directory : Os := {|
  dirname path := "data";
  makedirs path ds := Ok ({[path]} ∪ ds)
|}.

Definition empty_world : world := mkWorld [] ∅ ∅ [].

End Fixtures.

(** ** [process_osm_data.py]: one building per street *)

Module FilterBuildings.
Import ProcessOsmData.

(** A line of the report that [filter_buildings_by_street] prints, by
    the values it shows. *)
Inductive report_line : Type :=
  | Heading (title : string)
  | TypeCount (btype : string) (count : Z)      (* [{btype}: {count}] *)
  | Stat (label : string) (value : Z)
  | ExcludedStat (types : gset string) (value : Z).

(** Code that prints and may raise: the lines printed before an
    exception stay printed. *)
Definition Printing (A : Type) : Type :=
  list report_line -> result A * list report_line.

#[global] Instance Printing_ret : MRet Printing := fun A a out => (Ok a, out).
#[global] Instance Printing_bind : MBind Printing := fun A B f m out =>
  match m out with
  | (Ok a, out') => f a out'
  | (Raise e, out') => (Raise e, out')
  end.

Definition print_line (line : report_line) : Printing unit := fun out =>
  (Ok tt, out ++ [line]).

Definition print_lines (lines : list report_line) : Printing unit := fun out =>
  (Ok tt, out ++ lines).

Definition raising {A} (r : result A) : Printing A := fun out => (r, out).

(** [d[key]] on a dict of counters. *)
Definition dict_get (key : string) (d : gmap string Z) : result Z :=
  of_option KeyError (d !! key).

(** [d[key] += 1]: the key is read first, so a missing key is a
    [KeyError]. *)
Definition dict_incr (key : string) (d : gmap string Z) : result (gmap string Z) :=
  v ← dict_get key d;
  mret (<[key := (v + 1)%Z]> d).

(** [counts[btype] = counts.get(btype, 0) + 1] on a dict, which keeps its
    keys in the order of their first insertion. *)
Fixpoint count_type (btype : string) (counts : list (string * Z))
  : list (string * Z) :=
  match counts with
  | [] => [(btype, 1%Z)]
  | (k, n) :: rest =>
      if decide (k = btype) then (k, (n + 1)%Z) :: rest
      else (k, n) :: count_type btype rest
  end.

(** The first loop: the types of the buildings that have tags, the
    others being skipped. *)
Fixpoint types_before (buildings : list building) (counts : list (string * Z))
  : list (string * Z) :=
  match buildings with
  | [] => counts
  | b :: rest =>
      match tags b with
      | Some t => types_before rest (count_type (default "unknown" (t !! "building")) counts)
      | None => types_before rest counts
      end
  end.

(** The last loop, over [filtered]: [building["tags"]] is a [KeyError]
    without tags. *)
Fixpoint types_after (filtered : list building) (counts : list (string * Z))
  : result (list (string * Z)) :=
  match filtered with
  | [] => Ok counts
  | b :: rest =>
      t ← of_option KeyError (tags b);
      types_after rest (count_type (default "" (t !! "building")) counts)
  end.

(** [sorted(counts.items(), key=lambda x: x[1], reverse=True)]: by
    decreasing count, items of equal count in their order in the dict
    (the sort of Python is stable, also in reverse). *)
Fixpoint insert_by_count (x : string * Z) (sorted : list (string * Z))
  : list (string * Z) :=
  match sorted with
  | [] => [x]
  | y :: rest =>
      if decide (snd y < snd x)%Z then x :: y :: rest
      else y :: insert_by_count x rest
  end.

Definition sorted_by_count (items : list (string * Z)) : list (string * Z) :=
  fold_left (fun sorted x => insert_by_count x sorted) items [].

Definition type_lines (counts : list (string * Z)) : list report_line :=
  (fun '(btype, count) => TypeCount btype count) <$> sorted_by_count counts.

(** The state of the main loop. *)
Record filter_state : Type := mkFilterState {
  seen_streets : gset string;
  filtered : list building;
  stats : gmap string Z
}.

(** [exclude_types and btype in exclude_types]: [None] and the empty set
    are false. *)
Definition excluded (exclude_types : option (gset string)) (btype : string) : bool :=
  match exclude_types with
  | Some types =>
      if decide (types = ∅) then false else bool_decide (btype ∈ types)
  | None => false
  end.

(** [tags.get("addr:street")] when it is true: neither [None] nor the
    empty string. *)
Definition street_of (t : gmap string string) : option string :=
  match t !! "addr:street" with
  | Some s => if decide (s = "") then None else Some s
  | None => None
  end.

(** One round of the main loop. *)
Definition filter_step (exclude_types : option (gset string))
    (st : filter_state) (b : building) : result filter_state :=
  match tags b with
  | None =>
      stats' ← dict_incr "no_tags" (stats st);
      mret (mkFilterState (seen_streets st) (filtered st) stats')
  | Some t =>
      let btype := default "" (t !! "building") in
      if excluded exclude_types btype then
        stats' ← dict_incr "excluded_type" (stats st);
        mret (mkFilterState (seen_streets st) (filtered st) stats')
      else
        match street_of t with
        | None =>
            stats' ← dict_incr "no_street" (stats st);
            mret (mkFilterState (seen_streets st) (filtered st ++ [b]) stats')
        | Some street =>
            if decide (street ∈ seen_streets st) then
              stats' ← dict_incr "duplicate_street" (stats st);
              mret (mkFilterState (seen_streets st) (filtered st) stats')
            else
              mret (mkFilterState ({[street]} ∪ seen_streets st)
                      (filtered st ++ [b]) (stats st))
        end
  end.

Fixpoint filter_loop (exclude_types : option (gset string))
    (buildings : list building) (st : filter_state) : result filter_state :=
  match buildings with
  | [] => Ok st
  | b :: rest =>
      st' ← filter_step exclude_types st b;
      filter_loop exclude_types rest st'
  end.

Definition initial_stats (buildings : list building) : gmap string Z :=
  {[ "total" := Z.of_nat (length buildings);
     "no_street" := 0%Z;
     "duplicate_street" := 0%Z;
     "excluded_type" := 0%Z ]}.

Definition initial_state (buildings : list building) : filter_state :=
  mkFilterState ∅ [] (initial_stats buildings).

(** The lines under [if exclude_types:]. *)
Definition print_exclusion_stats (types : gset string) (st : filter_state)
  : Printing unit :=
  excluded_type ← raising (dict_get "excluded_type" (stats st));
  print_line (ExcludedStat types excluded_type);;
  total ← raising (dict_get "total" (stats st));
  excluded_type ← raising (dict_get "excluded_type" (stats st));
  print_line (Stat "Remaining buildings" (total - excluded_type));;
  no_street ← raising (dict_get "no_street" (stats st));
  print_line (Stat "- Buildings with no street (kept)" no_street);;
  duplicate_street ← raising (dict_get "duplicate_street" (stats st));
  print_line (Stat "- Buildings removed (duplicate streets)" duplicate_street);;
  no_street ← raising (dict_get "no_street" (stats st));
  print_line (Stat "- Buildings kept (unique streets)"
                (Z.of_nat (length (filtered st)) - no_street)).

Definition filter_buildings_by_street (buildings : list building)
    (exclude_types : option (gset string)) : Printing (list building) :=
  print_line (Heading "Building types before filtering:");;
  print_lines (type_lines (types_before buildings []));;
  st ← raising (filter_loop exclude_types buildings (initial_state buildings));
  building_types_after ← raising (types_after (filtered st) []);
  print_line (Heading "Filtering Stats:");;
  total ← raising (dict_get "total" (stats st));
  print_line (Stat "Total buildings" total);;
  match exclude_types with
  | Some types =>
      if decide (types = ∅) then mret tt else print_exclusion_stats types st
  | None => mret tt
  end;;
  print_line (Heading "Building types after filtering:");;
  print_lines (type_lines building_types_after);;
  mret (filtered st).

(** The type of a building and its street, as the loop reads them. *)
Definition building_type_of (b : building) : string :=
  default "" (tags b ≫= fun t => t !! "building").

Definition building_street (b : building) : option string :=
  tags b ≫= street_of.

(** A building that the loop neither rejects for its type nor fails on. *)
Definition eligible (exclude_types : option (gset string)) (b : building) : Prop :=
  is_Some (tags b) /\ excluded exclude_types (building_type_of b) = false.


(** The counters that the loop increments are there, and [no_tags] is
    not. *)
Definition stats_ok (s : gmap string Z) : Prop :=
  is_Some (s !! "total") /\ is_Some (s !! "no_street")
  /\ is_Some (s !! "duplicate_street") /\ is_Some (s !! "excluded_type")
  /\ s !! "no_tags" = None.

Definition stat (key : string) (s : gmap string Z) : Z := default 0%Z (s !! key).

(** What one round does, by the case the building falls in. *)
Inductive step_case (E : option (gset string)) (st : filter_state)
    (b : building) : filter_state -> Prop :=
  | step_excluded t :
      tags b = Some t ->
      excluded E (building_type_of b) = true ->
      step_case E st b
        (mkFilterState (seen_streets st) (filtered st)
           (<["excluded_type" := (stat "excluded_type" (stats st) + 1)%Z]> (stats st)))
  | step_no_street :
      eligible E b ->
      building_street b = None ->
      step_case E st b
        (mkFilterState (seen_streets st) (filtered st ++ [b])
           (<["no_street" := (stat "no_street" (stats st) + 1)%Z]> (stats st)))
  | step_duplicate street :
      eligible E b ->
      building_street b = Some street ->
      street ∈ seen_streets st ->
      step_case E st b
        (mkFilterState (seen_streets st) (filtered st)
           (<["duplicate_street" := (stat "duplicate_street" (stats st) + 1)%Z]> (stats st)))
  | step_new_street street :
      eligible E b ->
      building_street b = Some street ->
      street ∉ seen_streets st ->
      step_case E st b
        (mkFilterState ({[street]} ∪ seen_streets st) (filtered st ++ [b])
           (stats st)).

(** A run of the main loop over tagged buildings, round by round. *)
Inductive steps (E : option (gset string))
  : filter_state -> list building -> filter_state -> Prop :=
  | steps_nil st : steps E st [] st
  | steps_cons st b st1 bs st' :
      step_case E st b st1 -> steps E st1 bs st' -> steps E st (b :: bs) st'.

(** The lines under [if exclude_types:], with the counters read. *)
Definition exclusion_lines (exclude_types : option (gset string))
    (st : filter_state) : list report_line :=
  match exclude_types with
  | Some types =>
      if decide (types = ∅) then []
      else
        [ExcludedStat types (stat "excluded_type" (stats st));
         Stat "Remaining buildings"
           (stat "total" (stats st) - stat "excluded_type" (stats st));
         Stat "- Buildings with no street (kept)" (stat "no_street" (stats st));
         Stat "- Buildings removed (duplicate streets)"
           (stat "duplicate_street" (stats st));
         Stat "- Buildings kept (unique streets)"
           (Z.of_nat (length (filtered st)) - stat "no_street" (stats st))]
  | None => []
  end.

(** Everything a run that returns has printed. *)
Definition report_of (buildings : list building)
    (exclude_types : option (gset string)) (st : filter_state)
    (building_types_after : list (string * Z)) : list report_line :=
  [Heading "Building types before filtering:"]
  ++ type_lines (types_before buildings [])
  ++ [Heading "Filtering Stats:";
      Stat "Total buildings" (stat "total" (stats st))]
  ++ exclusion_lines exclude_types st
  ++ [Heading "Building types after filtering:"]
  ++ type_lines building_types_after.

(** The sum of the counts of a dict of counts, and the order in which
    its items are printed. *)
Definition total_count (counts : list (string * Z)) : Z :=
  foldr (fun kn total => (kn.2 + total)%Z) 0%Z counts.

Definition by_decreasing_count (a b : string * Z) : Prop := (b.2 <= a.2)%Z.

End FilterBuildings.

(** Four buildings on two streets, one of them a house. *)
Module FilterSamples.
Import ProcessOsmData FilterBuildings.

Definition tagged (ident : Z) (t : list (string * string)) : building :=
  mkBuilding (Some ident) None (Some (list_to_map t)).

Definition office_high : building :=
  tagged 1 [("building", "office"); ("addr:street", "High Street")].
Definition house_low : building :=
  tagged 2 [("building", "house"); ("addr:street", "Low Street")].
Definition retail_high : building :=
  tagged 3 [("building", "retail"); ("addr:street", "High Street")].
Definition office_nowhere : building :=
  tagged 4 [("building", "office")].
Definition untagged : building := mkBuilding (Some 5%Z) None None.

Definition sample : list building :=
  [office_high; house_low; retail_high; office_nowhere].

Definition no_houses : option (gset string) := Some {["house"]}.

End FilterSamples.

(** ** [utils.py]: directories and images for the models *)

Module UtilsFiles.
Import Utils.

(** [base64.b64encode(image_bytes).decode("utf-8")] of the standard
    library. *)
Class Base64 : Type := {
  b64encode : list Byte.byte -> string
}.

(** [os.path.exists(path)]: a file or a directory. *)
Definition path_exists (path : string) (w : world) : bool :=
  bool_decide (path ∈ dirs w) || bool_decide (is_Some (files w !! path)).

(** [with open(path, "rb") as f: f.read()]: a path that is missing or a
    directory is an [OSError]. *)
Definition read_file (path : string) : IO (list Byte.byte) := fun w =>
  if decide (path ∈ dirs w) then (Raise OSError, w)
  else (of_option OSError (files w !! path), w).

Definition directories : list string :=
  ["data/osm"; "data/images/fixed_pitch"; "data/images/height_pitch";
   "data/logs"].

Section Files.
Context `{Os} `{Base64}.

(** [for directory in directories: os.makedirs(directory, exist_ok=True)] *)
Fixpoint make_directories (directories : list string) : IO unit :=
  match directories with
  | [] => mret tt
  | directory :: rest => os_makedirs directory;; make_directories rest
  end.

Definition setup_directory_structure : IO unit :=
  make_directories directories.

Definition base64_encode_image (image_bytes : list Byte.byte) : string :=
  b64encode image_bytes.

(** The loop of [load_and_encode_all_images], with the list built so
    far. *)
Fixpoint encode_images (image_paths : list string)
    (all_encoded_images : list string) : IO (list string) :=
  match image_paths with
  | [] => mret all_encoded_images
  | image_path :: rest =>
      image_bytes ← read_file image_path;
      let encoded_image := base64_encode_image image_bytes in
      encode_images rest (all_encoded_images ++ [encoded_image])
  end.

Definition load_and_encode_all_images (image_paths : list string)
  : IO (list string) :=
  encode_images image_paths [].

End Files.

(** The dict that [format_image_for_model] returns: the keys ["type"]
    and ["image_url"], the latter holding a string or a dict with the
    one key ["url"]. *)
Inductive image_url_value : Type :=
  | UrlText (url : string)
  | UrlDict (url : string).

Record image_object : Type := mkImageObject {
  image_type : string;
  image_url : image_url_value
}.

(** [s.startswith(prefix)] *)
Definition startswith (s prefix : string) : bool := String.prefix prefix s.

(** [f"data:image/jpeg;base64,{base64_image}"] *)
Definition data_url (base64_image : string) : string :=
  "data:image/jpeg;base64," +:+ base64_image.

Definition format_image_for_model (base64_image model : string)
  : result image_object :=
  if startswith model "gemini" then
    Ok (mkImageObject "image_url" (UrlText (data_url base64_image)))
  else if startswith model "gpt" then
    Ok (mkImageObject "image_url" (UrlDict (data_url base64_image)))
  else if startswith model "claude" then
    Ok (mkImageObject "image_url" (UrlDict (data_url base64_image)))
  else Raise ValueError.

End UtilsFiles.

(** A service that fails. *)
Module UtilsSamples.
Import Utils UtilsFiles.

(** No network: every request raises. *)
Definition offline : Requests := {|
  requests_get _ := Raise RequestException
|}.

End UtilsSamples.

(** ** Programs: the disk and the lines written *)

Module Scripts.
Import Utils.

(** A main program acts on the disk and writes lines, of a type [L] of
    its own; it may raise, and what it did before stays done. *)
Definition Script (L A : Type) : Type :=
  world * list L -> result A * (world * list L).

#[global] Instance Script_ret {L} : MRet (Script L) := fun A a s => (Ok a, s).
#[global] Instance Script_bind {L} : MBind (Script L) := fun A B f m s =>
  match m s with
  | (Ok a, s') => f a s'
  | (Raise e, s') => (Raise e, s')
  end.

Definition on_disk {L A} (m : IO A) : Script L A := fun s =>
  let '(r, w') := m (fst s) in (r, (w', snd s)).

Definition say {L} (lines : list L) : Script L unit := fun s =>
  (Ok tt, (fst s, snd s ++ lines)).

Definition try_script {L A} (body : Script L A) (handler : exn -> Script L A)
  : Script L A := fun s =>
  match body s with
  | (Ok a, s') => (Ok a, s')
  | (Raise e, s') => handler e s'
  end.

(** The encoding of the standard output.  [print] encodes the whole
    text before it writes any of it, and raises [UnicodeEncodeError] on
    a character that the encoding does not have.  The ASCII characters
    are in every encoding; the programs print two texts with others. *)
Class StdoutEncoding : Type := {
  encodes : string -> bool
}.

End Scripts.

(** ** [process_osm_data.py]: the main program *)

Module ProcessMain.
Import Utils ProcessOsmData FilterBuildings UtilsFiles Scripts.

(** The raw document, a JSON object: [osm_data.get("elements", [])]
    reads its key ["elements"], which may be missing. *)
Record osm_document : Type := mkDocument {
  elements : option (list building)
}.

(** [json.load] on the text of the raw document, and the text that
    [json.dump(processed_buildings, f, indent=2)] writes. *)
Class Json : Type := {
  json_load : list Byte.byte -> result osm_document;
  json_dump : list processed_building -> list Byte.byte
}.

(** A line of the standard output of the program, by the values it
    shows. *)
Inductive main_line : Type :=
  | Loaded (count : nat) (input_file : string)
  | Report (line : report_line)        (* of [filter_buildings_by_street] *)
  | Filtered (count : nat)
  | Log (line : log_line)              (* of [process_osm_building] *)
  | Processed (count : nat)
  | SavedTo (output_file : string)
  | Error (e : exn).

(** A call of [filter_buildings_by_street]: what it prints goes to the
    standard output, also when it raises. *)
Definition reporting {A} (m : Printing A) : Script main_line A := fun s =>
  let '(r, lines) := m [] in (r, (fst s, snd s ++ (Report <$> lines))).

Definition input_file : string := "data/osm/raw.json".
Definition output_file : string := "data/osm/processed.json".

Section Program.
Context `{Utm} `{Shapely} `{Builtins} `{Os} `{Json}.

(** [load_osm_data] *)
Definition load_osm_data (filepath : string) : IO osm_document :=
  text ← read_file filepath;
  lift (json_load text).

Definition raw_buildings (osm_data : osm_document) : list building :=
  default [] (elements osm_data).

(** The [try] block of the program. *)
Definition main_body : Script main_line unit :=
  on_disk setup_directory_structure;;
  osm_data ← on_disk (load_osm_data input_file);
  let raw_buildings := raw_buildings osm_data in
  say [Loaded (length raw_buildings) input_file];;
  filtered_buildings ←
    reporting (filter_buildings_by_street raw_buildings (Some {["house"]}));
  say [Filtered (length filtered_buildings)];;
  let '(processed_buildings, printed) :=
    process_buildings filtered_buildings [] [] in
  say (Log <$> printed);;
  say [Processed (length processed_buildings)];;
  on_disk (write_file output_file (json_dump processed_buildings));;
  say [SavedTo output_file].

(** [except Exception as e: print(f"Error: {e}")] *)
Definition main : Script main_line unit :=
  try_script main_body (fun e => say [Error e]).

End Program.

End ProcessMain.

(** A disk that holds a raw document, a reader that finds the given
    buildings in it, and a writer of one byte per building. *)
Module ProcessSamples.
Import Utils ProcessOsmData ProcessMain.

Definition document_of (buildings : list building) : Json := {|
  json_load _ := Ok (mkDocument (Some buildings));
  json_dump processed_buildings :=
    replicate (length processed_buildings) Byte.x01
|}.

(** Three buildings with a triangle for footprint: two offices on one
    street and a house. *)
Definition with_footprint (ident : Z) (t : list (string * string)) : building :=
  mkBuilding (Some ident) (Some (node_of <$> Fixtures.triangle))
    (Some (list_to_map t)).

Definition first_office : building :=
  with_footprint 1 [("building", "office"); ("addr:street", "High Street")].
Definition second_office : building :=
  with_footprint 2 [("building", "office"); ("addr:street", "High Street")].
Definition low_house : building :=
  with_footprint 3 [("building", "house"); ("addr:street", "Low Street")].

Definition three_footprints : list building :=
  [first_office; second_office; low_house].

Definition raw_on_disk : world :=
  mkWorld [] ∅ {[ input_file := [] ]} [].

(** The program on that disk, with the libraries of [Fixtures]. *)
Definition run_main (buildings : list building)
  : result unit * (world * list main_line) :=
  @main Fixtures.flat_utm Fixtures.first_vertex_point Fixtures.no_numbers
    Fixtures.any_directory (document_of buildings) (raw_on_disk, []).

End ProcessSamples.

(** ** [fetch_streetview_images.py] *)

Module FetchStreetviewImages.
Import Utils ProcessOsmData UtilsFiles Scripts.
Local Open Scope R_scope.

(** A building with its image paths: the dict of a processed building,
    with the keys ["fixed_pitch_image"] and ["height_pitch_image"]. *)
Record building_entry : Type := mkEntry {
  processed : processed_building;
  fixed_pitch_image : option string;
  height_pitch_image : option string
}.

(** What the program writes: the records it hands to the logger
    [streetview_download], and the lines it prints.  The text of the log
    file that a handler writes the records to is not part of the files of
    the model. *)
Inductive fetch_line : Type :=
  | ProcessingBuilding (osm_id : option Z)
  | SkippedFixed (fixed_pitch : R)
  | DownloadedFixed (fixed_pitch : R)
  | FailedFixed (fixed_pitch : R)            (* a warning *)
  | SkippedHeight
  | DownloadedHeight
  | FailedHeight                             (* a warning *)
  | Starting
  | WillFetchFixed (pitch : R)
  | WillFetchHeight
  | SleepTime (sleep : R)
  | TestingMode (limit : Z)
  | ProcessingCount (count total : nat)
  | LoadedExisting (count : nat)
  | DownloadedFor (count : nat)
  | SkippedDownloads (count : nat)
  | SavedData (output_file : string)
  | ErrorRecord (e : exn)                    (* an error *)
  | SummaryTotal (total : nat)               (* printed, as are the next *)
  | SummaryFixed (pitch : R) (fixed_count : nat)
  | SummaryRest (height_count skipped : nat)
  | ErrorPrinted (e : exn).

(** [f"{osm_id}"]: the identifier is an integer or [None]. *)
Definition id_text (osm_id : option Z) : string :=
  match osm_id with
  | Some n => pretty n
  | None => "None"
  end.

(** [f"{image_directory}/fixed_pitch/{osm_id}.jpg"] and its like. *)
Definition image_path (image_directory kind : string) (osm_id : option Z)
  : string :=
  image_directory +:+ "/" +:+ kind +:+ "/" +:+ id_text osm_id +:+ ".jpg".

Definition os_path_exists {L} (path : string) : Script L bool := fun s =>
  (Ok (path_exists path (fst s)), s).

(** [DEFAULT_PITCH_ANGLE], the pitch of a call that gives none. *)
Definition DEFAULT_PITCH_ANGLE : npfloat := Fin 30.

Section Download.
Context `{Pyproj} `{Requests} `{Format} `{Environ} `{Os}.

(** The block under [if fetch_fixed_pitch:] and the one under
    [if fetch_height_pitch:], which differ by the directory, the call and
    the records: the value of the image key after the block. *)
Definition fetch_image (building_data : processed_building)
    (image_path : string) (use_building_height : bool) (pitch : npfloat)
    (skipped downloaded failed : fetch_line) : Script fetch_line (option string) :=
  found ← os_path_exists (L:=fetch_line) image_path;
  if (found : bool) then
    say [skipped];; mret (Some image_path)
  else
    saved ← on_disk (download_streetview_image
                       (longitude building_data) (latitude building_data)
                       image_path (building_height building_data)
                       use_building_height pitch);
    if (saved : bool) then say [downloaded];; mret (Some image_path)
    else say [failed];; mret None.

Definition download_building_images (building_data : processed_building)
    (image_directory : string) (fetch_fixed_pitch fetch_height_pitch : bool)
    (fixed_pitch : R) : Script fetch_line building_entry :=
  let osm_id := osm_id building_data in
  say (L:=fetch_line) [ProcessingBuilding osm_id];;
  fixed ←
    (if fetch_fixed_pitch then
       fetch_image building_data
         (image_path image_directory "fixed_pitch" osm_id) false
         (Fin fixed_pitch)
         (SkippedFixed fixed_pitch) (DownloadedFixed fixed_pitch)
         (FailedFixed fixed_pitch)
     else mret None);
  height ←
    (if fetch_height_pitch then
       fetch_image building_data
         (image_path image_directory "height_pitch" osm_id) true
         DEFAULT_PITCH_ANGLE
         SkippedHeight DownloadedHeight FailedHeight
     else mret None);
  mret (mkEntry building_data fixed height).

End Download.

(** The command line, after [parse_args]. *)
Record arguments : Type := mkArguments {
  arg_fixed_pitch : bool;
  arg_height_pitch : bool;
  arg_pitch : R;
  arg_sleep : R;
  arg_limit : option Z
}.

(** [if not args.fixed_pitch and not args.height_pitch:
    args.fixed_pitch = True] *)
Definition default_to_fixed (args : arguments) : arguments :=
  if negb (arg_fixed_pitch args) && negb (arg_height_pitch args) then
    mkArguments true (arg_height_pitch args) (arg_pitch args) (arg_sleep args)
      (arg_limit args)
  else args.

(** [buildings[: args.limit] if args.limit else buildings]: no limit and
    the limit 0 are false; a negative limit counts from the end. *)
Definition buildings_to_process {A} (limit : option Z) (buildings : list A)
  : list A :=
  match limit with
  | Some n =>
      if decide (n = 0)%Z then buildings
      else if decide (0 < n)%Z then take (Z.to_nat n) buildings
      else take (length buildings - Z.to_nat (- n)) buildings
  | None => buildings
  end.

(** [existing_buildings[key] = value] on a dict, which keeps its keys in
    the order of their first insertion. *)
Fixpoint dict_set {V} (key : option Z) (value : V)
    (d : list (option Z * V)) : list (option Z * V) :=
  match d with
  | [] => [(key, value)]
  | (k, v) :: rest =>
      if decide (k = key) then (k, value) :: rest
      else (k, v) :: dict_set key value rest
  end.

(** A building of an earlier output, as [json.load] gives it: a dict
    that need not have every key.  For each key that the program reads,
    [None] is a dict without the key; [stored_rest] stands for the rest
    of the dict. *)
Record stored_building : Type := mkStored {
  stored_osm_id : option (option Z);
  stored_fixed_pitch_image : option (option string);
  stored_height_pitch_image : option (option string);
  stored_rest : string
}.

(** A value of the dict [existing_buildings]: a building of the earlier
    output, or one that [download_building_images] returned in this
    run. *)
Inductive existing_building : Type :=
  | Earlier (b : stored_building)
  | Current (b : building_entry).

(** The key ["osm_id"] of a value, if it has one. *)
Definition entry_id (b : existing_building) : option (option Z) :=
  match b with
  | Earlier b => stored_osm_id b
  | Current b => Some (osm_id (processed b))
  end.

(** [b["fixed_pitch_image"]] and [b["height_pitch_image"]]: a
    [KeyError] on a dict without the key. *)
Definition fixed_image_of (b : existing_building) : result (option string) :=
  match b with
  | Earlier b => of_option KeyError (stored_fixed_pitch_image b)
  | Current b => Ok (fixed_pitch_image b)
  end.

Definition height_image_of (b : existing_building) : result (option string) :=
  match b with
  | Earlier b => of_option KeyError (stored_height_pitch_image b)
  | Current b => Ok (height_pitch_image b)
  end.

(** The dict is keyed by [osm_id]: each key is the identifier of its
    building. *)
Definition keyed (d : list (option Z * existing_building)) : Prop :=
  Forall (fun kv => entry_id kv.2 = Some kv.1) d.

(** The truth value of an image path: [None] and the empty string are
    false. *)
Definition has_image (d : building_entry) : bool :=
  negb (py_not (fixed_pitch_image d)) || negb (py_not (height_pitch_image d)).

(** [time.sleep(seconds)]: a negative length is a [ValueError]. *)
Definition time_sleep {L} (seconds : R) : Script L unit := fun s =>
  if Rlt_dec seconds 0 then (Raise ValueError, s) else (Ok tt, s).

Definition image_directory : string := "data/images".

Section Loop.
Context `{Pyproj} `{Requests} `{Format} `{Environ} `{Os}.

(** The loop over [buildings_to_process], with the dict of the buildings
    that have images and the count of those left out. *)
Fixpoint download_all (buildings : list processed_building) (args : arguments)
    (existing_buildings : list (option Z * existing_building))
    (skipped_downloads : nat)
  : Script fetch_line (list (option Z * existing_building) * nat) :=
  match buildings with
  | [] => mret (existing_buildings, skipped_downloads)
  | building :: rest =>
      building_with_images ←
        download_building_images building image_directory
          (arg_fixed_pitch args) (arg_height_pitch args) (arg_pitch args);
      let '(existing_buildings', skipped_downloads') :=
        if has_image building_with_images then
          (dict_set (osm_id (processed building_with_images))
             (Current building_with_images) existing_buildings,
           skipped_downloads)
        else (existing_buildings, S skipped_downloads) in
      time_sleep (arg_sleep args);;
      download_all rest args existing_buildings' skipped_downloads'
  end.

End Loop.

(** [json.load] on the text of the two lists, and the text that
    [json.dump] writes.  The buildings of the input have the keys that
    [process_osm_data.py] writes; those of an earlier output are the
    dicts that the file holds. *)
Class ImagesJson : Type := {
  load_processed : list Byte.byte -> result (list processed_building);
  load_entries : list Byte.byte -> result (list stored_building);
  dump_entries : list existing_building -> list Byte.byte
}.

Definition input_file : string := "data/osm/processed.json".
Definition output_file : string := "data/osm/processed_with_images.json".
Definition log_directory : string := "data/logs".

(** [configure_logging]: the file handler opens the log file for
    appending, which creates it; a directory cannot be opened. *)
Definition configure_logging (log_directory : string) : IO unit := fun w =>
  let log_file := log_directory +:+ "/streetview.log" in
  if decide (log_file ∈ dirs w) then (Raise OSError, w)
  else (Ok tt,
        mkWorld (calls w) (dirs w)
          (<[log_file := default [] (files w !! log_file)]> (files w))
          (stdout w)).

(** [for building in json.load(f): existing_buildings[building["osm_id"]]
    = building]: the dict of the buildings of an earlier output, by
    [osm_id]; a [KeyError] at the first building without the key. *)
Fixpoint index_entries (entries : list stored_building)
    (existing_buildings : list (option Z * existing_building))
  : result (list (option Z * existing_building)) :=
  match entries with
  | [] => Ok existing_buildings
  | building :: rest =>
      key ← of_option KeyError (stored_osm_id building);
      index_entries rest (dict_set key (Earlier building) existing_buildings)
  end.

(** [sum(1 for b in existing_buildings.values() if b[key])]: the values
    are read in order, and the first one without the key raises. *)
Fixpoint count_images (image : existing_building -> result (option string))
    (entries : list existing_building) : result nat :=
  match entries with
  | [] => Ok 0%nat
  | b :: rest =>
      value ← image b;
      count ← count_images image rest;
      mret (if py_not value then count else S count)
  end.

(** The degree sign of the line [f"  - Fixed pitch ({args.pitch}°): ..."],
    the one character of the summary that is not ASCII. *)
Definition degree_sign : string := "°".

Section Program.
Context `{Pyproj} `{Requests} `{Format} `{Environ} `{Os} `{ImagesJson}
  `{StdoutEncoding}.

(** [print] of a line with [text] in it: [UnicodeEncodeError], which is
    a [ValueError], when the standard output cannot encode it. *)
Definition print_encoded (text : string) (line : fetch_line)
  : Script fetch_line unit := fun s =>
  if encodes text then say [line] s else (Raise ValueError, s).

Definition when {L} (condition : bool) (lines : list L) : Script L unit :=
  if condition then say lines else mret tt.

(** The limit is announced when it is true: neither [None] nor 0. *)
Definition announce_limit (limit : option Z) : Script fetch_line unit :=
  match limit with
  | Some n => if decide (n = 0)%Z then mret tt else say [TestingMode n]
  | None => mret tt
  end.

(** The block under [# Load existing buildings with images]. *)
Definition load_existing
  : Script fetch_line (list (option Z * existing_building)) :=
  found ← os_path_exists (L:=fetch_line) output_file;
  if (found : bool) then
    text ← on_disk (read_file output_file);
    entries ← on_disk (lift (load_entries text));
    existing_buildings ← on_disk (lift (index_entries entries []));
    say [LoadedExisting (length existing_buildings)];;
    mret existing_buildings
  else mret [].

(** The [try] block of the program. *)
Definition main_body (args : arguments) : Script fetch_line unit :=
  on_disk (L:=fetch_line) setup_directory_structure;;
  on_disk (configure_logging log_directory);;
  say [Starting];;
  when (arg_fixed_pitch args) [WillFetchFixed (arg_pitch args)];;
  when (arg_height_pitch args) [WillFetchHeight];;
  say [SleepTime (arg_sleep args)];;
  announce_limit (arg_limit args);;
  text ← on_disk (read_file input_file);
  buildings ← on_disk (lift (load_processed text));
  let buildings_to_process := buildings_to_process (arg_limit args) buildings in
  say [ProcessingCount (length buildings_to_process) (length buildings)];;
  existing_buildings ← load_existing;
  done ← download_all buildings_to_process args existing_buildings 0;
  let existing_buildings := (fst done).*2 in
  let skipped_downloads := snd done in
  say [DownloadedFor (length existing_buildings);
       SkippedDownloads skipped_downloads];;
  on_disk (write_file output_file (dump_entries existing_buildings));;
  say [SavedData output_file];;
  fixed_pitch_image_count ←
    on_disk (lift (count_images fixed_image_of existing_buildings));
  height_pitch_image_count ←
    on_disk (lift (count_images height_image_of existing_buildings));
  say [SummaryTotal (length existing_buildings)];;
  print_encoded degree_sign
    (SummaryFixed (arg_pitch args) fixed_pitch_image_count);;
  say [SummaryRest height_pitch_image_count skipped_downloads].

(** The program: the arguments, then the [try] block under
    [except Exception as e], which prints and logs the error. *)
Definition main (args : arguments) : Script fetch_line unit :=
  let args := default_to_fixed args in
  try_script (main_body args) (fun e => say [ErrorPrinted e; ErrorRecord e]).

End Program.

End FetchStreetviewImages.

(** Two processed buildings, one of them with a height, and an image
    service that answers every request with 5000 bytes. *)
Module FetchSamples.
Import Utils ProcessOsmData Scripts FetchStreetviewImages.
Local Open Scope R_scope.

Definition office : processed_building :=
  mkProcessed (Some 7%Z) 0 0 None None "office" "" "" "" "" "High Street"
    "" "" "" (POLYGON []) 0.

Definition tall_office : processed_building :=
  mkProcessed (Some 8%Z) 0 0 (Some 10) None "office" "" "" "" ""
    "High Street" "" "" "" (POLYGON []) 0.

Definition image_service : Requests :=
  Fixtures.service 1 0 (replicate 5000 Byte.x00).

Definition both_images : arguments := mkArguments true true 30 0 None.

(** [download_building_images] for both images of the office, with the
    libraries of [Fixtures]. *)
Definition office_images : Script fetch_line building_entry :=
  @download_building_images Fixtures.local_frame image_service
    Fixtures.plain_format Fixtures.no_key Fixtures.any_directory
    office image_directory true true 30.

Definition office_entry : building_entry :=
  mkEntry office (Some "data/images/fixed_pitch/7.jpg")
    (Some "data/images/height_pitch/7.jpg").

(** An earlier output with one building that has no key
    ["fixed_pitch_image"], and an input without buildings; the text of a
    list is one byte per building. *)
Definition without_fixed_key : stored_building :=
  mkStored (Some (Some 5%Z)) None (Some None) "".

Definition earlier_output : ImagesJson := {|
  load_processed _ := Ok [];
  load_entries _ := Ok [without_fixed_key];
  dump_entries entries := replicate (length entries) Byte.x01
|}.

Definition lists_on_disk : world :=
  mkWorld [] ∅ {[ input_file := []; output_file := [Byte.x00] ]} [].

(** A standard output that encodes the ASCII characters only, and one
    that encodes every text. *)
Definition ascii_stdout : StdoutEncoding := {|
  encodes text :=
    forallb (fun c => Nat.ltb (Ascii.nat_of_ascii c) 128)
      (String.list_ascii_of_string text)
|}.

Definition utf8_stdout : StdoutEncoding := {| encodes _ := true |}.

(** The program on these lists, and on no list of an earlier output. *)
Definition run_with_earlier_output (terminal : StdoutEncoding)
  : result unit * (world * list fetch_line) :=
  @main Fixtures.local_frame image_service Fixtures.plain_format
    Fixtures.no_key Fixtures.any_directory earlier_output terminal
    both_images (lists_on_disk, []).

Definition run_without_earlier_output (terminal : StdoutEncoding)
  : result unit * (world * list fetch_line) :=
  @main Fixtures.local_frame image_service Fixtures.plain_format
    Fixtures.no_key Fixtures.any_directory earlier_output terminal
    both_images
    (mkWorld [] ∅ {[ input_file := [] ]} [], []).

End FetchSamples.

(** ** [fetch_osm_data.py] *)

Module FetchOsmData.
Import Utils UtilsFiles Scripts ProcessOsmData ProcessMain.

(** The double quote and the line feed, which the query holds. *)
Definition quote : string := String (Ascii.ascii_of_nat 34) "".
Definition newline : string := String (Ascii.ascii_of_nat 10) "".

(** A tag filter of the query: the key between quotes, in brackets. *)
Definition has_tag (key : string) : string :=
  "[" +:+ quote +:+ key +:+ quote +:+ "]".

(** The text that [query] starts as. *)
Definition query_head : string :=
  "[out:json][timeout:500];" +:+ newline
  +:+ "// Gather ways that are buildings with required attributes" +:+ newline
  +:+ "way" +:+ newline
  +:+ "  [" +:+ quote +:+ "building" +:+ quote +:+ "~" +:+ quote
  +:+ "^(commercial|retail|office|apartments|residential|house|detached|terrace|semidetached_house)$"
  +:+ quote +:+ "]" +:+ newline
  +:+ "  " +:+ has_tag "height" +:+ newline
  +:+ "  " +:+ has_tag "building:levels" +:+ newline
  +:+ "  " +:+ has_tag "building:material" +:+ newline
  +:+ "//  " +:+ has_tag "roof:material" +:+ newline
  +:+ "//  " +:+ has_tag "roof:shape" +:+ newline
  +:+ "//  " +:+ has_tag "addr:street" +:+ newline
  +:+ "//  " +:+ has_tag "name" +:+ newline
  +:+ "  (49.8,-5.8,58.7,1.8);".

(** [if num_buildings:] is false for [None] and for 0. *)
Definition create_overpass_query (num_buildings : option Z) : string :=
  match num_buildings with
  | Some n =>
      if decide (n = 0)%Z then query_head +:+ newline +:+ "out body geom;"
      else query_head +:+ newline +:+ "out body geom " +:+ pretty n +:+ ";"
  | None => query_head +:+ newline +:+ "out body geom;"
  end.

(** The response of the Overpass service to a POST: its status code and
    the outcome of [.json()]. *)
Record overpass_response : Type := mkOverpassResponse {
  overpass_status : Z;
  overpass_json : result osm_document
}.

(** [requests.post(url, data=...)] with the query as the form field
    [data], or the exception raised when no response arrives; and the
    text that [json.dump(data, f, indent=2)] writes.  The POST is not
    entered in the calls of the world, which list the GETs and the
    transforms. *)
Class Overpass : Type := {
  requests_post : string -> string -> result overpass_response;
  json_dump_raw : osm_document -> list Byte.byte
}.

Definition overpass_url : string := "https://overpass-api.de/api/interpreter".

(** A line of the standard output of the program. *)
Inductive osm_line : Type :=
  | FetchingCount (num_buildings : Z)
  | FetchingAll
  | SavedFile (saved_file : string)
  | Fetched (count : nat)
  | ErrorFetching (e : exn)      (* [Error fetching data: {e}] *)
  | ErrorOther (e : exn).        (* [Error: {e}] *)

(** The classes under [requests.RequestException] among those of the
    model; the decoding error of [response.json()] is one of them. *)
Definition is_request_exception (e : exn) : bool :=
  match e with
  | RequestException | HTTPError | JSONDecodeError => true
  | _ => false
  end.

Section Program.
Context `{Os} `{Overpass}.

Definition fetch_osm_data (query : string) : IO osm_document :=
  response ← lift (requests_post overpass_url query);
  (if decide (400 <= overpass_status response < 600)%Z
   then lift (Raise HTTPError) else mret tt);;
  lift (overpass_json response).

(** [save_osm_data]: [Path.mkdir(parents=True, exist_ok=True)] makes the
    directory as [os.makedirs(path, exist_ok=True)] does; the file is
    [raw.json] in it. *)
Definition save_osm_data (data : osm_document) (output_dir : string)
  : IO string :=
  os_makedirs output_dir;;
  let filepath := output_dir +:+ "/raw.json" in
  write_file filepath (json_dump_raw data);;
  mret filepath.

(** The [try] block of the program, after the command line is read. *)
Definition main_body (num_buildings : option Z) : Script osm_line unit :=
  on_disk (L:=osm_line) setup_directory_structure;;
  query ←
    match num_buildings with
    | Some n => say [FetchingCount n];; mret (create_overpass_query (Some n))
    | None => say [FetchingAll];; mret (create_overpass_query None)
    end;
  osm_data ← on_disk (fetch_osm_data query);
  saved_file ← on_disk (save_osm_data osm_data "data/osm");
  say [SavedFile saved_file;
       Fetched (length (default [] (elements osm_data)))].

Definition main (num_buildings : option Z) : Script osm_line unit :=
  try_script (main_body num_buildings)
    (fun e => if is_request_exception e then say [ErrorFetching e]
              else say [ErrorOther e]).

End Program.

End FetchOsmData.

(** ** [aerial.py] *)

Module Aerial.
Import Utils UtilsFiles Scripts.
Local Open Scope R_scope.

(** The exceptions of this module: those it raises itself, and those of
    the calls it makes. *)
Inductive aerial_exn : Type :=
  | ZeroDivisionError
  | OverflowError                 (* an int too large for a float *)
  | MissingKey                    (* [ValueError("Missing API key: ...")] *)
  | RequestFailed (status : Z)    (* [RuntimeError("Request failed ...")] *)
  | UnicodeEncodeError            (* of [print] *)
  | Escaped (e : exn).

Definition earth_circumference : R := 40075016.686.

(** [math.radians] *)
Definition radians (degrees : R) : R := degrees * PI / 180.

(** The least size of an int that has no float: the conversion rounds
    to the nearest float, and from here on that would be [2 ** 1024]. *)
Definition float_limit : Z := 2 ^ 1024 - 2 ^ 970.

(** The result of [*] and [/] on floats: past the largest float it is
    an infinity, and nothing is raised. *)
Definition in_float_range (x : R) : npfloat :=
  if Rle_dec (IZR float_limit) x then PInf
  else if Rle_dec x (- IZR float_limit) then NInf
  else Fin x.

(** [meters_per_pixel].  For a [zoom] that is not negative, [2 ** zoom]
    is an int, and so is the denominator: the division converts it to a
    float, with [OverflowError] for an int past the floats, and raises
    [ZeroDivisionError] when it is 0, which it is for the scale 0 only.
    For a negative [zoom], [2 ** zoom] is a float: the power converts
    [zoom], and is [0.0] below the least float [2 ** -1074]; the product
    with [scale] converts [scale], and is an infinity past the largest
    float, which the division turns to [0.0]. *)
Definition meters_per_pixel (lat_deg : R) (zoom : Z) (scale : Z)
  : aerial_exn + npfloat :=
  let numerator := cos (radians lat_deg) * earth_circumference in
  if decide (0 <= zoom)%Z then
    let denominator := (256 * 2 ^ zoom * scale)%Z in
    if decide (float_limit <= Z.abs denominator)%Z then inl OverflowError
    else if decide (denominator = 0)%Z then inl ZeroDivisionError
    else inr (Fin (numerator / IZR denominator))
  else
    if decide (float_limit <= Z.abs zoom)%Z then inl OverflowError
    else if decide (float_limit <= Z.abs scale)%Z then inl OverflowError
    else if decide (zoom < -1074 \/ scale = 0)%Z then inl ZeroDivisionError
    else
      match in_float_range (256 * powerRZ 2 zoom * IZR scale) with
      | Fin denominator => inr (in_float_range (numerator / denominator))
      | _ => inr (Fin 0)
      end.

(** The response of the Static Maps service: status code, the header
    [Content-Type] if there is one, and the body. *)
Record maps_response : Type := mkMapsResponse {
  maps_status : Z;
  content_type : option string;
  maps_content : list Byte.byte
}.

(** [urlencode(params, safe=',|:')] and [requests.get(url, timeout=...)];
    and the renderings [f"{x:.2f}"] of a float and [f"{b}"] of bytes. *)
Class StaticMaps : Type := {
  urlencode : list (string * string) -> string;
  maps_get : string -> result maps_response;
  str_of_float_2f : npfloat -> string;
  str_of_bytes : list Byte.byte -> string
}.

Definition _STATIC_MAPS_ENDPOINT : string :=
  "https://maps.googleapis.com/maps/api/staticmap".

(** The value of a string that is true: neither [None] nor empty. *)
Definition truthy (s : option string) : option string :=
  match s with
  | Some text => if decide (text = "") then None else Some text
  | None => None
  end.

(** [a or b] on two optional strings. *)
Definition or_else (a b : option string) : option string :=
  match truthy a with
  | Some text => Some text
  | None => b
  end.

(** What [fetch_google_aerial] returns: the bytes of the image, or the
    path of the file it saved them to. *)
Inductive fetched : Type :=
  | ImageBytes (content : list Byte.byte)
  | Outfile (outfile : string).

Section Fetch.
Context `{Format} `{StaticMaps} `{StdoutEncoding}.

(** [print(text)] of a text that is not ASCII: when the standard output
    cannot encode it, [UnicodeEncodeError], and nothing is written. *)
Definition print_encoded (text : string) (w : world)
  : (aerial_exn + unit) * world :=
  if encodes text then (inr tt, snd (print text w))
  else (inl UnicodeEncodeError, w).

(** The dict [params], in the order of its keys. *)
Definition params (lat lon : R) (zoom : Z) (size : string) (scale : Z)
    (fmt : string) (marker : option string) (key : string)
  : list (string * string) :=
  [("center", str_of_float (Fin lat) +:+ "," +:+ str_of_float (Fin lon));
   ("zoom", pretty zoom);
   ("size", size);
   ("scale", pretty scale);
   ("maptype", "satellite");
   ("format", fmt);
   ("key", key)]
  ++ match truthy marker with
     | Some m => [("markers", m)]
     | None => []
     end.

(** [fetch_google_aerial], in a process whose environment is [environ]. *)
Definition fetch_google_aerial (environ : gmap string string) (lat lon : R)
    (zoom : Z) (size : string) (scale : Z) (fmt : string)
    (marker api_key outfile : option string) (w : world)
  : (aerial_exn + fetched) * world :=
  match truthy (or_else api_key (environ !! "GOOGLE_MAPS_API_KEY")) with
  | None => (inl MissingKey, w)
  | Some key =>
      let url := _STATIC_MAPS_ENDPOINT +:+ "?"
                 +:+ urlencode (params lat lon zoom size scale fmt marker key) in
      let w1 := record_call (CallGet url) w in
      match maps_get url with
      | Raise e => (inl (Escaped e), w1)
      | Ok response =>
          if bool_decide (maps_status response <> 200%Z)
             || startswith (default "" (content_type response)) "text/"
          then (inl (RequestFailed (maps_status response)), w1)
          else
            match truthy outfile with
            | Some path =>
                match write_file path (maps_content response) w1 with
                | (Raise e, w2) => (inl (Escaped e), w2)
                | (Ok _, w2) =>
                    match print_encoded ("✅ Saved to " +:+ path) w2 with
                    | (inl e, w3) => (inl e, w3)
                    | (inr _, w3) => (inr (Outfile path), w3)
                    end
                end
            | None => (inr (ImageBytes (maps_content response)), w1)
            end
      end
  end.

(** The example at the end of the module, which runs when the module is
    imported. *)
Definition module_body (environ : gmap string string) (w : world)
  : (aerial_exn + unit) * world :=
  match fetch_google_aerial environ 40.6892 (-74.0445) 19 "640x640" 2 "png"
          None None (Some "liberty_aerial.png") w with
  | (inl e, w1) => (inl e, w1)
  | (inr image_path, w1) =>
      let image_text :=
        match image_path with
        | Outfile path => path
        | ImageBytes content => str_of_bytes content
        end in
      let w2 := snd (print ("Image saved at: " +:+ image_text) w1) in
      match meters_per_pixel 40.6892 19 2 with
      | inl e => (inl e, w2)
      | inr resolution =>
          (inr tt,
           snd (print ("Approx. ground resolution: "
                       +:+ str_of_float_2f resolution +:+ " meters/pixel") w2))
      end
  end.

End Fetch.

End Aerial.

(** A process environment with the key under the name that [utils.py]
    reads, and a Static Maps service that is never reached. *)
Module AerialSamples.
Import Utils Scripts Aerial.

Definition streetview_key_only : gmap string string :=
  {[ "GOOGLE_MAPS_KEY" := "secret" ]}.

Definition unreachable : StaticMaps := {|
  urlencode _ := "";
  maps_get _ := Raise RequestException;
  str_of_float_2f _ := "";
  str_of_bytes _ := ""
|}.

(** A Static Maps service that answers with an image of three bytes. *)
Definition image_service : StaticMaps := {|
  urlencode _ := "";
  maps_get _ := Ok (mkMapsResponse 200 (Some "image/png")
                      [Byte.x01; Byte.x02; Byte.x03]);
  str_of_float_2f _ := "";
  str_of_bytes _ := ""
|}.

End AerialSamples.

(** * Properties *)

(** ** Lists under a partial map *)

Lemma mapM_option_app {A B} (f : A -> option B) (l1 l2 : list A) :
  mapM f (l1 ++ l2) = (k1 ← mapM f l1; k2 ← mapM f l2; Some (k1 ++ k2)).
Proof.
  induction l1 as [|a l1 IH]; simpl.
  - destruct (mapM f l2); reflexivity.
  - destruct (f a) as [b|]; simpl; [|reflexivity].
    rewrite IH. destruct (mapM f l1); simpl; [|reflexivity].
    destruct (mapM f l2); reflexivity.
Qed.

Lemma mapM_option_rotate {A B} (f : A -> option B) (k : nat) (l : list A) :
  mapM f (rotate k l) = rotate k <$> mapM f l.
Proof.
  destruct (mapM f l) as [l'|] eqn:E; simpl.
  - apply mapM_Some. apply Forall2_rotate. by apply mapM_Some.
  - apply mapM_None. apply mapM_None in E.
    rewrite Exists_exists in E. destruct E as (x & Hx & Hf).
    rewrite Exists_exists. exists x. split; [|done].
    by apply elem_of_rotate.
Qed.

Lemma mapM_option_reverse {A B} (f : A -> option B) (l : list A) :
  mapM f (reverse l) = reverse <$> mapM f l.
Proof.
  induction l as [|a l IH]; [reflexivity|].
  rewrite reverse_cons, mapM_option_app, IH. simpl.
  destruct (f a) as [b|]; simpl.
  - destruct (mapM f l) as [l'|]; simpl; [|reflexivity].
    by rewrite reverse_cons.
  - destruct (mapM f l); reflexivity.
Qed.

(** ** The shoelace sum *)

Module Shoelace.
Local Open Scope R_scope.

Lemma cross_antisym (p q : point) : cross q p = - cross p q.
Proof. unfold cross. lra. Qed.

Lemma shoelace_cons2 (p q : point) (l : list point) :
  shoelace (p :: q :: l) = cross p q + shoelace (q :: l).
Proof. reflexivity. Qed.

(** The sum splits at any vertex, which then ends one part and starts
    the other. *)
Lemma shoelace_split (l1 l2 : list point) (x : point) :
  shoelace (l1 ++ x :: l2) = shoelace (l1 ++ [x]) + shoelace (x :: l2).
Proof.
  induction l1 as [|a l1 IH].
  - simpl app. change (shoelace [x]) with 0. lra.
  - destruct l1 as [|b l1].
    + simpl app. rewrite !shoelace_cons2. change (shoelace [x]) with 0. lra.
    + change (shoelace (a :: b :: (l1 ++ x :: l2)) =
              shoelace (a :: b :: (l1 ++ [x])) + shoelace (x :: l2)).
      rewrite !shoelace_cons2.
      change (cross a b + shoelace ((b :: l1) ++ x :: l2) =
              cross a b + shoelace ((b :: l1) ++ [x]) + shoelace (x :: l2)).
      rewrite IH. lra.
Qed.

Lemma shoelace_closed_swap (l1 l2 : list point) :
  shoelace (closed_ring (l2 ++ l1)) = shoelace (closed_ring (l1 ++ l2)).
Proof.
  destruct l1 as [|a l1]; [by rewrite app_nil_r|].
  destruct l2 as [|b l2]; [by rewrite app_nil_r|].
  replace (closed_ring ((b :: l2) ++ a :: l1))
    with ((b :: l2) ++ a :: (l1 ++ [b]))
    by (simpl; by rewrite <- app_assoc).
  replace (closed_ring ((a :: l1) ++ b :: l2))
    with ((a :: l1) ++ b :: (l2 ++ [a]))
    by (simpl; by rewrite <- app_assoc).
  rewrite (shoelace_split (b :: l2) (l1 ++ [b]) a).
  rewrite (shoelace_split (a :: l1) (l2 ++ [a]) b).
  simpl app. lra.
Qed.

Lemma shoelace_closed_rotate (k : nat) (vs : list point) :
  shoelace (closed_ring (rotate k vs)) = shoelace (closed_ring vs).
Proof.
  unfold rotate.
  rewrite shoelace_closed_swap. by rewrite take_drop.
Qed.

Lemma shoelace_reverse (l : list point) : shoelace (reverse l) = - shoelace l.
Proof.
  induction l as [|a l IH]; [simpl; lra|].
  destruct l as [|b l]; [simpl; lra|].
  rewrite reverse_cons.
  rewrite reverse_cons in IH |- *.
  rewrite <- app_assoc. simpl app.
  rewrite (shoelace_split (reverse l) [a] b), IH, !shoelace_cons2.
  change (shoelace [a]) with 0. rewrite (cross_antisym a b). lra.
Qed.

Lemma shapely_area_reverse (l : list point) :
  shapely_area (reverse l) = shapely_area l.
Proof. unfold shapely_area. by rewrite shoelace_reverse, Rabs_Ropp. Qed.

Lemma shapely_area_closed_rotate (k : nat) (vs : list point) :
  shapely_area (closed_ring (rotate k vs)) = shapely_area (closed_ring vs).
Proof. unfold shapely_area. by rewrite shoelace_closed_rotate. Qed.

Lemma closed_ring_open (r : LinearRing) :
  valid_ring r -> closed_ring (open_ring r) = r.
Proof.
  intros [Hlen (p & Hhead & Hlast)]. unfold open_ring.
  destruct r as [|q r]; [simpl in Hlen; lia|].
  simpl in Hhead. injection Hhead as ->.
  destruct (decide (r = [])) as [->|Hne]; [simpl in Hlen; lia|].
  destruct (exists_last Hne) as (r' & z & ->).
  rewrite app_comm_cons, last_snoc in Hlast. injection Hlast as ->.
  replace (length (p :: r' ++ [p]) - 1)%nat with (length (p :: r')).
  2:{ simpl. rewrite length_app. simpl. lia. }
  rewrite app_comm_cons, take_app_length. reflexivity.
Qed.

Lemma valid_closed_ring (vs : list point) :
  (3 <= length vs)%nat -> valid_ring (closed_ring vs).
Proof.
  intros Hlen. destruct vs as [|v vs]; [simpl in Hlen; lia|].
  split.
  - simpl. rewrite length_app. simpl in *. lia.
  - exists v. split; [reflexivity|].
    simpl closed_ring. by rewrite app_comm_cons, last_snoc.
Qed.

Lemma length_open_ring (r : LinearRing) :
  valid_ring r -> (3 <= length (open_ring r))%nat.
Proof. intros [Hlen _]. unfold open_ring. rewrite length_take. lia. Qed.

Lemma valid_ring_reverse (r : LinearRing) : valid_ring r -> valid_ring (reverse r).
Proof.
  intros [Hlen (p & Hhead & Hlast)]. split.
  - by rewrite length_reverse.
  - exists p. split.
    + by rewrite head_reverse.
    + by rewrite last_reverse.
Qed.

End Shoelace.

(** ** The polygon area engine *)

Module AreaEngine.
Import Utils Shoelace.
Local Open Scope R_scope.

Section WithUtm.
Context `{Utm}.

Lemma project_vertices_mapM (coords acc : list point) :
  project_vertices coords acc =
  of_option OutOfRangeError ((fun l => acc ++ l) <$> mapM project_vertex coords).
Proof.
  revert acc. induction coords as [|v coords IH]; intros acc.
  - simpl. by rewrite app_nil_r.
  - simpl. change (from_latlon (snd v) (fst v)) with (project_vertex v).
    destruct (project_vertex v) as [[easting northing]|]; simpl;
      [|reflexivity].
    rewrite IH. destruct (mapM project_vertex coords) as [l|]; simpl;
      [|reflexivity].
    by rewrite <- app_assoc.
Qed.

(** The loop computes what [ring_area] describes. *)
Lemma calculate_ring_area_in_utm_eq (ring : LinearRing) :
  calculate_ring_area_in_utm ring = ring_area ring.
Proof.
  unfold calculate_ring_area_in_utm, ring_area.
  rewrite project_vertices_mapM.
  by destruct (mapM project_vertex ring).
Qed.

Lemma subtract_holes_eq (holes : list LinearRing) (area : R) :
  subtract_holes holes area =
  (areas ← mapM ring_area holes; mret (area - sum_areas areas)).
Proof.
  revert area. induction holes as [|hole holes IH]; intros area.
  - simpl. unfold mret, result_ret. f_equal. lra.
  - simpl. rewrite calculate_ring_area_in_utm_eq.
    destruct (ring_area hole) as [a|e]; simpl; [|reflexivity].
    rewrite IH. destruct (mapM ring_area holes) as [areas|e]; simpl;
      [|reflexivity].
    unfold mret, result_ret. f_equal. lra.
Qed.

Lemma ring_area_closed_rotate (k : nat) (vs : list point) :
  ring_area (closed_ring (rotate k vs)) = ring_area (closed_ring vs).
Proof.
  unfold ring_area.
  assert (Hclosed : forall l, mapM project_vertex (closed_ring l) =
                              closed_ring <$> mapM project_vertex l).
  { intros [|v l]; [reflexivity|].
    change (closed_ring (v :: l)) with ((v :: l) ++ [v]).
    rewrite mapM_option_app. simpl.
    destruct (project_vertex v) as [v'|]; simpl; [|reflexivity].
    destruct (mapM project_vertex l); reflexivity. }
  rewrite !Hclosed, mapM_option_rotate.
  destruct (mapM project_vertex vs) as [l|]; simpl; [|reflexivity].
  by rewrite shapely_area_closed_rotate.
Qed.

Lemma ring_area_reverse (r : LinearRing) : ring_area (reverse r) = ring_area r.
Proof.
  unfold ring_area. rewrite mapM_option_reverse.
  destruct (mapM project_vertex r) as [l|]; simpl; [|reflexivity].
  by rewrite shapely_area_reverse.
Qed.

(** C1.  The area of a polygon is the area of its exterior ring minus the
    sum of the areas of its hole rings, where the area of each ring is
    computed on its own: every vertex is projected to UTM and the planar
    area formula is applied to the projected coordinates.  If a vertex of
    some ring cannot be projected, both sides raise the same error. *)
Theorem polygon_area_exterior_minus_holes (polygon : Polygon) :
  calculate_polygon_area_in_utm polygon =
  (outer ← ring_area (exterior polygon);
   holes ← mapM ring_area (interiors polygon);
   mret (outer - sum_areas holes)).
Proof.
  unfold calculate_polygon_area_in_utm.
  rewrite calculate_ring_area_in_utm_eq.
  destruct (ring_area (exterior polygon)) as [outer|e]; simpl; [|reflexivity].
  apply subtract_holes_eq.
Qed.

(** C7.  For a valid ring (closed, at least four coordinates) the area
    computed from the projected coordinates is the same when the ring is
    traversed from another starting vertex and when it is traversed in
    the opposite direction; both are again valid rings. *)
Theorem ring_area_rotation_reversal (r : LinearRing) (k : nat) :
  valid_ring r ->
  calculate_ring_area_in_utm (rotate_ring k r) = calculate_ring_area_in_utm r
  /\ calculate_ring_area_in_utm (reverse r) = calculate_ring_area_in_utm r
  /\ valid_ring (rotate_ring k r) /\ valid_ring (reverse r).
Proof.
  intros Hvalid. rewrite !calculate_ring_area_in_utm_eq.
  split; [|split; [|split]].
  - unfold rotate_ring. rewrite ring_area_closed_rotate.
    by rewrite closed_ring_open.
  - apply ring_area_reverse.
  - unfold rotate_ring. apply valid_closed_ring.
    rewrite length_rotate. by apply length_open_ring.
  - by apply valid_ring_reverse.
Qed.

End WithUtm.

(** On a flat map, a square of side 2 with a hole of side 1 has area 3. *)
Example square_with_hole_area :
  calculate_polygon_area_in_utm (H:=Fixtures.flat_utm) Fixtures.square_with_hole =
  Ok 3.
Proof.
  unfold calculate_polygon_area_in_utm, calculate_ring_area_in_utm. simpl.
  unfold shapely_area. simpl. unfold cross. simpl.
  rewrite !Rabs_pos_eq by lra.
  unfold mret, result_ret. f_equal. lra.
Qed.

Lemma ring_area_rotation_reversal_witness :
  let area := calculate_ring_area_in_utm (H:=Fixtures.flat_utm) in
  valid_ring Fixtures.triangle_ring /\
  (area (rotate_ring 1 Fixtures.triangle_ring) = area Fixtures.triangle_ring
   /\ area (reverse Fixtures.triangle_ring) = area Fixtures.triangle_ring
   /\ valid_ring (rotate_ring 1 Fixtures.triangle_ring)
   /\ valid_ring (reverse Fixtures.triangle_ring)).
Proof.
  assert (Hv : valid_ring Fixtures.triangle_ring).
  { split; [simpl; lia|]. exists (0, 0). split; reflexivity. }
  split; [exact Hv|].
  exact (ring_area_rotation_reversal (H:=Fixtures.flat_utm)
           Fixtures.triangle_ring 1 Hv).
Defined.

End AreaEngine.

(** ** Ring closing and the WKT reader *)

Module Closing.
Import Utils ProcessOsmData.
Local Open Scope R_scope.

Lemma geometry_coords_node_of (vs : list point) :
  geometry_coords (node_of <$> vs) = Ok vs.
Proof.
  induction vs as [|[x y] vs IH]; [reflexivity|].
  rewrite fmap_cons.
  change (geometry_coords (node_of (x, y) :: (node_of <$> vs)))
    with (c ← node_coords (node_of (x, y));
          cs ← geometry_coords (node_of <$> vs); mret (c :: cs)).
  rewrite IH. reflexivity.
Qed.

Lemma geometry_coords_length (g : list node) (coords : list point) :
  geometry_coords g = Ok coords -> length coords = length g.
Proof.
  revert coords. induction g as [|n g IH]; intros coords Hg; simpl in Hg.
  - by injection Hg as <-.
  - destruct (node_coords n) as [c|e]; simpl in Hg; [|discriminate].
    destruct (geometry_coords g) as [cs|e]; simpl in Hg; [|discriminate].
    injection Hg as <-. simpl. f_equal. by apply IH.
Qed.

Lemma point_neqb_true (p q : point) : point_neqb p q = true <-> p <> q.
Proof. unfold point_neqb. by rewrite bool_decide_eq_true. Qed.

Lemma point_neqb_false (p q : point) : point_neqb p q = false <-> p = q.
Proof.
  unfold point_neqb. rewrite bool_decide_eq_false.
  split; [|intros -> Hne; by apply Hne].
  intros Hnn. by destruct (decide (p = q)) as [|Hne]; [|destruct (Hnn Hne)].
Qed.

Lemma point_neqb_refl (p : point) : point_neqb p p = false.
Proof. by apply point_neqb_false. Qed.

Lemma close_coords_empty : close_coords [] = Raise IndexError.
Proof. reflexivity. Qed.

(** A ring whose ends differ gets its first vertex appended. *)
Lemma close_coords_open (v : point) (vs : list point) :
  last (v :: vs) <> Some v ->
  close_coords (v :: vs) = Ok ((v :: vs) ++ [v]).
Proof.
  intros Hlast. unfold close_coords.
  destruct (last (v :: vs)) as [z|] eqn:E.
  - simpl head. simpl.
    destruct (point_neqb v z) eqn:Hb; [reflexivity|].
    apply point_neqb_false in Hb. congruence.
  - by rewrite last_cons in E; destruct (last vs).
Qed.

(** A ring whose ends agree is left as it is. *)
Lemma close_coords_closed (v : point) (vs : list point) :
  last (v :: vs) = Some v -> close_coords (v :: vs) = Ok (v :: vs).
Proof.
  intros Hlast. unfold close_coords. rewrite Hlast. simpl.
  destruct (point_neqb v v) eqn:Hb; [|reflexivity].
  apply point_neqb_true in Hb. congruence.
Qed.

(** Closing a second time changes nothing. *)
Lemma close_coords_idempotent (coords closed : list point) :
  close_coords coords = Ok closed -> close_coords closed = Ok closed.
Proof.
  destruct coords as [|v vs]; [discriminate|].
  destruct (decide (last (v :: vs) = Some v)) as [Heq|Hne].
  - rewrite (close_coords_closed _ _ Heq). intros [= <-].
    by apply close_coords_closed.
  - rewrite (close_coords_open _ _ Hne). intros [= <-].
    apply (close_coords_closed v (vs ++ [v])).
    by rewrite app_comm_cons, last_snoc.
Qed.

Lemma close_coords_length (coords closed : list point) :
  close_coords coords = Ok closed ->
  (length coords <= length closed <= length coords + 1)%nat.
Proof.
  unfold close_coords.
  destruct (head coords) as [first|]; [|discriminate].
  destruct (last coords) as [final|]; [|discriminate]. simpl.
  destruct (point_neqb first final); intros [= <-].
  - rewrite length_app. simpl. lia.
  - lia.
Qed.

(** The reader refuses a shell of fewer than three points. *)
Lemma wkt_loads_short (coords : list point) :
  (length coords < 3)%nat -> wkt_loads (POLYGON coords) = Raise GEOSException.
Proof. intros Hlen. unfold wkt_loads. destruct (decide _); [lia|reflexivity]. Qed.

Lemma wkt_loads_closed (v : point) (vs : list point) :
  (3 <= length (v :: vs))%nat ->
  wkt_loads (POLYGON ((v :: vs) ++ [v])) = Ok (mkPolygon ((v :: vs) ++ [v]) []).
Proof.
  intros Hlen. unfold wkt_loads.
  destruct (decide _) as [_|Hn].
  - rewrite last_snoc. change (head ((v :: vs) ++ [v])) with (Some v).
    cbv beta iota. by rewrite point_neqb_refl.
  - rewrite length_app in Hn. simpl in *. lia.
Qed.

Section WithUtm.
Context `{Utm}.

(** C6.  Closing is idempotent.  A ring of at least three vertices given
    with its first vertex different from its last is closed by appending
    the first vertex, and the ring so closed is left as it is.  Both forms
    are turned into the same WKT text and get the same area, which is the
    area of the closed ring. *)
Theorem ring_closing_idempotent (v : point) (vs : list point) :
  (3 <= length (v :: vs))%nat ->
  last (v :: vs) <> Some v ->
  let opened := v :: vs in
  let closed := (v :: vs) ++ [v] in
  close_coords opened = Ok closed
  /\ close_coords closed = Ok closed
  /\ convert_osm_to_wkt (node_of <$> closed) =
     convert_osm_to_wkt (node_of <$> opened)
  /\ area_of_geometry (node_of <$> closed) = area_of_geometry (node_of <$> opened)
  /\ area_of_geometry (node_of <$> opened) = calculate_ring_area_in_utm closed.
Proof.
  intros Hlen Hlast opened closed.
  pose proof (close_coords_open v vs Hlast) as Hco.
  pose proof (close_coords_idempotent _ _ Hco) as Hcc.
  fold closed in Hco, Hcc. fold opened in Hco.
  assert (Hopen : convert_osm_to_wkt (node_of <$> opened) = Ok (POLYGON closed)).
  { unfold convert_osm_to_wkt. rewrite geometry_coords_node_of.
    change (close_coords opened ≫= (fun c => mret (POLYGON c)) =
            Ok (POLYGON closed)).
    by rewrite Hco. }
  assert (Hclosed : convert_osm_to_wkt (node_of <$> closed) = Ok (POLYGON closed)).
  { unfold convert_osm_to_wkt. rewrite geometry_coords_node_of.
    change (close_coords closed ≫= (fun c => mret (POLYGON c)) =
            Ok (POLYGON closed)).
    by rewrite Hcc. }
  split; [exact Hco|]. split; [exact Hcc|].
  split; [by rewrite Hopen, Hclosed|].
  unfold area_of_geometry. rewrite Hopen, Hclosed.
  split; [reflexivity|].
  change (wkt_loads (POLYGON closed) ≫= calculate_polygon_area_in_utm =
          calculate_ring_area_in_utm closed).
  unfold closed. rewrite (wkt_loads_closed _ _ Hlen).
  change (calculate_polygon_area_in_utm (mkPolygon ((v :: vs) ++ [v]) []) =
          calculate_ring_area_in_utm ((v :: vs) ++ [v])).
  unfold calculate_polygon_area_in_utm. simpl.
  by destruct (calculate_ring_area_in_utm _).
Qed.

End WithUtm.

Lemma ring_closing_idempotent_witness :
  let area := area_of_geometry (H:=Fixtures.flat_utm) in
  (3 <= length Fixtures.triangle)%nat /\
  last Fixtures.triangle <> Some (0, 0) /\
  area (node_of <$> (Fixtures.triangle ++ [(0, 0)])) =
  area (node_of <$> Fixtures.triangle).
Proof.
  assert (Hlen : (3 <= length Fixtures.triangle)%nat) by (simpl; lia).
  assert (Hlast : last Fixtures.triangle <> Some (0, 0)).
  { simpl. intros [= Hx _]. lra. }
  split; [exact Hlen|]. split; [exact Hlast|].
  exact (proj1 (proj2 (proj2 (proj2
           (ring_closing_idempotent (H:=Fixtures.flat_utm)
              (0, 0) [(1, 0); (1, 1)] Hlen Hlast))))).
Defined.

End Closing.

(** ** Processing buildings *)

Module Batch.
Import Utils ProcessOsmData Closing.
Local Open Scope R_scope.

Section WithLibraries.
Context `{Utm} `{Shapely} `{Builtins}.

(** The first two steps of [process_body] are those of
    [area_of_geometry]: when they fail, both fail alike. *)
Lemma process_body_reading_fails (b : building) (e : exn) :
  (footprint_wkt ← convert_osm_to_wkt (default [] (geometry b));
   wkt_loads footprint_wkt) = Raise e ->
  process_body b = Raise e /\
  area_of_geometry (default [] (geometry b)) = Raise e.
Proof.
  unfold process_body, area_of_geometry.
  destruct (convert_osm_to_wkt (default [] (geometry b))) as [w|e1]; simpl.
  - destruct (wkt_loads w) as [p|e2]; simpl; [discriminate|].
    by intros [= ->].
  - by intros [= ->].
Qed.

(** A geometry whose nodes all have their coordinates is the list of the
    nodes of these coordinates. *)
Lemma geometry_coords_ok (g : list node) (coords : list point) :
  geometry_coords g = Ok coords -> g = node_of <$> coords.
Proof.
  revert coords. induction g as [|[lon lat] g IH]; intros coords.
  - by intros [= <-].
  - cbn [geometry_coords]. unfold node_coords. cbn [node_lon node_lat].
    destruct lon as [x|]; cbn; [|discriminate].
    destruct lat as [y|]; cbn; [|discriminate].
    destruct (geometry_coords g) as [cs|e]; cbn; [|discriminate].
    intros [= <-]. by rewrite (IH cs eq_refl).
Qed.

(** The ring of two different vertices is closed to a shell of three
    points, which the reader accepts. *)
Lemma two_vertex_ring_read (p q : point) :
  p <> q ->
  (footprint_wkt ← convert_osm_to_wkt (node_of <$> [p; q]);
   wkt_loads footprint_wkt) = Ok (mkPolygon [p; q; p] []).
Proof.
  intros Hne. unfold convert_osm_to_wkt. rewrite geometry_coords_node_of.
  assert (Hclose : close_coords [p; q] = Ok [p; q; p]).
  { apply (close_coords_open p [q]). simpl. intros [= Heq]. by apply Hne. }
  unfold mbind, result_bind. rewrite Hclose. unfold wkt_loads.
  destruct (decide (3 <= length [p; q; p])%nat) as [_|Hn]; [|simpl in Hn; lia].
  cbn. by rewrite point_neqb_refl.
Qed.

(** The shell of three points encloses nothing: whenever its area is
    computed, the area is 0. *)
Lemma three_point_shell_area (p q : point) (area : R) :
  calculate_polygon_area_in_utm (mkPolygon [p; q; p] []) = Ok area ->
  area = 0.
Proof.
  unfold calculate_polygon_area_in_utm, calculate_ring_area_in_utm. cbn.
  destruct (from_latlon (snd p) (fst p)) as [[px py]|]; [|discriminate].
  destruct (from_latlon (snd q) (fst q)) as [[qx qy]|]; [|discriminate].
  cbn. intros [= <-].
  unfold shapely_area. cbn [shoelace]. unfold cross. cbn [fst snd].
  match goal with |- Rabs ?x / 2 = 0 => replace x with 0 by lra end.
  rewrite Rabs_R0. lra.
Qed.

(** A ring of fewer than three vertices that is not the ring of two
    different vertices is never read as a polygon. *)
Lemma short_geometry_not_read (g : list node) :
  (length g < 3)%nat ->
  (exists e,
     (footprint_wkt ← convert_osm_to_wkt g; wkt_loads footprint_wkt) = Raise e
     /\ (g = [] -> e = IndexError)
     /\ (forall vs, g = node_of <$> vs -> vs <> [] -> e = GEOSException))
  \/ (exists p q, g = [node_of p; node_of q] /\ p <> q).
Proof.
  intros Hlen. unfold convert_osm_to_wkt.
  destruct (geometry_coords g) as [coords|e] eqn:Hg; simpl.
  2:{ left. exists e. split; [done|]. split.
      - intros ->. discriminate.
      - intros vs -> _. rewrite geometry_coords_node_of in Hg. discriminate. }
  pose proof (geometry_coords_length g coords Hg) as Hcoords.
  apply geometry_coords_ok in Hg. subst g.
  destruct coords as [|p [|q [|r coords]]]; [| | |simpl in Hlen; lia].
  - left. exists IndexError. split; [done|]. split; [done|].
    intros vs Hvs Hne. by destruct vs.
  - left. exists GEOSException. split; [|done].
    rewrite (close_coords_closed p [] eq_refl).
    apply (wkt_loads_short [p]). simpl. lia.
  - destruct (decide (p = q)) as [<-|Hne].
    + left. exists GEOSException. split; [|split; [discriminate|done]].
      rewrite (close_coords_closed p [p] eq_refl).
      apply (wkt_loads_short [p; p]). simpl. lia.
    + right. by exists p, q.
Qed.

(** C2, as the code has it.  The code has no check of the number of
    vertices, and a ring of fewer than three vertices ends in one of two
    ways.  Either reading it raises: [IndexError] on the empty ring, the
    invalid-geometry error of the WKT reader on a ring of one vertex or of
    two equal vertices (all nodes having their coordinates); then no area
    is computed, and [process_osm_building] prints the error with the
    identifier of the building and returns [None].  Or the ring has two
    different vertices: it is closed to a shell of three points, which the
    reader accepts, and whenever the area is computed it is 0, so that a
    building that is kept has the footprint area 0. *)
Theorem short_ring_outcomes (b : building) (out : list log_line) :
  let g := default [] (geometry b) in
  (length g < 3)%nat ->
  (exists e,
     area_of_geometry g = Raise e
     /\ process_osm_building b out = (None, out ++ [ErrorProcessing (id b) e])
     /\ (g = [] -> e = IndexError)
     /\ (forall vs, g = node_of <$> vs -> vs <> [] -> e = GEOSException))
  \/ (exists p q,
        g = [node_of p; node_of q] /\ p <> q
        /\ (footprint_wkt ← convert_osm_to_wkt g; wkt_loads footprint_wkt)
           = Ok (mkPolygon [p; q; p] [])
        /\ (forall area, area_of_geometry g = Ok area -> area = 0)
        /\ (forall p, process_body b = Ok p -> footprint_area p = 0)).
Proof.
  intros g Hlen.
  destruct (short_geometry_not_read g Hlen)
    as [(e & Hread & Hempty & Hgeos)|(p & q & Hg & Hne)].
  - left. destruct (process_body_reading_fails b e Hread) as [Hbody Harea].
    exists e. split; [exact Harea|]. split; [|by split].
    unfold process_osm_building. by rewrite Hbody.
  - right. exists p, q. split; [exact Hg|]. split; [exact Hne|].
    pose proof (two_vertex_ring_read p q Hne) as Hread.
    change (node_of <$> [p; q]) with [node_of p; node_of q] in Hread.
    rewrite <- Hg in Hread. split; [exact Hread|].
    unfold area_of_geometry, process_body. fold g.
    destruct (convert_osm_to_wkt g) as [w|e]; [|discriminate].
    unfold mbind, result_bind in Hread |- *. rewrite Hread. split.
    + apply three_point_shell_area.
    + intros pb.
      destruct (representative_point _) as [[lon lat]|e]; [|discriminate].
      destruct (calculate_polygon_area_in_utm (mkPolygon [p; q; p] []))
        as [area|e] eqn:Harea; [|discriminate].
      intros [= <-]. cbn. by apply (three_point_shell_area p q).
Qed.

(** C8.  A batch of buildings is processed to the end whatever happens to
    single buildings.  The output list holds exactly the buildings whose
    processing succeeded, in input order; for each building whose
    processing raised, one line with its identifier and the error is
    printed, in input order, and the building is left out.  Every building
    is either kept or reported. *)
Theorem batch_keeps_successes (bs : list building) (out : list log_line) :
  process_buildings bs [] out =
    (kept process_body bs, out ++ reported process_body bs)
  /\ (forall p, p ∈ kept process_body bs <->
                exists b, b ∈ bs /\ process_body b = Ok p)
  /\ (forall i e, ErrorProcessing i e ∈ reported process_body bs <->
                  exists b, b ∈ bs /\ id b = i /\ process_body b = Raise e)
  /\ (length (kept process_body bs) + length (reported process_body bs) =
      length bs)%nat.
Proof.
  split; [|split; [|split]].
  - change (kept process_body bs) with ([] ++ kept process_body bs).
    generalize (@nil processed_building) as acc. revert out.
    induction bs as [|b bs IH]; intros out acc.
    + simpl. by rewrite !app_nil_r.
    + simpl. unfold process_osm_building, kept, reported. simpl.
      destruct (process_body b) as [p|e]; simpl; rewrite IH;
        unfold kept, reported; by rewrite <- app_assoc.
  - intros p. unfold kept. rewrite list_elem_of_omap.
    split; intros (b & Hb & Hp); exists b; (split; [exact Hb|]).
    + by destruct (process_body b) as [q|e]; simplify_eq/=.
    + by rewrite Hp.
  - intros i e. unfold reported. rewrite list_elem_of_omap.
    split.
    + intros (b & Hb & Hp). exists b. split; [exact Hb|].
      by destruct (process_body b) as [q|e']; simplify_eq/=.
    + intros (b & Hb & <- & Hp). exists b. split; [exact Hb|]. by rewrite Hp.
  - induction bs as [|b bs IH]; [reflexivity|].
    unfold kept, reported in *. cbn [omap list_omap length].
    destruct (process_body b) as [p|e]; cbn [to_option length]; lia.
Qed.

End WithLibraries.

(** Two short rings that are not refused as invalid geometry.  The ring
    of two different vertices gets the area 0 without any error, and its
    building is kept with that area; the empty ring fails in the closing
    step, which indexes an empty list. *)
Lemma short_rings_not_refused :
  let b := Fixtures.building_of 7 Fixtures.segment in
  (length (default [] (geometry b)) < 3)%nat
  /\ area_of_geometry (H:=Fixtures.flat_utm) (default [] (geometry b)) = Ok 0
  /\ (exists p,
        process_osm_building (H:=Fixtures.flat_utm)
          (H0:=Fixtures.first_vertex_point) (H1:=Fixtures.no_numbers) b []
        = (Some p, [])
        /\ footprint_area p = 0)
  /\ (length (@nil node) < 3)%nat
  /\ area_of_geometry (H:=Fixtures.flat_utm) [] = Raise IndexError
  /\ area_of_geometry (H:=Fixtures.flat_utm) [] <> Raise GEOSException.
Proof.
  intros b.
  change (default [] (geometry b))
    with (node_of <$> [((0, 0) : point); (1, 0)]).
  assert (Hwkt : convert_osm_to_wkt (node_of <$> [((0, 0) : point); (1, 0)])
                 = Ok (POLYGON [(0, 0); (1, 0); (0, 0)])).
  { unfold convert_osm_to_wkt. rewrite geometry_coords_node_of.
    unfold mbind, result_bind.
    rewrite (close_coords_open (0, 0) [(1, 0)]); [done|].
    simpl. intros [= Hx]. lra. }
  assert (Hload : wkt_loads (POLYGON [(0, 0); (1, 0); (0, 0)])
                  = Ok (mkPolygon [(0, 0); (1, 0); (0, 0)] [])).
  { unfold wkt_loads.
    destruct (decide (3 <= length [(0%R, 0%R); (1%R, 0%R); (0%R, 0%R)])%nat)
      as [_|Hn]; [|simpl in Hn; lia].
    cbn. by rewrite point_neqb_refl. }
  assert (Harea : calculate_polygon_area_in_utm (H:=Fixtures.flat_utm)
                    (mkPolygon [(0, 0); (1, 0); (0, 0)] []) = Ok 0).
  { unfold calculate_polygon_area_in_utm, calculate_ring_area_in_utm. cbn.
    unfold mret, result_ret. f_equal.
    unfold shapely_area. cbn [shoelace]. unfold cross. cbn [fst snd].
    match goal with |- Rabs ?x / 2 = 0 => replace x with 0 by lra end.
    rewrite Rabs_R0. lra. }
  split; [simpl; lia|]. split.
  { unfold area_of_geometry. rewrite Hwkt. unfold mbind, result_bind.
    rewrite Hload. exact Harea. }
  split.
  { unfold process_osm_building, process_body.
    change (default [] (geometry b))
      with (node_of <$> [((0, 0) : point); (1, 0)]).
    rewrite Hwkt. unfold mbind, result_bind. rewrite Hload.
    cbn [representative_point Fixtures.first_vertex_point exterior head
         of_option].
    rewrite Harea. eexists. split; reflexivity. }
  split; [simpl; lia|]. split; [reflexivity|discriminate].
Qed.

Lemma short_ring_outcomes_witness :
  let b := Fixtures.building_of 3 [((2, 2) : point)] in
  (length (default [] (geometry b)) < 3)%nat
  /\ process_osm_building (H:=Fixtures.flat_utm)
       (H0:=Fixtures.first_vertex_point) (H1:=Fixtures.no_numbers) b []
     = (None, [] ++ [ErrorProcessing (id b) GEOSException]).
Proof.
  intros b.
  assert (Hlen : (length (default [] (geometry b)) < 3)%nat) by (simpl; lia).
  split; [exact Hlen|].
  destruct (short_ring_outcomes (H:=Fixtures.flat_utm)
              (H0:=Fixtures.first_vertex_point) (H1:=Fixtures.no_numbers)
              b [] Hlen)
    as [(e & _ & Hdrop & _ & Hgeos)|(p & q & Hg & _)].
  - by rewrite (Hgeos [(2, 2)] eq_refl ltac:(discriminate)) in Hdrop.
  - discriminate.
Defined.

End Batch.

(** ** Vectors *)

Module Vectors.
Local Open Scope R_scope.

Lemma dot_self_nonneg (a : vec3) : 0 <= dot a a.
Proof. destruct a as [[x y] z]. simpl. nra. Qed.

Lemma norm_nonneg (a : vec3) : 0 <= norm a.
Proof. apply sqrt_pos. Qed.

Lemma norm_sqr (a : vec3) : norm a * norm a = dot a a.
Proof. apply sqrt_sqrt, dot_self_nonneg. Qed.

Lemma norm_zero_dot (a b : vec3) : norm a = 0 -> dot a b = 0 /\ dot b a = 0.
Proof.
  intros Hn. pose proof (norm_sqr a) as Hs. rewrite Hn in Hs.
  destruct a as [[x y] z], b as [[x' y'] z']. simpl in *.
  assert (x = 0) by nra. assert (y = 0) by nra. assert (z = 0) by nra.
  subst. lra.
Qed.

Lemma norm_vsub_self (p : vec3) : norm (vsub p p) = 0.
Proof.
  destruct p as [[x y] z]. unfold norm. simpl.
  replace ((x - x) * (x - x) + (y - y) * (y - y) + (z - z) * (z - z)) with 0
    by ring.
  apply sqrt_0.
Qed.

(** Cauchy and Schwarz. *)
Lemma dot_sqr_le (a b : vec3) : dot a b * dot a b <= dot a a * dot b b.
Proof.
  destruct a as [[x y] z], b as [[x' y'] z']. simpl.
  pose proof (Rle_0_sqr (x * y' - y * x')) as H1.
  pose proof (Rle_0_sqr (x * z' - z * x')) as H2.
  pose proof (Rle_0_sqr (y * z' - z * y')) as H3.
  unfold Rsqr in *. nra.
Qed.

Lemma cosine_in_range (a b : vec3) :
  norm a <> 0 -> norm b <> 0 -> -1 <= dot a b / (norm a * norm b) <= 1.
Proof.
  intros Ha Hb.
  pose proof (norm_nonneg a). pose proof (norm_nonneg b).
  assert (Hpos : 0 < norm a * norm b) by nra.
  pose proof (dot_sqr_le a b) as Hcs.
  rewrite <- (norm_sqr a), <- (norm_sqr b) in Hcs.
  assert (Habs : - (norm a * norm b) <= dot a b <= norm a * norm b) by nra.
  split.
  - apply Rmult_le_reg_r with (norm a * norm b); [exact Hpos|].
    unfold Rdiv. rewrite Rmult_assoc, Rinv_l; lra.
  - apply Rmult_le_reg_r with (norm a * norm b); [exact Hpos|].
    unfold Rdiv. rewrite Rmult_assoc, Rinv_l; lra.
Qed.

Lemma np_arccos_cosine (a b : vec3) :
  norm a <> 0 -> norm b <> 0 ->
  np_half (np_degrees (np_arccos (np_div (dot a b) (norm a * norm b)))) =
  Fin (angle_degrees a b / 2).
Proof.
  intros Ha Hb. destruct (cosine_in_range a b Ha Hb) as [Hlo Hhi].
  unfold np_div. destruct (decide (norm a * norm b = 0)) as [Hz|_].
  { apply Rmult_integral in Hz. tauto. }
  unfold np_arccos.
  destruct (Rle_dec _ _); [|tauto]. destruct (Rle_dec _ _); [|tauto].
  simpl. unfold angle_degrees. f_equal. lra.
Qed.

Lemma np_arccos_degenerate (a b : vec3) :
  norm a = 0 \/ norm b = 0 ->
  np_half (np_degrees (np_arccos (np_div (dot a b) (norm a * norm b)))) = NaN.
Proof.
  intros Hz.
  assert (Hden : norm a * norm b = 0) by (destruct Hz as [-> | ->]; lra).
  assert (Hnum : dot a b = 0).
  { destruct Hz as [Hz|Hz].
    - apply (norm_zero_dot a b Hz).
    - apply (norm_zero_dot b a Hz). }
  unfold np_div. rewrite Hden, Hnum.
  destruct (decide (0 = 0)); [|lra]. reflexivity.
Qed.

(** A right angle with two equal legs: the hypotenuse is seen under 45
    degrees. *)
Lemma angle_right_isosceles (g t : vec3) :
  norm g <> 0 ->
  dot g (vsub t g) = 0 ->
  norm (vsub t g) = norm g ->
  angle_degrees g t = 45.
Proof.
  intros Hg Hperp Hlen.
  pose proof (norm_nonneg g) as Hg0.
  assert (Hd : 0 < norm g) by lra.
  pose proof (norm_sqr g) as Hgg.
  pose proof (norm_sqr (vsub t g)) as Huu. rewrite Hlen in Huu.
  assert (Hgt : dot g t = norm g * norm g).
  { rewrite Hgg. destruct g as [[x y] z], t as [[x' y'] z']. simpl in *. nra. }
  assert (Htt : dot t t = 2 * (norm g * norm g)).
  { rewrite Hgg. rewrite Hgg in Huu.
    destruct g as [[x y] z], t as [[x' y'] z']. simpl in *. nra. }
  assert (Hnt : norm t = sqrt 2 * norm g).
  { unfold norm at 1. rewrite Htt, sqrt_mult by nra.
    f_equal. apply sqrt_square. lra. }
  pose proof (sqrt_lt_R0 2 ltac:(lra)) as Hs2.
  unfold angle_degrees. rewrite Hgt, Hnt.
  replace (norm g * norm g / (norm g * (sqrt 2 * norm g))) with (/ sqrt 2)
    by (field; lra).
  rewrite acos_inv_sqrt2. pose proof PI_RGT_0. field. lra.
Qed.

End Vectors.

(** ** The WGS 84 transform on the equator *)

Module Wgs84.
Import Vectors.
Local Open Scope R_scope.

Lemma cos_taylor (t : R) :
  -2 <= t <= 2 -> 1 - t * t / 2 <= cos t <= 1 - t * t / 2 + t * t * t * t / 24.
Proof.
  intros [Hlo Hhi].
  pose proof (pre_cos_bound t 0 Hlo Hhi) as Hb.
  unfold cos_approx, cos_term in Hb. simpl in Hb. lra.
Qed.

Lemma sin_taylor (t : R) : 0 <= t <= 4 -> t - t * t * t / 6 <= sin t.
Proof.
  intros [Hlo Hhi].
  pose proof (pre_sin_bound t 0 Hlo Hhi) as Hb.
  unfold sin_approx, sin_term in Hb. simpl in Hb. lra.
Qed.

Lemma vec3_eq (a b c a' b' c' : R) :
  a = a' -> b = b' -> c = c' -> (a, b, c) = (a', b', c').
Proof. by intros -> -> ->. Qed.

Lemma wgs84_equator (lon height : R) :
  wgs84_transform lon 0 height =
  ((wgs84_a + height) * cos (lon * PI / 180),
   (wgs84_a + height) * sin (lon * PI / 180), 0).
Proof.
  unfold wgs84_transform.
  replace (0 * PI / 180) with 0 by lra.
  rewrite sin_0, cos_0.
  replace (1 - wgs84_e2 * (0 * 0)) with 1 by lra.
  rewrite sqrt_1. apply vec3_eq; lra.
Qed.

Lemma cos_PI4_minus (t : R) : cos (PI / 4 - t) = (cos t + sin t) / sqrt 2.
Proof.
  rewrite cos_minus, cos_PI4, sin_PI4.
  pose proof (sqrt_lt_R0 2 ltac:(lra)). field. lra.
Qed.

(** The cosine between a ground vector and a top vector whose dot
    products are, up to the factor [k], those of an observer on the
    equator at angle [t] from a target of height [t] radii, with
    [u = 1 - cos t]. *)
Lemma cosine_bounds (k t u : R) (g top : vec3) :
  0 < k -> 0 < t <= 1 / 1000 ->
  t * t / 2 - t * t * t * t / 24 <= u <= t * t / 2 ->
  dot g g = k * (2 * u) ->
  dot g top = k * (u * (2 + t)) ->
  dot top top = k * (2 * u * (1 + t) + t * t) ->
  let x := dot g top / (norm g * norm top) in
  norm g <> 0 /\ norm top <> 0 /\ 0 < x /\ 1 / 2 <= x * x <= 1 / 2 + t / 4.
Proof.
  intros Hk [Ht0 Ht1] [Hu0 Hu1] Hgg Hgt Htt x.
  assert (Hq0 : 0 < t * t) by nra.
  assert (Hq1 : t * t <= 1 / 1000000) by nra.
  assert (Hq2 : t * t * t * t <= t * t / 1000000).
  { replace (t * t * t * t) with ((t * t) * (t * t)) by ring. nra. }
  assert (Hu : 0 < u) by lra.
  assert (HG : 0 < dot g g) by (rewrite Hgg; nra).
  assert (HT : 0 < dot top top) by (rewrite Htt; nra).
  assert (HD : 0 < dot g top) by (rewrite Hgt; nra).
  assert (Hng : 0 < norm g) by (apply sqrt_lt_R0; exact HG).
  assert (Hnt : 0 < norm top) by (apply sqrt_lt_R0; exact HT).
  split; [lra|]. split; [lra|].
  assert (Hn : 0 < norm g * norm top) by nra.
  assert (Hx : 0 < x) by (apply Rdiv_lt_0_compat; assumption).
  split; [exact Hx|].
  assert (Hxx : x * x * (dot g g * dot top top) = dot g top * dot g top).
  { rewrite <- (norm_sqr g), <- (norm_sqr top). unfold x. field. lra. }
  rewrite Hgg, Hgt, Htt in Hxx.
  assert (Hlow : u * (2 + 2 * t + t * t) >= t * t) by nra.
  assert (Hprod : 0 < k * (2 * u) * (k * (2 * u * (1 + t) + t * t))) by nra.
  assert (Hkku : 0 < k * k * u) by (apply Rmult_lt_0_compat; nra).
  split.
  - apply Rmult_le_reg_r with (k * (2 * u) * (k * (2 * u * (1 + t) + t * t)));
      [exact Hprod|].
    rewrite Hxx.
    assert (0 <= k * k * u * (u * (2 + 2 * t + t * t) - t * t))
      by (apply Rmult_le_pos; lra).
    lra.
  - apply Rmult_le_reg_r with (k * (2 * u) * (k * (2 * u * (1 + t) + t * t)));
      [exact Hprod|].
    rewrite Hxx.
    assert (0 <= k * k * u * (2 + t) * (t * t / 2 - u))
      by (apply Rmult_le_pos; [nra|lra]).
    lra.
Qed.

Lemma acos_near_PI4 (t x : R) :
  0 < t <= 1 / 1000 -> 0 < x -> 1 / 2 <= x * x <= 1 / 2 + t / 4 ->
  PI / 4 - t <= acos x <= PI / 4.
Proof.
  intros [Ht0 Ht1] Hx [Hlo Hhi].
  pose proof PI2_3_2 as Hpi3. pose proof PI_4 as Hpi4.
  pose proof (sqrt_lt_R0 2 ltac:(lra)) as Hr.
  pose proof (sqrt_sqrt 2 ltac:(lra)) as Hrr.
  set (r := sqrt 2) in *.
  assert (Hx1 : x <= 1) by nra.
  pose proof (cos_acos x ltac:(lra)) as Hcos.
  pose proof (acos_bound x) as [Ha0 Ha1].
  assert (Hxr : 1 <= x * r).
  { assert (0 < x * r) by nra.
    assert (1 <= (x * r) * (x * r)) by nra. nra. }
  split.
  - apply cos_decr_0; [exact Ha0|exact Ha1|lra|lra|].
    rewrite Hcos, cos_PI4_minus. fold r.
    pose proof (cos_taylor t ltac:(lra)) as [Hc _].
    pose proof (sin_taylor t ltac:(lra)) as Hs.
    assert (Hq0 : 0 < t * t) by nra.
    assert (Hq1 : t * t <= t / 1000) by nra.
    assert (Hq3 : t * t * t <= t / 1000000).
    { replace (t * t * t) with ((t * t) * t) by ring. nra. }
    assert (Hk : 1 + t / 4 <= cos t + sin t) by lra.
    assert (Hxr2 : x * r <= 1 + t / 4).
    { assert (Hsq : (x * r) * (x * r) <= (1 + t / 4) * (1 + t / 4)) by nra.
      assert (0 < x * r) by nra. nra. }
    apply Rmult_le_reg_r with r; [exact Hr|].
    unfold Rdiv. rewrite Rmult_assoc, Rinv_l by lra. lra.
  - apply cos_decr_0; [lra|lra|exact Ha0|exact Ha1|].
    rewrite Hcos, cos_PI4. fold r.
    apply Rmult_le_reg_r with r; [exact Hr|].
    unfold Rdiv. rewrite Rmult_assoc, Rinv_l by lra. lra.
Qed.

Lemma wgs84_equator_angle (t : R) :
  0 < t <= 1 / 1000 ->
  let cam_lon := t * 180 / PI in
  let h := wgs84_a * t in
  let origin := wgs84_transform cam_lon 0 0 in
  let g := vsub (wgs84_transform 0 0 0) origin in
  let top := vsub (wgs84_transform 0 0 h) origin in
  norm g <> 0 /\ norm top <> 0 /\
  45 - t * 180 / PI <= angle_degrees g top <= 45.
Proof.
  intros Ht cam_lon h origin g top.
  pose proof PI_RGT_0 as Hpi.
  assert (Hg : g = (wgs84_a - wgs84_a * cos t, 0 - wgs84_a * sin t, 0 - 0)).
  { unfold g, origin, cam_lon. rewrite !wgs84_equator.
    replace (0 * PI / 180) with 0 by lra.
    replace (t * 180 / PI * PI / 180) with t by (field; lra).
    rewrite sin_0, cos_0. simpl. apply vec3_eq; lra. }
  assert (Htop : top = (wgs84_a + h - wgs84_a * cos t, 0 - wgs84_a * sin t, 0 - 0)).
  { unfold top, origin, cam_lon. rewrite !wgs84_equator.
    replace (0 * PI / 180) with 0 by lra.
    replace (t * 180 / PI * PI / 180) with t by (field; lra).
    rewrite sin_0, cos_0. simpl. apply vec3_eq; lra. }
  pose proof (sin2_cos2 t) as Hsc. unfold Rsqr in Hsc.
  assert (Ha : 0 < wgs84_a) by (unfold wgs84_a; lra).
  pose proof (cos_taylor t ltac:(lra)) as [Hc0 Hc1].
  destruct (cosine_bounds (wgs84_a * wgs84_a) t (1 - cos t) g top)
    as (Hng & Hnt & Hx & Hxx); try lra.
  - nra.
  - rewrite Hg. simpl. nra.
  - rewrite Hg, Htop. unfold h. simpl. nra.
  - rewrite Htop. unfold h. simpl. nra.
  - split; [exact Hng|]. split; [exact Hnt|].
    destruct (acos_near_PI4 t _ Ht Hx Hxx) as [Hlo Hhi].
    unfold angle_degrees.
    set (theta := acos (dot g top / (norm g * norm top))) in *.
    assert (Hk : 0 < 180 / PI) by (apply Rdiv_lt_0_compat; lra).
    assert (Hlo' : (PI / 4 - t) * (180 / PI) <= theta * (180 / PI))
      by (apply Rmult_le_compat_r; lra).
    assert (Hhi' : theta * (180 / PI) <= PI / 4 * (180 / PI))
      by (apply Rmult_le_compat_r; lra).
    assert (E1 : (PI / 4 - t) * (180 / PI) = 45 - t * 180 / PI) by (field; lra).
    assert (E2 : PI / 4 * (180 / PI) = 45) by (field; lra).
    assert (E3 : theta * 180 / PI = theta * (180 / PI)) by (field; lra).
    rewrite E3. lra.
Qed.

End Wgs84.

(** ** The camera pitch solver *)

Module PitchSolver.
Import Utils Vectors.
Local Open Scope R_scope.

Section WithServices.
Context `{Pyproj} `{Requests} `{Format} `{Environ}.

Lemma height_given_Some (bh : option R) (h : R) :
  height_given bh = Some h <-> bh = Some h /\ h <> 0.
Proof.
  unfold height_given. destruct bh as [x|]; [|split; [discriminate|intros [? _]; discriminate]].
  destruct (decide (x = 0)) as [->|Hx].
  - split; [discriminate|]. intros [[= ->] Hne]. by destruct Hne.
  - split; [intros [= ->]; done|]. by intros [[= ->] _].
Qed.

Lemma height_given_None (bh : option R) :
  height_given bh = None <-> bh = None \/ bh = Some 0.
Proof.
  unfold height_given. destruct bh as [x|]; [|split; [by left|done]].
  destruct (decide (x = 0)) as [->|Hx].
  - split; [by right|done].
  - split; [discriminate|]. intros [?|[= ->]]; [discriminate|]. by destruct Hx.
Qed.

(** The camera lookup makes one request and nothing else. *)
Lemma camera_position_world (lon lat : R) (w : world) :
  snd (get_streetview_camera_position lon lat w) =
  record_call (CallGet (get_streetview_metadata_url lon lat)) w.
Proof.
  unfold get_streetview_camera_position, http_get, mbind, IO_bind, lift.
  destruct (requests_get _) as [res|e]; [|reflexivity].
  destruct (decide (status_code res = 200%Z)) as [_|_]; [|reflexivity].
  destruct (json res) as [m|e]; [|reflexivity].
  destruct (decide (meta_status m = Some "OK")) as [_|_]; [|reflexivity].
  destruct (meta_location m); reflexivity.
Qed.

(** Without a usable height nothing is called and [pitch] is kept. *)
Lemma streetview_pitch_no_height (lon lat : R) (bh : option R) (use_bh : bool)
    (pitch : npfloat) (w : world) :
  use_bh = false \/ height_given bh = None ->
  streetview_pitch lon lat bh use_bh pitch w = (Ok pitch, w).
Proof.
  intros [->|Hh]; unfold streetview_pitch; [reflexivity|].
  rewrite Hh. by destruct use_bh.
Qed.

(** With a height, the block runs the lookup after the transform of the
    target; what follows depends on the answer alone. *)
Lemma streetview_pitch_height (lon lat h : R) (bh : option R)
    (pitch : npfloat) (w : world) :
  height_given bh = Some h ->
  streetview_pitch lon lat bh true pitch w =
  let w1 := record_call (CallTransform lon lat 0) w in
  let w2 := record_call (CallGet (get_streetview_metadata_url lon lat)) w1 in
  match fst (get_streetview_camera_position lon lat w1) with
  | Ok None => (Ok pitch, w2)
  | Ok (Some (Some cam_lng, Some cam_lat)) =>
      let origin := transform cam_lng cam_lat 0 in
      let vec0 := vsub (transform lon lat 0) origin in
      let vec1 := vsub (transform lon lat h) origin in
      (Ok (np_half (np_degrees (np_arccos
             (np_div (dot vec0 vec1) (norm vec0 * norm vec1))))),
       record_call (CallTransform lon lat h)
         (record_call (CallTransform cam_lng cam_lat 0) w2))
  | Ok (Some _) => (Raise TypeError, w2)
  | Raise e => (Raise e, w2)
  end.
Proof.
  intros Hh. unfold streetview_pitch. rewrite Hh.
  unfold mbind at 1. unfold IO_bind at 1. unfold geocent_transform at 1.
  unfold mbind at 1. unfold IO_bind at 1.
  pose proof (camera_position_world lon lat
                (record_call (CallTransform lon lat 0) w)) as Hw.
  destruct (get_streetview_camera_position lon lat _) as [r w2].
  simpl in Hw. subst w2. simpl.
  destruct r as [[[[cam_lng|] [cam_lat|]]|]|e]; reflexivity.
Qed.

Lemma get_streetview_url_pitch (lon lat : R) (bh : option R) (use_bh : bool)
    (pitch p : npfloat) (w w' : world) :
  streetview_pitch lon lat bh use_bh pitch w = (Ok p, w') ->
  get_streetview_url lon lat bh use_bh pitch w =
  (Ok (Some (streetview_url_text lon lat p)), w').
Proof.
  intros Hp. unfold get_streetview_url, mbind, IO_bind. by rewrite Hp.
Qed.

(** C4.  Where the target height is absent or zero, or where the lookup
    finds no camera position, the pitch is the fixed pitch supplied by the
    caller and the URL carries it.  The height is checked first: where it
    is absent or zero nothing at all has been called.  Where the camera is
    missing, the only calls made are the transform of the target at ground
    level and the metadata request: the vectors were never built. *)
Theorem default_pitch_fallback (lon lat : R) (bh : option R) (use_bh : bool)
    (pitch : npfloat) (w : world) :
  let w1 := record_call (CallTransform lon lat 0) w in
  bh = None \/ bh = Some 0 \/
    fst (get_streetview_camera_position lon lat w1) = Ok None ->
  exists w',
    streetview_pitch lon lat bh use_bh pitch w = (Ok pitch, w')
    /\ get_streetview_url lon lat bh use_bh pitch w =
       (Ok (Some (streetview_url_text lon lat pitch)), w')
    /\ (bh = None \/ bh = Some 0 -> w' = w)
    /\ (calls w' = calls w \/
        calls w' = calls w ++ [CallTransform lon lat 0;
                               CallGet (get_streetview_metadata_url lon lat)]).
Proof.
  intros w1 Hmissing.
  assert (Hcases : (use_bh = false \/ height_given bh = None) \/
                   (use_bh = true /\ (exists h, height_given bh = Some h) /\
                    fst (get_streetview_camera_position lon lat w1) = Ok None)).
  { destruct use_bh; [|by left; left].
    destruct (height_given bh) as [h|] eqn:Hh; [|by left; right].
    right. split; [done|]. split; [by exists h|].
    destruct Hmissing as [Hb|[Hb|Hc]]; [| |exact Hc].
    - assert (height_given bh = None) by (apply height_given_None; by left).
      congruence.
    - assert (height_given bh = None) by (apply height_given_None; by right).
      congruence. }
  destruct Hcases as [Hno|(-> & [h Hh] & Hcam)].
  - exists w. pose proof (streetview_pitch_no_height lon lat bh use_bh pitch w Hno) as Hp.
    split; [exact Hp|]. split; [by apply get_streetview_url_pitch|].
    split; [done|by left].
  - pose proof (streetview_pitch_height lon lat h bh pitch w Hh) as Hp.
    simpl in Hp. fold w1 in Hp. rewrite Hcam in Hp.
    eexists. split; [exact Hp|]. split; [by apply get_streetview_url_pitch|].
    split.
    + intros Hb. apply height_given_None in Hb. congruence.
    + right. simpl. by rewrite <- app_assoc.
Qed.

(** C3.  On the height path (the flag is set, the height is not zero and
    the lookup finds a camera position) the pitch is half of the angle in
    degrees between the vector from the observer to the ground point and
    the vector from the observer to the rooftop, the angle being the
    inverse cosine of their normalized dot product.  With both vectors of
    non-zero length that angle is a real number, and the URL carries its
    half.  When moreover the observer is offset at a right angle to the
    rise of the target and as far from it as the target is high, the angle
    is 45 degrees and the pitch is 22.5. *)
Theorem height_pitch_half_angle (lon lat h cam_lng cam_lat : R)
    (pitch : npfloat) (w : world) :
  let w1 := record_call (CallTransform lon lat 0) w in
  let origin := transform cam_lng cam_lat 0 in
  let vec_ground := vsub (transform lon lat 0) origin in
  let vec_top := vsub (transform lon lat h) origin in
  let run := streetview_pitch lon lat (Some h) true pitch w in
  h <> 0 ->
  fst (get_streetview_camera_position lon lat w1) =
    Ok (Some (Some cam_lng, Some cam_lat)) ->
  fst run = Ok (np_half (np_angle_degrees vec_ground vec_top))
  /\ (norm vec_ground <> 0 ->
      norm vec_top <> 0 ->
      fst run = Ok (Fin (angle_degrees vec_ground vec_top / 2))
      /\ fst (get_streetview_url lon lat (Some h) true pitch w) =
         Ok (Some (streetview_url_text lon lat
                     (Fin (angle_degrees vec_ground vec_top / 2))))
      /\ (dot vec_ground (vsub vec_top vec_ground) = 0 ->
          norm (vsub vec_top vec_ground) = norm vec_ground ->
          fst run = Ok (Fin 22.5))).
Proof.
  intros w1 origin vec_ground vec_top run Hh Hcam.
  assert (Hgiven : height_given (Some h) = Some h)
    by (apply height_given_Some; done).
  pose proof (streetview_pitch_height lon lat h (Some h) pitch w Hgiven) as Hp.
  simpl in Hp. fold w1 in Hp. rewrite Hcam in Hp.
  fold origin vec_ground vec_top in Hp.
  fold (np_angle_degrees vec_ground vec_top) in Hp. fold run in Hp.
  split; [by rewrite Hp|].
  intros Hg Ht.
  unfold np_angle_degrees in Hp.
  rewrite (np_arccos_cosine vec_ground vec_top Hg Ht) in Hp.
  split; [by rewrite Hp|]. split.
  - by rewrite (get_streetview_url_pitch _ _ _ _ _ _ _ _ Hp).
  - intros Hperp Hlen. rewrite Hp. simpl. do 2 f_equal.
    rewrite (angle_right_isosceles vec_ground vec_top Hg Hperp Hlen). lra.
Qed.

(** C5, as the code has it.  If the vector from the observer to the
    ground point or the vector to the rooftop has zero length, no error is
    signalled: the normalization divides zero by zero, the pitch is NaN
    and the URL is returned with that pitch. *)
Theorem degenerate_vectors_give_nan (lon lat h cam_lng cam_lat : R)
    (pitch : npfloat) (w : world) :
  let w1 := record_call (CallTransform lon lat 0) w in
  let origin := transform cam_lng cam_lat 0 in
  let vec_ground := vsub (transform lon lat 0) origin in
  let vec_top := vsub (transform lon lat h) origin in
  h <> 0 ->
  fst (get_streetview_camera_position lon lat w1) =
    Ok (Some (Some cam_lng, Some cam_lat)) ->
  norm vec_ground = 0 \/ norm vec_top = 0 ->
  fst (streetview_pitch lon lat (Some h) true pitch w) = Ok NaN
  /\ fst (get_streetview_url lon lat (Some h) true pitch w) =
     Ok (Some (streetview_url_text lon lat NaN)).
Proof.
  intros w1 origin vec_ground vec_top Hh Hcam Hz.
  assert (Hgiven : height_given (Some h) = Some h)
    by (apply height_given_Some; done).
  pose proof (streetview_pitch_height lon lat h (Some h) pitch w Hgiven) as Hp.
  simpl in Hp. fold w1 in Hp. rewrite Hcam in Hp.
  fold origin vec_ground vec_top in Hp.
  rewrite (np_arccos_degenerate vec_ground vec_top Hz) in Hp.
  split; [by rewrite Hp|].
  by rewrite (get_streetview_url_pitch _ _ _ _ _ _ _ _ Hp).
Qed.

End WithServices.

(** *** The statements on concrete inputs *)

Section Examples.
#[local] Existing Instances wgs84 Fixtures.plain_format Fixtures.no_key.

Lemma norm_unit_x : norm (vsub (0, 0, 0) (1, 0, 0)) = 1.
Proof.
  unfold norm. simpl.
  replace ((0 - 1) * (0 - 1) + (0 - 0) * (0 - 0) + (0 - 0) * (0 - 0)) with 1
    by lra.
  apply sqrt_1.
Qed.

Lemma norm_unit_z : norm (vsub (vsub (0, 0, 1) (1, 0, 0)) (vsub (0, 0, 0) (1, 0, 0))) = 1.
Proof.
  unfold norm. simpl.
  replace ((0 - 1 - (0 - 1)) * (0 - 1 - (0 - 1)) +
           (0 - 0 - (0 - 0)) * (0 - 0 - (0 - 0)) +
           (1 - 0 - (0 - 0)) * (1 - 0 - (0 - 0))) with 1 by lra.
  apply sqrt_1.
Qed.

Lemma norm_diagonal_nonzero : norm (vsub (0, 0, 1) (1, 0, 0)) <> 0.
Proof.
  unfold norm. simpl.
  replace ((0 - 1) * (0 - 1) + (0 - 0) * (0 - 0) + (1 - 0) * (1 - 0)) with 2
    by lra.
  pose proof (sqrt_lt_R0 2). lra.
Qed.

(** Two checks with literal coordinates.  In a local frame, the camera
    one unit east of the target and the target one unit high: the pitch
    is 22.5.  On the WGS 84 ellipsoid, the target on the equator, 100 m
    high, and the camera on the equator at the longitude that the
    equirectangular approximation places 100 m away: the pitch is 22.5
    within a hundredth of a degree. *)
Lemma height_pitch_half_angle_witness :
  ((1 : R) <> 0
   /\ fst (streetview_pitch (H:=Fixtures.local_frame)
             (H0:=Fixtures.service 1 0 []) 0 0 (Some 1) true (Fin 30)
             Fixtures.empty_world) = Ok (Fin 22.5))
  /\ ((100 : R) <> 0
      /\ exists p,
           fst (streetview_pitch (H:=wgs84)
                  (H0:=Fixtures.service (100 / 6378137 * 180 / PI) 0 [])
                  0 0 (Some 100) true (Fin 30) Fixtures.empty_world) =
           Ok (Fin p)
           /\ 22.49 <= p <= 22.5).
Proof.
  split.
  - assert (H1 : (1 : R) <> 0) by lra.
    assert (Hg : norm (vsub (transform (Pyproj:=Fixtures.local_frame) 0 0 0)
                         (transform (Pyproj:=Fixtures.local_frame) 1 0 0)) <> 0).
    { simpl transform. rewrite norm_unit_x. lra. }
    split; [exact H1|].
    refine (proj2 (proj2 (proj2 (height_pitch_half_angle
                                   (H:=Fixtures.local_frame)
                                   (H0:=Fixtures.service 1 0 [])
                                   0 0 1 1 0 (Fin 30) Fixtures.empty_world
                                   H1 eq_refl)
                            Hg norm_diagonal_nonzero)) _ _).
    + simpl. lra.
    + simpl transform. rewrite norm_unit_x. apply norm_unit_z.
  - assert (H100 : (100 : R) <> 0) by lra.
    split; [exact H100|].
    assert (Ht : 0 < 100 / 6378137 <= 1 / 1000) by lra.
    destruct (Wgs84.wgs84_equator_angle (100 / 6378137) Ht)
      as (Hg & Htop & Hlo & Hhi).
    replace (wgs84_a * (100 / 6378137)) with 100 in Htop, Hlo, Hhi
      by (unfold wgs84_a; lra).
    eexists. split.
    + exact (proj1 (proj2 (height_pitch_half_angle (H:=wgs84)
                             (H0:=Fixtures.service
                                    (100 / 6378137 * 180 / PI) 0 [])
                             0 0 100 (100 / 6378137 * 180 / PI) 0 (Fin 30)
                             Fixtures.empty_world H100 eq_refl)
                      Hg Htop)).
    + pose proof PI2_3_2 as Hpi.
      assert (Hsmall : 100 / 6378137 * 180 / PI <= 1 / 100).
      { apply Rmult_le_reg_r with PI; [lra|].
        replace (100 / 6378137 * 180 / PI * PI) with (100 / 6378137 * 180)
          by (field; lra).
        lra. }
      change (transform 0 0 0) with (wgs84_transform 0 0 0).
      change (transform 0 0 100) with (wgs84_transform 0 0 100).
      change (transform (100 / 6378137 * 180 / PI) 0 0)
        with (wgs84_transform (100 / 6378137 * 180 / PI) 0 0).
      lra.
Defined.

(** No imagery near the target: the lookup answers without a camera. *)
Lemma default_pitch_fallback_witness :
  let H := Fixtures.no_imagery in
  let lon := -0.1276 in
  let lat := 51.5072 in
  let w1 := record_call (CallTransform lon lat 0) Fixtures.empty_world in
  fst (get_streetview_camera_position lon lat w1) = Ok None
  /\ fst (get_streetview_url lon lat (Some 10) true (Fin 30)
            Fixtures.empty_world) =
     Ok (Some (streetview_url_text lon lat (Fin 30))).
Proof.
  intros H lon lat w1.
  assert (Hcam : fst (get_streetview_camera_position lon lat w1) = Ok None)
    by reflexivity.
  split; [exact Hcam|].
  destruct (default_pitch_fallback lon lat (Some 10) true (Fin 30)
              Fixtures.empty_world (or_intror (or_intror Hcam)))
    as (w' & _ & Hurl & _).
  by rewrite Hurl.
Defined.

(** The camera reported at the very place of the target. *)
Lemma degenerate_vectors_give_nan_witness :
  let lon := -0.1276 in
  let lat := 51.5072 in
  let H := Fixtures.service lon lat [] in
  (10 : R) <> 0
  /\ norm (vsub (transform lon lat 0) (transform lon lat 0)) = 0
  /\ fst (streetview_pitch lon lat (Some 10) true (Fin 30)
            Fixtures.empty_world) = Ok NaN.
Proof.
  intros lon lat H.
  assert (H10 : (10 : R) <> 0) by lra.
  split; [exact H10|]. split; [apply norm_vsub_self|].
  exact (proj1 (degenerate_vectors_give_nan lon lat 10 lon lat (Fin 30)
                  Fixtures.empty_world H10 eq_refl
                  (or_introl (norm_vsub_self (transform lon lat 0))))).
Defined.

(** At that place the call does not raise: it returns a NaN pitch, and the
    URL with it. *)
Lemma coincident_observer_no_error :
  let lon := -0.1276 in
  let lat := 51.5072 in
  let H := Fixtures.service lon lat [] in
  let run := streetview_pitch lon lat (Some 10) true (Fin 30)
               Fixtures.empty_world in
  norm (vsub (transform lon lat 0) (transform lon lat 0)) = 0
  /\ fst run = Ok NaN
  /\ (forall e, fst run <> Raise e)
  /\ fst (get_streetview_url lon lat (Some 10) true (Fin 30)
            Fixtures.empty_world) =
     Ok (Some (streetview_url_text lon lat NaN)).
Proof.
  intros lon lat H run.
  assert (Hgiven : height_given (Some 10) = Some 10)
    by (apply height_given_Some; split; [done|lra]).
  pose proof (streetview_pitch_height lon lat 10 (Some 10) (Fin 30)
                Fixtures.empty_world Hgiven) as Hrun.
  cbv zeta in Hrun.
  assert (Hcam : fst (get_streetview_camera_position lon lat
                        (record_call (CallTransform lon lat 0)
                           Fixtures.empty_world)) =
                 Ok (Some (Some lon, Some lat))) by reflexivity.
  rewrite Hcam in Hrun. cbv beta iota in Hrun.
  rewrite np_arccos_degenerate in Hrun
    by (left; apply norm_vsub_self).
  fold run in Hrun.
  split; [apply norm_vsub_self|].
  split; [by rewrite Hrun|].
  split; [intros e; rewrite Hrun; discriminate|].
  by rewrite (get_streetview_url_pitch _ _ _ _ _ _ _ _ Hrun).
Qed.

End Examples.

End PitchSolver.

(** ** Downloading a Street View image *)

Module Download.
Import Utils PitchSolver.
Local Open Scope R_scope.

Section WithServices.
Context `{Pyproj} `{Requests} `{Format} `{Environ} `{Os}.

Lemma streetview_url_text_nonempty (lon lat : R) (pitch : npfloat) :
  streetview_url_text lon lat pitch <> "".
Proof. unfold streetview_url_text. simpl. discriminate. Qed.

Lemma py_not_url_text (lon lat : R) (pitch : npfloat) :
  py_not (Some (streetview_url_text lon lat pitch)) = false.
Proof.
  unfold py_not. apply bool_decide_eq_false, streetview_url_text_nonempty.
Qed.

(** The pitch block only makes calls: the disk is not touched. *)
Lemma streetview_pitch_disk (lon lat : R) (bh : option R) (use_bh : bool)
    (pitch : npfloat) (w : world) :
  let w' := snd (streetview_pitch lon lat bh use_bh pitch w) in
  files w' = files w /\ dirs w' = dirs w.
Proof.
  destruct use_bh; [|by rewrite streetview_pitch_no_height; [|left]].
  destruct (height_given bh) as [h|] eqn:Hh;
    [|by rewrite streetview_pitch_no_height; [|right]].
  rewrite (streetview_pitch_height lon lat h bh pitch w Hh). simpl.
  destruct (fst (get_streetview_camera_position _ _ _))
    as [[[[cam_lng|] [cam_lat|]]|]|e]; by split.
Qed.

(** The builder returns the text around the pitch, or raises when the
    pitch block raises. *)
Lemma get_streetview_url_run (lon lat : R) (bh : option R) (use_bh : bool)
    (pitch : npfloat) (w : world) :
  get_streetview_url lon lat bh use_bh pitch w =
  match streetview_pitch lon lat bh use_bh pitch w with
  | (Ok p, w') => (Ok (Some (streetview_url_text lon lat p)), w')
  | (Raise e, w') => (Raise e, w')
  end.
Proof.
  unfold get_streetview_url, mbind, IO_bind.
  by destruct (streetview_pitch lon lat bh use_bh pitch w) as [[p|e] w'].
Qed.

(** How the [try] block and its handler end: never through the first
    [return], and with the files as they were unless the image is saved. *)
Lemma try_fetch_and_save (url output_path : string) (w : world) :
  let run := try_io (fetch_and_save url output_path) on_download_error w in
  (fst run = Ok ReturnBlank \/ fst run = Ok ReturnSaved \/ fst run = Ok ReturnError)
  /\ (fst run <> Ok ReturnSaved -> files (snd run) = files w)
  /\ (forall resp, requests_get url = Ok resp ->
      (Z.of_nat (length (content resp)) < 5000)%Z ->
      (fst run = Ok ReturnBlank \/ fst run = Ok ReturnError)
      /\ (is_ok (makedirs (dirname output_path) (dirs w)) = true ->
          ~ (400 <= status_code resp < 600)%Z -> fst run = Ok ReturnBlank)).
Proof.
  unfold try_io, fetch_and_save, on_download_error, mbind, IO_bind,
    os_makedirs, http_get, raise_for_status, write_file, print, lift, mret,
    IO_ret.
  destruct (makedirs (dirname output_path) (dirs w)) as [ds|e1]; simpl.
  2:{ split; [auto|]. split; [auto|]. intros resp _ _. split; [auto|done]. }
  destruct (requests_get url) as [r|e2]; simpl.
  2:{ split; [auto|]. split; [auto|]. intros resp [=]. }
  destruct (decide (400 <= status_code r < 600)%Z) as [Hbad|Hgood]; simpl.
  { split; [auto|]. split; [auto|]. intros resp [= <-] _. split; [auto|done]. }
  destruct (decide (Z.of_nat (length (content r)) < 5000)%Z)
    as [Hsmall|Hlarge]; simpl.
  { split; [auto|]. split; [auto|]. intros resp [= <-] _. split; auto. }
  destruct (decide (output_path ∈ ds)) as [Hdir|Hfile]; simpl.
  { split; [auto|]. split; [auto|]. intros resp [= <-] Hlt. lia. }
  split; [auto|]. split; [done|]. intros resp [= <-] Hlt. lia.
Qed.

(** A body of 5000 bytes or more is written to [output_path] when the
    directory can be made, the status is not an error and the path is not
    a directory. *)
Lemma large_response_saved (url output_path : string) (w : world)
    (resp : response) (ds : gset string) :
  makedirs (dirname output_path) (dirs w) = Ok ds ->
  requests_get url = Ok resp ->
  ~ (400 <= status_code resp < 600)%Z ->
  (5000 <= Z.of_nat (length (content resp)))%Z ->
  output_path ∉ ds ->
  let run := try_io (fetch_and_save url output_path) on_download_error w in
  fst run = Ok ReturnSaved
  /\ files (snd run) = <[output_path := content resp]> (files w).
Proof.
  intros Hdirs Hget Hstatus Hlarge Hfile.
  unfold try_io, fetch_and_save, mbind, IO_bind, os_makedirs, http_get,
    raise_for_status, write_file, lift, mret, IO_ret.
  rewrite Hdirs. simpl. rewrite Hget. simpl.
  destruct (decide (400 <= status_code resp < 600)%Z) as [Hbad|_]; [done|].
  simpl.
  destruct (decide (Z.of_nat (length (content resp)) < 5000)%Z) as [Hlt|_];
    [lia|].
  simpl. destruct (decide (output_path ∈ ds)) as [Hin|_]; [done|].
  by split.
Qed.

(** The download, step by step: the pitch block, then the [try] block on
    the URL text. *)
Lemma download_exit_run (lon lat : R) (output_path : string)
    (bh : option R) (use_bh : bool) (pitch : npfloat) (w : world) :
  download_streetview_image_exit lon lat output_path bh use_bh pitch w =
  match streetview_pitch lon lat bh use_bh pitch w with
  | (Ok p, w') =>
      try_io (fetch_and_save (streetview_url_text lon lat p) output_path)
        on_download_error w'
  | (Raise e, w') => (Raise e, w')
  end.
Proof.
  unfold download_streetview_image_exit.
  unfold mbind at 1. unfold IO_bind at 1.
  rewrite get_streetview_url_run.
  destruct (streetview_pitch lon lat bh use_bh pitch w) as [[p|e] w'];
    [|reflexivity].
  by rewrite py_not_url_text.
Qed.

Lemma download_run (lon lat : R) (output_path : string)
    (bh : option R) (use_bh : bool) (pitch : npfloat) (w : world) :
  download_streetview_image lon lat output_path bh use_bh pitch w =
  match download_streetview_image_exit lon lat output_path bh use_bh pitch w with
  | (Ok x, w') => (Ok (returned x), w')
  | (Raise e, w') => (Raise e, w')
  end.
Proof.
  unfold download_streetview_image, mbind, IO_bind.
  by destruct (download_streetview_image_exit _ _ _ _ _ _ _) as [[x|e] w'].
Qed.

(** C10.  The URL builder never returns [None]: whenever it returns, it
    returns a string, and the string is not empty.  It fails to return
    only when the pitch block raises, which can happen on the height path
    alone.  So the download never leaves through
    [if not url: return False]. *)
Theorem streetview_url_never_none (lon lat : R) (output_path : string)
    (bh : option R) (use_bh : bool) (pitch : npfloat) (w : world) :
  match fst (get_streetview_url lon lat bh use_bh pitch w) with
  | Ok url => (exists s, url = Some s /\ s <> "") /\ py_not url = false
  | Raise e => fst (streetview_pitch lon lat bh use_bh pitch w) = Raise e
               /\ use_bh = true /\ bh <> None /\ bh <> Some 0
  end
  /\ fst (download_streetview_image_exit lon lat output_path bh use_bh pitch w)
     <> Ok ReturnNoUrl.
Proof.
  split.
  - rewrite get_streetview_url_run.
    destruct (streetview_pitch lon lat bh use_bh pitch w) as [[p|e] w'] eqn:Hp;
      simpl.
    + pose proof (streetview_url_text_nonempty lon lat p) as Hne.
      split; [by eexists|]. exact (py_not_url_text lon lat p).
    + split; [done|].
      destruct use_bh;
        [|rewrite streetview_pitch_no_height in Hp by (by left); discriminate].
      split; [done|].
      destruct (height_given bh) as [h|] eqn:Hh.
      * apply height_given_Some in Hh as [-> Hne]. split; [done|].
        intros [= ->]. by apply Hne.
      * rewrite streetview_pitch_no_height in Hp by (by right). discriminate.
  - rewrite download_exit_run.
    destruct (streetview_pitch lon lat bh use_bh pitch w) as [[p|e] w'];
      [|simpl; discriminate].
    destruct (try_fetch_and_save (streetview_url_text lon lat p)
                output_path w') as [Hexit _].
    cbv zeta in Hexit. intros Hno.
    destruct Hexit as [Hx|[Hx|Hx]]; rewrite Hx in Hno; discriminate.
Qed.

(** C9.  When the body of the image response is shorter than 5000 bytes,
    the download returns [False] and leaves the files on disk as they
    were.  It leaves through the return for a blank image, or through the
    exception handler when creating the directory or the status check
    failed first. *)
Theorem blank_response_not_saved (lon lat : R) (output_path url : string)
    (bh : option R) (use_bh : bool) (pitch : npfloat) (w : world)
    (resp : response) :
  fst (get_streetview_url lon lat bh use_bh pitch w) = Ok (Some url) ->
  requests_get url = Ok resp ->
  (Z.of_nat (length (content resp)) < 5000)%Z ->
  let run := download_streetview_image lon lat output_path bh use_bh pitch w in
  let exit := fst (download_streetview_image_exit lon lat output_path bh
                     use_bh pitch w) in
  fst run = Ok false
  /\ files (snd run) = files w
  /\ (exit = Ok ReturnBlank \/ exit = Ok ReturnError).
Proof.
  intros Hurl Hget Hsmall. cbv zeta.
  rewrite download_run, download_exit_run.
  rewrite get_streetview_url_run in Hurl.
  pose proof (streetview_pitch_disk lon lat bh use_bh pitch w) as [Hfiles _].
  destruct (streetview_pitch lon lat bh use_bh pitch w) as [[p|e] w'];
    [|discriminate].
  simpl in Hurl, Hfiles. injection Hurl as <-.
  destruct (try_fetch_and_save (streetview_url_text lon lat p)
              output_path w') as (_ & Hkeep & Hblank).
  destruct (Hblank resp Hget Hsmall) as [Hexit _].
  cbv zeta in Hkeep, Hexit.
  destruct (try_io _ _ w') as [x w'']. simpl in Hkeep, Hexit |- *.
  destruct Hexit as [-> | ->]; simpl.
  - split; [done|]. split; [|by left]. rewrite Hkeep; done.
  - split; [done|]. split; [|by right]. rewrite Hkeep; done.
Qed.

End WithServices.

Section Examples.
#[local] Existing Instances wgs84 Fixtures.plain_format Fixtures.no_key
  Fixtures.any_directory.

(** An image service that answers with ten bytes. *)
Lemma blank_response_not_saved_witness :
  let body := replicate 10 Byte.x00 in
  let H := Fixtures.service 1 0 body in
  let run := download_streetview_image 0 0 "data/1.jpg" None false (Fin 30)
               Fixtures.empty_world in
  (Z.of_nat (length body) < 5000)%Z
  /\ fst run = Ok false
  /\ files (snd run) = files Fixtures.empty_world.
Proof.
  intros body H run.
  assert (Hsmall : (Z.of_nat (length body) < 5000)%Z) by (simpl; lia).
  split; [exact Hsmall|].
  pose (resp := mkResponse 200 body
                  (Ok (mkMetadata (Some "OK")
                         (Some (mkLocation (Some 1) (Some 0)))))).
  assert (Hurl : fst (get_streetview_url 0 0 None false (Fin 30)
                        Fixtures.empty_world) =
                 Ok (Some (streetview_url_text 0 0 (Fin 30)))) by reflexivity.
  assert (Hget : requests_get (streetview_url_text 0 0 (Fin 30)) = Ok resp)
    by reflexivity.
  destruct (blank_response_not_saved 0 0 "data/1.jpg" _ None false (Fin 30)
              Fixtures.empty_world resp Hurl Hget Hsmall)
    as (Hfalse & Hfiles & _).
  split; [exact Hfalse|exact Hfiles].
Defined.

End Examples.

End Download.

(** ** One building per street *)

Module FilterFacts.
Import ProcessOsmData FilterBuildings.


Lemma initial_stats_ok (bs : list building) : stats_ok (initial_stats bs).
Proof. unfold stats_ok, initial_stats. repeat split; by simplify_map_eq. Qed.

Lemma dict_incr_present (key : string) (s : gmap string Z) :
  is_Some (s !! key) ->
  dict_incr key s = Ok (<[key := (stat key s + 1)%Z]> s).
Proof. intros [v Hv]. unfold dict_incr, dict_get, stat. by rewrite Hv. Qed.

Lemma dict_incr_absent (key : string) (s : gmap string Z) :
  s !! key = None -> dict_incr key s = Raise KeyError.
Proof. intros Hv. unfold dict_incr, dict_get. by rewrite Hv. Qed.

Lemma stats_ok_insert (key : string) (v : Z) (s : gmap string Z) :
  key <> "no_tags" -> stats_ok s -> stats_ok (<[key := v]> s).
Proof.
  intros Hk (H1 & H2 & H3 & H4 & H5). unfold stats_ok.
  rewrite !lookup_insert_is_Some. rewrite lookup_insert_ne by done.
  repeat split; try done;
    match goal with |- ?k = ?k' \/ _ => destruct (decide (k = k')); [by left|by right] end.
Qed.

Lemma stat_insert (key key' : string) (v : Z) (s : gmap string Z) :
  stat key' (<[key := v]> s) = if decide (key = key') then v else stat key' s.
Proof. unfold stat. rewrite lookup_insert. by destruct (decide (key = key')). Qed.


Lemma filter_step_tagged (E : option (gset string)) (st : filter_state)
    (b : building) :
  stats_ok (stats st) -> is_Some (tags b) ->
  exists st', filter_step E st b = Ok st' /\ step_case E st b st'.
Proof.
  intros (H1 & H2 & H3 & H4 & H5) [t Ht]. unfold filter_step. rewrite Ht.
  assert (Htype : building_type_of b = default "" (t !! "building"))
    by (unfold building_type_of; by rewrite Ht).
  assert (Hstreet : building_street b = street_of t)
    by (unfold building_street; by rewrite Ht).
  rewrite <- Htype.
  destruct (excluded E (building_type_of b)) eqn:Hex.
  - rewrite dict_incr_present by done. eexists. split; [reflexivity|].
    by eapply step_excluded.
  - assert (Hel : eligible E b) by (split; [by rewrite Ht|done]).
    rewrite <- Hstreet. destruct (building_street b) as [street|] eqn:Hs.
    + destruct (decide (street ∈ seen_streets st)) as [Hin|Hout].
      * rewrite dict_incr_present by done. eexists. split; [reflexivity|].
        by eapply step_duplicate.
      * eexists. split; [reflexivity|]. by eapply step_new_street.
    + rewrite dict_incr_present by done. eexists. split; [reflexivity|].
      by eapply step_no_street.
Qed.

Lemma filter_step_untagged (E : option (gset string)) (st : filter_state)
    (b : building) :
  stats_ok (stats st) -> tags b = None -> filter_step E st b = Raise KeyError.
Proof.
  intros (_ & _ & _ & _ & H5) Ht. unfold filter_step. rewrite Ht.
  by rewrite dict_incr_absent.
Qed.

Lemma step_case_stats_ok (E : option (gset string)) (st st' : filter_state)
    (b : building) :
  stats_ok (stats st) -> step_case E st b st' -> stats_ok (stats st').
Proof. intros Hok Hc. destruct Hc; simpl; try by apply stats_ok_insert. done. Qed.

(** The main loop raises exactly on a building without tags. *)
Lemma filter_loop_outcome (E : option (gset string)) (bs : list building)
    (st : filter_state) :
  stats_ok (stats st) ->
  (Forall (fun b => is_Some (tags b)) bs /\
   exists st', filter_loop E bs st = Ok st' /\ stats_ok (stats st'))
  \/ (Exists (fun b => tags b = None) bs /\ filter_loop E bs st = Raise KeyError).
Proof.
  revert st. induction bs as [|b bs IH]; intros st Hok.
  - left. split; [constructor|]. by exists st.
  - destruct (tags b) as [t|] eqn:Ht.
    + destruct (filter_step_tagged E st b Hok) as (st1 & Hstep & Hcase);
        [by rewrite Ht|].
      pose proof (step_case_stats_ok _ _ _ _ Hok Hcase) as Hok1.
      simpl. rewrite Hstep. simpl.
      destruct (IH st1 Hok1) as [[Hall Hrun]|[Hex Hrun]].
      * left. split; [constructor; [by rewrite Ht|done]|done].
      * right. split; [by apply Exists_cons_tl|done].
    + right. split; [by apply Exists_cons_hd|].
      simpl. by rewrite (filter_step_untagged E st b Hok Ht).
Qed.



Lemma filter_loop_steps (E : option (gset string)) (bs : list building)
    (st st' : filter_state) :
  stats_ok (stats st) -> filter_loop E bs st = Ok st' -> steps E st bs st'.
Proof.
  revert st. induction bs as [|b bs IH]; intros st Hok Hrun.
  - simpl in Hrun. injection Hrun as <-. constructor.
  - destruct (tags b) as [t|] eqn:Ht.
    + destruct (filter_step_tagged E st b Hok) as (st1 & Hstep & Hcase);
        [by rewrite Ht|].
      simpl in Hrun. rewrite Hstep in Hrun. simpl in Hrun.
      econstructor; [exact Hcase|].
      apply IH; [|exact Hrun]. by eapply step_case_stats_ok.
    + simpl in Hrun. rewrite (filter_step_untagged E st b Hok Ht) in Hrun.
      discriminate.
Qed.

Lemma steps_loop (E : option (gset string)) (bs : list building)
    (st st' : filter_state) :
  stats_ok (stats st) -> steps E st bs st' -> filter_loop E bs st = Ok st'.
Proof.
  intros Hok Hsteps. induction Hsteps as [st|st b st1 bs st' Hcase Hsteps IH];
    [reflexivity|].
  assert (Htag : is_Some (tags b)).
  { destruct Hcase as [t Ht _| [Ht _] _ | s [Ht _] _ _ | s [Ht _] _ _];
      [by rewrite Ht|done..]. }
  destruct (filter_step_tagged E st b Hok Htag) as (st2 & Hstep & Hcase2).
  assert (st2 = st1) as ->.
  { destruct Hcase as [t Ht Hex| [_ Hex] Hs | s [_ Hex] Hs Hin | s [_ Hex] Hs Hin];
      destruct Hcase2 as [t2 Ht2 Hex2| [_ Hex2] Hs2 | s2 [_ Hex2] Hs2 Hin2
                         | s2 [_ Hex2] Hs2 Hin2];
      try congruence; simplify_eq; done. }
  simpl. rewrite Hstep. simpl. apply IH. by eapply step_case_stats_ok.
Qed.

(** What the loop has added to [filtered] and to [seen_streets]. *)
Lemma steps_filtered (E : option (gset string)) (bs : list building)
    (st st' : filter_state) :
  steps E st bs st' ->
  exists l,
    filtered st' = filtered st ++ l
    /\ l `sublist_of` bs
    /\ Forall (eligible E) l
    /\ seen_streets st' = list_to_set (omap building_street l) ∪ seen_streets st
    /\ NoDup (omap building_street l)
    /\ (forall s, s ∈ omap building_street l -> s ∉ seen_streets st).
Proof.
  intros Hsteps. induction Hsteps as [st|st b st1 bs st' Hcase Hsteps IH].
  - exists []. rewrite app_nil_r. repeat split; try done.
    + simpl. set_solver.
    + constructor.
    + intros s Hs. simpl in Hs. by apply not_elem_of_nil in Hs.
  - destruct IH as (l & Hf & Hsub & Hel & Hseen & Hnd & Hfresh).
    destruct Hcase as [t Ht Hex| Hb Hs | s Hb Hs Hin | s Hb Hs Hin]; simpl in *.
    + exists l. repeat split; try done. by apply sublist_cons.
    + exists (b :: l). rewrite Hf, <- app_assoc. simpl. rewrite Hs.
      repeat split; try done.
      * by apply sublist_skip.
      * by constructor.
    + exists l. repeat split; try done. by apply sublist_cons.
    + exists (b :: l). rewrite Hf, <- app_assoc. simpl. rewrite Hs. simpl.
      repeat split; try done.
      * by apply sublist_skip.
      * by constructor.
      * rewrite Hseen. set_solver.
      * constructor; [|done]. intros Hs'. apply Hfresh in Hs'. set_solver.
      * intros s' Hs'. apply elem_of_cons in Hs' as [->|Hs']; [done|].
        apply Hfresh in Hs'. set_solver.
Qed.


Lemma steps_seen_mono (E : option (gset string)) (bs : list building)
    (st st' : filter_state) :
  steps E st bs st' -> seen_streets st ⊆ seen_streets st'.
Proof.
  intros Hsteps. destruct (steps_filtered _ _ _ _ Hsteps)
    as (l & _ & _ & _ & Hseen & _). rewrite Hseen. set_solver.
Qed.

(** Nothing eligible is lost: a building without street is kept, and the
    street of any other is seen; the first eligible building of a street
    not seen before is the one kept. *)
Lemma steps_complete (E : option (gset string)) (bs : list building)
    (st st' : filter_state) :
  steps E st bs st' ->
  forall l, filtered st' = filtered st ++ l ->
  forall b, b ∈ bs -> eligible E b ->
  match building_street b with
  | None => b ∈ l
  | Some s => s ∈ seen_streets st'
  end.
Proof.
  intros Hsteps. induction Hsteps as [st|st b0 st1 bs st' Hcase Hsteps IH];
    intros l Hl b Hb Hel.
  - by apply not_elem_of_nil in Hb.
  - destruct (steps_filtered _ _ _ _ Hsteps) as (l1 & Hl1 & _).
    pose proof (steps_seen_mono _ _ _ _ Hsteps) as Hmono.
    apply elem_of_cons in Hb as [->|Hb].
    + destruct Hcase as [t Ht Hex| Hb0 Hs | s Hb0 Hs Hin | s Hb0 Hs Hin];
        simpl in *.
      * destruct Hel as [_ Hel]. congruence.
      * rewrite Hs. rewrite Hl1, <- app_assoc in Hl.
        apply app_inv_head in Hl; subst l. set_solver.
      * rewrite Hs. set_solver.
      * rewrite Hs. set_solver.
    + specialize (IH l1 Hl1 b Hb Hel).
      destruct (building_street b) as [s|]; [done|].
      destruct Hcase as [t Ht Hex| Hb0 Hs | s Hb0 Hs Hin | s Hb0 Hs Hin];
        simpl in *.
      * rewrite Hl1 in Hl. apply app_inv_head in Hl; subst l. done.
      * rewrite Hl1, <- app_assoc in Hl. apply app_inv_head in Hl; subst l.
        set_solver.
      * rewrite Hl1 in Hl. apply app_inv_head in Hl; subst l. done.
      * rewrite Hl1, <- app_assoc in Hl. apply app_inv_head in Hl; subst l.
        set_solver.
Qed.

Lemma steps_first (E : option (gset string)) (bs1 bs2 : list building)
    (b : building) (s : string) (st st' : filter_state) :
  steps E st (bs1 ++ b :: bs2) st' ->
  eligible E b -> building_street b = Some s ->
  s ∉ seen_streets st ->
  Forall (fun b' => eligible E b' -> building_street b' <> Some s) bs1 ->
  forall l, filtered st' = filtered st ++ l -> b ∈ l.
Proof.
  revert st. induction bs1 as [|b1 bs1 IH]; intros st Hsteps Hel Hs Hout Hbefore l Hl.
  - simpl in Hsteps. inversion Hsteps as [|? ? st1 ? ? Hcase Hrest]; subst.
    destruct (steps_filtered _ _ _ _ Hrest) as (l1 & Hl1 & _).
    destruct Hcase as [t Ht Hex| Hb0 Hs0 | s0 Hb0 Hs0 Hin | s0 Hb0 Hs0 Hin];
      simpl in *.
    + destruct Hel as [_ Hel]. congruence.
    + congruence.
    + congruence.
    + rewrite Hl1, <- app_assoc in Hl. apply app_inv_head in Hl; subst l.
      set_solver.
  - simpl in Hsteps. inversion Hsteps as [|? ? st1 ? ? Hcase Hrest]; subst.
    apply Forall_cons in Hbefore as [Hb1 Hbefore].
    destruct (steps_filtered _ _ _ _ Hrest) as (l1 & Hl1 & _).
    assert (Hin1 : b ∈ l1).
    { apply (IH st1 Hrest Hel Hs); [|done|done].
      destruct Hcase as [t Ht Hex| Hb0 Hs0 | s0 Hb0 Hs0 Hin | s0 Hb0 Hs0 Hin];
        simpl; try done.
      intros Hin'. apply elem_of_union in Hin' as [Hin'|Hin']; [|done].
      apply elem_of_singleton in Hin' as ->. by apply (Hb1 Hb0). }
    destruct Hcase as [t Ht Hex| Hb0 Hs0 | s0 Hb0 Hs0 Hin | s0 Hb0 Hs0 Hin];
      simpl in *.
    + rewrite Hl1 in Hl. apply app_inv_head in Hl; by subst l.
    + rewrite Hl1, <- app_assoc in Hl. apply app_inv_head in Hl; subst l.
      set_solver.
    + rewrite Hl1 in Hl. apply app_inv_head in Hl; by subst l.
    + rewrite Hl1, <- app_assoc in Hl. apply app_inv_head in Hl; subst l.
      set_solver.
Qed.

Lemma omap_street_cons (b : building) (l : list building) :
  omap building_street (b :: l) =
  match building_street b with
  | Some s => s :: omap building_street l
  | None => omap building_street l
  end.
Proof. reflexivity. Qed.

(** The counters after the loop: every building was counted once. *)
Lemma steps_stats (E : option (gset string)) (bs : list building)
    (st st' : filter_state) :
  steps E st bs st' ->
  stats_ok (stats st) ->
  forall l, filtered st' = filtered st ++ l ->
  stat "total" (stats st') = stat "total" (stats st)
  /\ (Z.of_nat (length bs) =
      (stat "excluded_type" (stats st') - stat "excluded_type" (stats st))
      + (stat "no_street" (stats st') - stat "no_street" (stats st))
      + (stat "duplicate_street" (stats st') - stat "duplicate_street" (stats st))
      + Z.of_nat (length (omap building_street l)))%Z
  /\ (Z.of_nat (length l) =
      (stat "no_street" (stats st') - stat "no_street" (stats st))
      + Z.of_nat (length (omap building_street l)))%Z
  /\ (stat "excluded_type" (stats st') - stat "excluded_type" (stats st) =
      Z.of_nat (length (filter (fun b => excluded E (building_type_of b) = true) bs)))%Z.
Proof.
  intros Hsteps. induction Hsteps as [st|st b st1 bs st' Hcase Hsteps IH];
    intros Hok l Hl.
  - rewrite <- (app_nil_r (filtered st)) in Hl at 1.
    apply app_inv_head in Hl as <-. simpl. lia.
  - destruct (steps_filtered _ _ _ _ Hsteps) as (l1 & Hl1 & _).
    pose proof (step_case_stats_ok _ _ _ _ Hok Hcase) as Hok1.
    specialize (IH Hok1 l1 Hl1) as (Ht & Hn & Hlen & Hx).
    rewrite filter_cons.
    destruct Hcase as [t Htag Hex| Hb0 Hs | s Hb0 Hs Hin | s Hb0 Hs Hin];
      cbn [filtered stats seen_streets] in *.
    + rewrite Hl1 in Hl. apply app_inv_head in Hl; subst l.
      rewrite decide_True by done.
      rewrite !stat_insert in *. cbn [length].
      repeat (case_decide; [discriminate || idtac|]); try done; lia.
    + rewrite Hl1, <- app_assoc in Hl. apply app_inv_head in Hl; subst l.
      destruct Hb0 as [_ Hex]. rewrite decide_False by congruence.
      change ([b] ++ l1) with (b :: l1).
      rewrite omap_street_cons, Hs.
      rewrite !stat_insert in *. cbn [length].
      repeat (case_decide; [discriminate || idtac|]); try done; lia.
    + rewrite Hl1 in Hl. apply app_inv_head in Hl; subst l.
      destruct Hb0 as [_ Hex]. rewrite decide_False by congruence.
      rewrite !stat_insert in *. cbn [length].
      repeat (case_decide; [discriminate || idtac|]); try done; lia.
    + rewrite Hl1, <- app_assoc in Hl. apply app_inv_head in Hl; subst l.
      destruct Hb0 as [_ Hex]. rewrite decide_False by congruence.
      change ([b] ++ l1) with (b :: l1).
      rewrite omap_street_cons, Hs. cbn [length]. lia.
Qed.

(** A list that the filter would return is returned as it is. *)
Lemma steps_fixed (E : option (gset string)) (l : list building)
    (st : filter_state) :
  Forall (eligible E) l ->
  NoDup (omap building_street l) ->
  (forall s, s ∈ omap building_street l -> s ∉ seen_streets st) ->
  exists st', steps E st l st' /\ filtered st' = filtered st ++ l.
Proof.
  revert st. induction l as [|b l IH]; intros st Hel Hnd Hfresh.
  - exists st. split; [constructor|by rewrite app_nil_r].
  - apply Forall_cons in Hel as [Hb Hel].
    destruct (building_street b) as [s|] eqn:Hs.
    + simpl in Hnd, Hfresh. rewrite Hs in Hnd, Hfresh. simpl in Hnd, Hfresh.
      apply NoDup_cons in Hnd as [Hnot Hnd].
      assert (Hout : s ∉ seen_streets st) by (apply Hfresh; set_solver).
      destruct (IH (mkFilterState ({[s]} ∪ seen_streets st) (filtered st ++ [b])
                      (stats st)) Hel Hnd) as (st' & Hsteps & Hf).
      { intros s' Hs'. simpl. intros Hin.
        apply elem_of_union in Hin as [Hin|Hin].
        - apply elem_of_singleton in Hin as ->. done.
        - revert Hin. apply Hfresh. set_solver. }
      exists st'. split.
      * econstructor; [|exact Hsteps]. by apply step_new_street.
      * rewrite Hf. simpl. by rewrite <- app_assoc.
    + simpl in Hnd, Hfresh. rewrite Hs in Hnd, Hfresh.
      destruct (IH (mkFilterState (seen_streets st) (filtered st ++ [b])
                      (<["no_street" := (stat "no_street" (stats st) + 1)%Z]>
                         (stats st))) Hel Hnd Hfresh) as (st' & Hsteps & Hf).
      exists st'. split.
      * econstructor; [|exact Hsteps]. by apply step_no_street.
      * rewrite Hf. simpl. by rewrite <- app_assoc.
Qed.


Lemma types_after_tagged (l : list building) (counts : list (string * Z)) :
  Forall (fun b => is_Some (tags b)) l ->
  exists after, types_after l counts = Ok after.
Proof.
  revert counts. induction l as [|b l IH]; intros counts Hl.
  - by exists counts.
  - apply Forall_cons in Hl as [[t Ht] Hl]. simpl. rewrite Ht. simpl.
    apply IH, Hl.
Qed.

Lemma dict_get_stat (key : string) (s : gmap string Z) :
  is_Some (s !! key) -> dict_get key s = Ok (stat key s).
Proof. intros [v Hv]. unfold dict_get, stat. by rewrite Hv. Qed.

Lemma print_exclusion_stats_run (types : gset string) (st : filter_state)
    (out : list report_line) :
  stats_ok (stats st) -> types <> ∅ ->
  print_exclusion_stats types st out =
  (Ok tt, out ++ exclusion_lines (Some types) st).
Proof.
  intros (H1 & H2 & H3 & H4 & _) Hne.
  unfold print_exclusion_stats, exclusion_lines, mbind, Printing_bind,
    raising, print_line.
  rewrite !dict_get_stat by done. rewrite decide_False by done.
  by rewrite <- !app_assoc.
Qed.

(** A run over buildings that all have tags. *)
Lemma filter_run_tagged (bs : list building) (E : option (gset string))
    (out : list report_line) :
  Forall (fun b => is_Some (tags b)) bs ->
  exists st after,
    steps E (initial_state bs) bs st
    /\ stats_ok (stats st)
    /\ filter_buildings_by_street bs E out =
       (Ok (filtered st), out ++ report_of bs E st after).
Proof.
  intros Htagged.
  destruct (filter_loop_outcome E bs (initial_state bs) (initial_stats_ok bs))
    as [(_ & st & Hrun & Hok)|[Hex _]].
  2:{ apply Exists_exists in Hex as (b & Hb & Hnone).
      rewrite Forall_forall in Htagged. specialize (Htagged b Hb).
      rewrite Hnone in Htagged. by destruct Htagged. }
  pose proof (filter_loop_steps E bs (initial_state bs) st
                (initial_stats_ok bs) Hrun) as Hsteps.
  destruct (steps_filtered _ _ _ _ Hsteps) as (l & Hl & _ & Hel & _).
  simpl in Hl. subst l.
  destruct (types_after_tagged (filtered st) []) as [after Hafter].
  { eapply Forall_impl; [exact Hel|]. by intros b [Hb _]. }
  exists st, after. split; [exact Hsteps|]. split; [exact Hok|].
  unfold filter_buildings_by_street, mbind, Printing_bind, raising,
    print_line, print_lines, mret, Printing_ret.
  rewrite Hrun, Hafter.
  destruct Hok as (Htotal & Hrest).
  rewrite (dict_get_stat "total") by done.
  unfold report_of. destruct E as [types|].
  - destruct (decide (types = ∅)) as [->|Hne].
    + unfold exclusion_lines. rewrite decide_True by done.
      by rewrite <- !app_assoc.
    + fold (@mbind Printing _). 
      pose proof (print_exclusion_stats_run types st) as Hp.
      rewrite Hp by done. by rewrite <- !app_assoc.
  - unfold exclusion_lines. by rewrite <- !app_assoc.
Qed.

(** A run over buildings of which one has no tags. *)
Lemma filter_run_untagged (bs : list building) (E : option (gset string))
    (out : list report_line) :
  Exists (fun b => tags b = None) bs ->
  filter_buildings_by_street bs E out =
  (Raise KeyError,
   out ++ Heading "Building types before filtering:"
       :: type_lines (types_before bs [])).
Proof.
  intros Hex.
  destruct (filter_loop_outcome E bs (initial_state bs) (initial_stats_ok bs))
    as [(Hall & _)|[_ Hrun]].
  { apply Exists_exists in Hex as (b & Hb & Hnone).
    rewrite Forall_forall in Hall. specialize (Hall b Hb).
    rewrite Hnone in Hall. by destruct Hall. }
  unfold filter_buildings_by_street, mbind, Printing_bind, raising,
    print_line, print_lines.
  rewrite Hrun. by rewrite <- app_assoc.
Qed.

(** What a returned list is. *)
Lemma filter_returns (bs : list building) (E : option (gset string))
    (out : list report_line) (l : list building) :
  fst (filter_buildings_by_street bs E out) = Ok l ->
  exists st after,
    steps E (initial_state bs) bs st /\ stats_ok (stats st)
    /\ filtered st = l
    /\ snd (filter_buildings_by_street bs E out) = out ++ report_of bs E st after.
Proof.
  intros Hrun.
  destruct (decide (Forall (fun b => is_Some (tags b)) bs)) as [Hall|Hnot].
  - destruct (filter_run_tagged bs E out Hall) as (st & after & Hs & Hok & Hr).
    rewrite Hr in Hrun |- *. simpl in Hrun. injection Hrun as <-.
    by exists st, after.
  - apply not_Forall_Exists in Hnot; [|intros b; apply _].
    rewrite filter_run_untagged in Hrun; [discriminate|].
    eapply Exists_impl; [exact Hnot|].
    intros b Hb. simpl in Hb. destruct (tags b); [|done].
    destruct Hb. by eexists.
Qed.

Lemma initial_stat_total (bs : list building) :
  stat "total" (initial_stats bs) = Z.of_nat (length bs).
Proof. reflexivity. Qed.

Lemma initial_stat_zero (bs : list building) (key : string) :
  key <> "total" -> stat key (initial_stats bs) = 0%Z.
Proof.
  intros Hk. unfold stat, initial_stats.
  destruct (decide (key = "no_street")) as [->|?]; [reflexivity|].
  destruct (decide (key = "duplicate_street")) as [->|?]; [reflexivity|].
  destruct (decide (key = "excluded_type")) as [->|?]; [reflexivity|].
  by simplify_map_eq.
Qed.


(** X2.  A list that [filter_buildings_by_street] returns is a sublist of
    its input: the buildings kept are input buildings, unchanged and in
    input order.  Each has tags and none has an excluded type. *)
Theorem filter_returns_sublist (bs l : list building)
    (E : option (gset string)) (out : list report_line) :
  fst (filter_buildings_by_street bs E out) = Ok l ->
  l `sublist_of` bs
  /\ Forall (fun b => is_Some (tags b)
                     /\ excluded E (building_type_of b) = false) l.
Proof.
  intros Hrun.
  destruct (filter_returns bs E out l Hrun) as (st & after & Hs & _ & <- & _).
  destruct (steps_filtered _ _ _ _ Hs) as (l & Hl & Hsub & Hel & _).
  simpl in Hl. subst l. split; [exact Hsub|exact Hel].
Qed.

(** X3.  A returned list holds at most one building per street: the
    streets of the buildings that have one are pairwise different. *)
Theorem filter_one_per_street (bs l : list building)
    (E : option (gset string)) (out : list report_line) :
  fst (filter_buildings_by_street bs E out) = Ok l ->
  NoDup (omap building_street l).
Proof.
  intros Hrun.
  destruct (filter_returns bs E out l Hrun) as (st & after & Hs & _ & <- & _).
  destruct (steps_filtered _ _ _ _ Hs) as (l & Hl & _ & _ & _ & Hnd & _).
  simpl in Hl. by subst l.
Qed.

(** X4.  Nothing that qualifies is lost.  Of the buildings that have tags
    and no excluded type, each one without street is returned, each
    street is represented in the returned list, and the one returned for
    a street is the first such building of that street. *)
Theorem filter_keeps_first_of_street (bs l : list building)
    (E : option (gset string)) (out : list report_line) :
  fst (filter_buildings_by_street bs E out) = Ok l ->
  (forall b, b ∈ bs -> eligible E b ->
     match building_street b with
     | None => b ∈ l
     | Some s => s ∈ omap building_street l
     end)
  /\ (forall bs1 b bs2 s,
       bs = bs1 ++ b :: bs2 -> eligible E b -> building_street b = Some s ->
       Forall (fun b' => eligible E b' -> building_street b' <> Some s) bs1 ->
       b ∈ l).
Proof.
  intros Hrun.
  destruct (filter_returns bs E out l Hrun) as (st & after & Hs & _ & <- & _).
  destruct (steps_filtered _ _ _ _ Hs) as (l & Hl & _ & _ & Hseen & _).
  simpl in Hl. subst l. split.
  - intros b Hb Hel.
    pose proof (steps_complete _ _ _ _ Hs (filtered st) eq_refl b Hb Hel) as Hc.
    destruct (building_street b) as [s|]; [|exact Hc].
    rewrite Hseen in Hc. simpl in Hc. set_solver.
  - intros bs1 b bs2 s -> Hel Hstreet Hbefore.
    apply (steps_first E bs1 bs2 b s _ _ Hs Hel Hstreet); [|done|done].
    simpl. set_solver.
Qed.

(** X5.  Filtering is idempotent: a returned list, filtered again with
    the same exclusions, is returned as it is. *)
Theorem filter_idempotent (bs l : list building)
    (E : option (gset string)) (out out' : list report_line) :
  fst (filter_buildings_by_street bs E out) = Ok l ->
  fst (filter_buildings_by_street l E out') = Ok l.
Proof.
  intros Hrun.
  destruct (filter_returns bs E out l Hrun) as (st & after & Hs & _ & <- & _).
  destruct (steps_filtered _ _ _ _ Hs) as (l & Hl & _ & Hel & _ & Hnd & _).
  simpl in Hl. subst l.
  destruct (steps_fixed E (filtered st) (initial_state (filtered st)) Hel Hnd)
    as (st2 & Hs2 & Hf2).
  { intros s _. simpl. set_solver. }
  simpl in Hf2.
  pose proof (steps_loop E _ (initial_state (filtered st)) _
                (initial_stats_ok (filtered st)) Hs2) as Hloop2.
  destruct (filter_run_tagged (filtered st) E out') as (st3 & after3 & Hs3 & _ & Hr3).
  { eapply Forall_impl; [exact Hel|]. by intros b [Hb _]. }
  pose proof (steps_loop E _ (initial_state (filtered st)) _
                (initial_stats_ok (filtered st)) Hs3) as Hloop3.
  rewrite Hloop2 in Hloop3. injection Hloop3 as <-.
  rewrite Hr3. simpl. by rewrite Hf2.
Qed.

(** X6.  With exclusions given, the figures of the printed statistics are
    those of the run and add up: the total is the number of input
    buildings, the excluded are the buildings of an excluded type, and
    total = excluded + without street + duplicates + unique streets, where
    the unique streets printed are the streets of the returned list and
    the returned list has one building for each of them and one for each
    building counted without street. *)
Theorem filter_statistics_add_up (bs l : list building) (types : gset string)
    (out : list report_line) :
  types <> ∅ ->
  fst (filter_buildings_by_street bs (Some types) out) = Ok l ->
  exists excluded_type no_street duplicate_street after,
    snd (filter_buildings_by_street bs (Some types) out) =
      out ++ [Heading "Building types before filtering:"]
          ++ type_lines (types_before bs [])
          ++ [Heading "Filtering Stats:";
              Stat "Total buildings" (Z.of_nat (length bs));
              ExcludedStat types excluded_type;
              Stat "Remaining buildings" (Z.of_nat (length bs) - excluded_type);
              Stat "- Buildings with no street (kept)" no_street;
              Stat "- Buildings removed (duplicate streets)" duplicate_street;
              Stat "- Buildings kept (unique streets)"
                (Z.of_nat (length (omap building_street l)));
              Heading "Building types after filtering:"]
          ++ type_lines after
    /\ (Z.of_nat (length bs) =
        excluded_type + no_street + duplicate_street
        + Z.of_nat (length (omap building_street l)))%Z
    /\ (Z.of_nat (length l) =
        no_street + Z.of_nat (length (omap building_street l)))%Z
    /\ excluded_type =
       Z.of_nat (length (filter (fun b => excluded (Some types) (building_type_of b) = true) bs)).
Proof.
  intros Hne Hrun.
  destruct (filter_returns bs (Some types) out l Hrun)
    as (st & after & Hs & Hok & <- & Hout).
  destruct (steps_stats _ _ _ _ Hs (initial_stats_ok bs) (filtered st) eq_refl)
    as (Ht & Hn & Hlen & Hx).
  cbn [stats initial_state] in Ht, Hn, Hlen, Hx.
  rewrite initial_stat_total in Ht.
  pose proof (initial_stat_zero bs "excluded_type" ltac:(done)) as Hzx.
  pose proof (initial_stat_zero bs "no_street" ltac:(done)) as Hzn.
  pose proof (initial_stat_zero bs "duplicate_street" ltac:(done)) as Hzd.
  rewrite ?Hzx, ?Hzn, ?Hzd in Hn, Hlen, Hx.
  exists (stat "excluded_type" (stats st)), (stat "no_street" (stats st)),
    (stat "duplicate_street" (stats st)), after.
  split; [|split; [lia|split; [lia|lia]]].
  rewrite Hout. unfold report_of, exclusion_lines.
  rewrite decide_False by done. rewrite Ht.
  replace (Z.of_nat (length (filtered st)) - stat "no_street" (stats st))%Z
    with (Z.of_nat (length (omap building_street (filtered st)))) by lia.
  reflexivity.
Qed.

(** *** The counts of building types *)

Lemma count_type_keys (btype : string) (counts : list (string * Z)) (k : string) :
  k ∈ (count_type btype counts).*1 <-> k = btype \/ k ∈ counts.*1.
Proof.
  induction counts as [|[k' n] rest IH]; simpl.
  - set_solver.
  - case_decide; simpl; set_solver.
Qed.

Lemma count_type_NoDup (btype : string) (counts : list (string * Z)) :
  NoDup counts.*1 -> NoDup (count_type btype counts).*1.
Proof.
  induction counts as [|[k n] rest IH]; simpl; intros Hnd.
  - apply NoDup_singleton.
  - apply NoDup_cons in Hnd as [Hk Hrest]. case_decide; simpl.
    + by apply NoDup_cons.
    + apply NoDup_cons. split; [|by apply IH].
      rewrite count_type_keys. intros [->|?]; done.
Qed.

Lemma count_type_total (btype : string) (counts : list (string * Z)) :
  total_count (count_type btype counts) = (total_count counts + 1)%Z.
Proof.
  unfold total_count. induction counts as [|[k n] rest IH]; simpl; [lia|].
  case_decide; simpl; [lia|]. rewrite IH. lia.
Qed.

Lemma count_type_positive (btype : string) (counts : list (string * Z)) :
  Forall (fun kn => (0 < kn.2)%Z) counts ->
  Forall (fun kn => (0 < kn.2)%Z) (count_type btype counts).
Proof.
  induction counts as [|[k n] rest IH]; simpl; intros Hpos.
  - repeat constructor.
  - apply Forall_cons in Hpos as [Hn Hrest]. simpl in Hn.
    case_decide; constructor; simpl; auto with lia.
Qed.

Lemma types_before_counts (bs : list building) (counts : list (string * Z)) :
  NoDup counts.*1 -> Forall (fun kn => (0 < kn.2)%Z) counts ->
  NoDup (types_before bs counts).*1
  /\ Forall (fun kn => (0 < kn.2)%Z) (types_before bs counts)
  /\ total_count (types_before bs counts) =
     (total_count counts
      + Z.of_nat (length (filter (fun b => is_Some (tags b)) bs)))%Z.
Proof.
  revert counts. induction bs as [|b bs IH]; intros counts Hnd Hpos; simpl.
  - split; [done|]. split; [done|lia].
  - destruct (tags b) as [t|] eqn:Ht.
    + rewrite filter_cons_True by (by rewrite Ht).
      destruct (IH (count_type (default "unknown" (t !! "building")) counts))
        as (H1 & H2 & H3);
        [by apply count_type_NoDup|by apply count_type_positive|].
      split; [done|]. split; [done|].
      rewrite H3, count_type_total. simpl. lia.
    + rewrite filter_cons_False by (rewrite Ht; by intros [? ?]).
      by apply IH.
Qed.

Lemma insert_by_count_perm (x : string * Z) (sorted : list (string * Z)) :
  insert_by_count x sorted ≡ₚ x :: sorted.
Proof.
  induction sorted as [|y rest IH]; simpl; [done|].
  case_decide; [done|]. rewrite IH. apply Permutation_swap.
Qed.

Lemma sorted_by_count_perm (items : list (string * Z)) :
  sorted_by_count items ≡ₚ items.
Proof.
  unfold sorted_by_count.
  enough (forall acc, fold_left (fun sorted x => insert_by_count x sorted) items acc
                      ≡ₚ acc ++ items) as H by apply (H []).
  induction items as [|x items IH]; intros acc; simpl.
  - by rewrite app_nil_r.
  - rewrite IH, insert_by_count_perm. by rewrite <- Permutation_middle.
Qed.

Lemma insert_by_count_sorted (x : string * Z) (sorted : list (string * Z)) :
  StronglySorted by_decreasing_count sorted ->
  StronglySorted by_decreasing_count (insert_by_count x sorted).
Proof.
  induction sorted as [|y rest IH]; simpl; intros Hs.
  - repeat constructor.
  - apply StronglySorted_inv in Hs as [Hrest Hy]. case_decide.
    + constructor; [by constructor|]. constructor; [unfold by_decreasing_count; lia|].
      eapply Forall_impl; [exact Hy|]. unfold by_decreasing_count. intros; lia.
    + constructor; [by apply IH|].
      rewrite insert_by_count_perm. constructor; [unfold by_decreasing_count; lia|done].
Qed.

Lemma sorted_by_count_sorted (items : list (string * Z)) :
  StronglySorted by_decreasing_count (sorted_by_count items).
Proof.
  unfold sorted_by_count.
  enough (forall acc, StronglySorted by_decreasing_count acc ->
            StronglySorted by_decreasing_count
              (fold_left (fun sorted x => insert_by_count x sorted) items acc))
    as H by (apply H; constructor).
  induction items as [|x items IH]; intros acc Hacc; simpl; [done|].
  by apply IH, insert_by_count_sorted.
Qed.

(** X7.  The first report accounts for every building that has tags
    exactly once: it has one line per building type, the counts are
    positive and add up to the number of buildings with tags, and the
    lines come by decreasing count.  Buildings without tags are not
    counted (and not reported under any type). *)
Theorem type_report_counts_tagged (bs : list building) :
  let counts := types_before bs [] in
  let printed := sorted_by_count counts in
  type_lines counts = (fun kn => TypeCount kn.1 kn.2) <$> printed
  /\ printed ≡ₚ counts
  /\ NoDup printed.*1
  /\ Forall (fun kn => (0 < kn.2)%Z) printed
  /\ total_count printed =
     Z.of_nat (length (filter (fun b => is_Some (tags b)) bs))
  /\ StronglySorted by_decreasing_count printed.
Proof.
  intros counts printed.
  destruct (types_before_counts bs []) as (Hnd & Hpos & Htot);
    [constructor|constructor|].
  fold counts in Hnd, Hpos, Htot.
  pose proof (sorted_by_count_perm counts) as Hperm. fold printed in Hperm.
  split.
  { unfold type_lines. fold printed. apply list_fmap_ext. by intros i [k n]. }
  split; [done|]. split; [by rewrite Hperm|]. split; [by rewrite Hperm|].
  split; [|apply sorted_by_count_sorted].
  transitivity (total_count counts); [|rewrite Htot; simpl; lia].
  unfold total_count.
  apply (foldr_permutation_proper eq _ 0%Z); [|done].
  intros [k1 n1] [k2 n2] z. simpl. lia.
Qed.

Section Samples.
Import FilterSamples.

Lemma sample_run :
  fst (filter_buildings_by_street sample no_houses []) =
  Ok [office_high; office_nowhere].
Proof. vm_compute. reflexivity. Qed.

Lemma filter_returns_sublist_witness :
  fst (filter_buildings_by_street sample no_houses []) =
    Ok [office_high; office_nowhere]
  /\ [office_high; office_nowhere] `sublist_of` sample.
Proof.
  split; [exact sample_run|].
  exact (proj1 (filter_returns_sublist sample _ no_houses [] sample_run)).
Defined.

Lemma filter_one_per_street_witness :
  fst (filter_buildings_by_street sample no_houses []) =
    Ok [office_high; office_nowhere]
  /\ NoDup (omap building_street [office_high; office_nowhere]).
Proof.
  split; [exact sample_run|].
  exact (filter_one_per_street sample _ no_houses [] sample_run).
Defined.

Lemma filter_keeps_first_of_street_witness :
  fst (filter_buildings_by_street sample no_houses []) =
    Ok [office_high; office_nowhere]
  /\ office_high ∈ [office_high; office_nowhere].
Proof.
  split; [exact sample_run|].
  refine (proj2 (filter_keeps_first_of_street sample _ no_houses [] sample_run)
            [] office_high [house_low; retail_high; office_nowhere]
            "High Street" eq_refl _ eq_refl _).
  - split; [by eexists|reflexivity].
  - constructor.
Defined.

Lemma filter_idempotent_witness :
  fst (filter_buildings_by_street sample no_houses []) =
    Ok [office_high; office_nowhere]
  /\ fst (filter_buildings_by_street [office_high; office_nowhere] no_houses []) =
     Ok [office_high; office_nowhere].
Proof.
  split; [exact sample_run|].
  exact (filter_idempotent sample _ no_houses [] [] sample_run).
Defined.

Lemma filter_statistics_add_up_witness :
  ({["house"]} : gset string) <> ∅
  /\ fst (filter_buildings_by_street sample no_houses []) =
     Ok [office_high; office_nowhere]
  /\ exists excluded_type no_street duplicate_street,
       (4 = excluded_type + no_street + duplicate_street + 1)%Z.
Proof.
  assert (Hne : ({["house"]} : gset string) <> ∅) by set_solver.
  split; [exact Hne|]. split; [exact sample_run|].
  destruct (filter_statistics_add_up sample _ {["house"]} [] Hne sample_run)
    as (x & ns & d & after & _ & Hsum & _).
  exists x, ns, d. exact Hsum.
Defined.

End Samples.

End FilterFacts.

(** ** Downloading one image *)

Module DownloadFacts.
Import Utils PitchSolver Download.
Local Open Scope R_scope.

Section WithServices.
Context `{Pyproj} `{Requests} `{Format} `{Environ} `{Os}.

(** What the [try] block has done when it ends with [return True]. *)
Lemma fetch_and_save_saved (url output_path : string) (w : world) :
  let run := try_io (fetch_and_save url output_path) on_download_error w in
  fst run = Ok ReturnSaved ->
  exists resp,
    requests_get url = Ok resp
    /\ ~ (400 <= status_code resp < 600)%Z
    /\ (5000 <= Z.of_nat (length (content resp)))%Z
    /\ files (snd run) = <[output_path := content resp]> (files w)
    /\ stdout (snd run) = stdout w.
Proof.
  unfold try_io, fetch_and_save, on_download_error, mbind, IO_bind,
    os_makedirs, http_get, raise_for_status, write_file, print, lift, mret,
    IO_ret.
  destruct (makedirs (dirname output_path) (dirs w)) as [ds|e1]; simpl;
    [|discriminate].
  destruct (requests_get url) as [resp|e2]; simpl; [|discriminate].
  destruct (decide (400 <= status_code resp < 600)%Z) as [?|Hstatus]; simpl;
    [discriminate|].
  destruct (decide (Z.of_nat (length (content resp)) < 5000)%Z) as [?|Hlarge];
    simpl; [discriminate|].
  destruct (decide (output_path ∈ ds)); simpl; [discriminate|].
  intros _. exists resp. repeat split; [done|lia].
Qed.

(** The [try] block and its handler leave every other file alone, and
    always return. *)
Lemma fetch_and_save_other_files (url output_path : string) (w : world) :
  let run := try_io (fetch_and_save url output_path) on_download_error w in
  (exists x, fst run = Ok x)
  /\ forall path, path <> output_path ->
       files (snd run) !! path = files w !! path.
Proof.
  unfold try_io, fetch_and_save, on_download_error, mbind, IO_bind,
    os_makedirs, http_get, raise_for_status, write_file, print, lift, mret,
    IO_ret.
  destruct (makedirs (dirname output_path) (dirs w)) as [ds|e1]; simpl;
    [|by eauto].
  destruct (requests_get url) as [resp|e2]; simpl; [|by eauto].
  destruct (decide (400 <= status_code resp < 600)%Z) as [?|Hstatus]; simpl;
    [by eauto|].
  destruct (decide (Z.of_nat (length (content resp)) < 5000)%Z) as [?|Hlarge];
    simpl; [by eauto|].
  destruct (decide (output_path ∈ ds)); simpl; [by eauto|].
  split; [by eauto|]. intros path Hpath. by rewrite lookup_insert_ne.
Qed.

(** A download that returns has run the [try] block on the URL of some
    pitch, after a pitch block that left the disk alone. *)
Lemma download_returns (lon lat : R) (output_path : string)
    (bh : option R) (use_bh : bool) (pitch : npfloat) (w : world) (b : bool) :
  fst (download_streetview_image lon lat output_path bh use_bh pitch w) = Ok b ->
  exists p w1 x,
    streetview_pitch lon lat bh use_bh pitch w = (Ok p, w1)
    /\ files w1 = files w /\ dirs w1 = dirs w
    /\ fst (try_io (fetch_and_save (streetview_url_text lon lat p) output_path)
              on_download_error w1) = Ok x
    /\ b = returned x
    /\ snd (download_streetview_image lon lat output_path bh use_bh pitch w) =
       snd (try_io (fetch_and_save (streetview_url_text lon lat p) output_path)
              on_download_error w1).
Proof.
  rewrite download_run, download_exit_run.
  pose proof (streetview_pitch_disk lon lat bh use_bh pitch w) as [Hfiles Hdirs].
  destruct (streetview_pitch lon lat bh use_bh pitch w) as [[p|e] w1];
    simpl in Hfiles, Hdirs; [|discriminate].
  destruct (try_io _ _ w1) as [[x|e] w2] eqn:Hrun; [|discriminate].
  simpl. intros [= <-]. exists p, w1, x. by rewrite Hrun.
Qed.

(** A download that returns [True] has put a file at [output_path]. *)
Lemma download_true_saved (lon lat : R) (output_path : string)
    (bh : option R) (use_bh : bool) (pitch : npfloat) (w : world) :
  let run := download_streetview_image lon lat output_path bh use_bh pitch w in
  fst run = Ok true ->
  exists data, files (snd run) !! output_path = Some data
               /\ (5000 <= Z.of_nat (length data))%Z.
Proof.
  intros run Htrue.
  destruct (download_returns _ _ _ _ _ _ _ _ Htrue)
    as (p & w1 & x & _ & _ & _ & Hx & Hret & Hw).
  subst run. rewrite Hw. destruct x; try discriminate.
  destruct (fetch_and_save_saved _ _ _ Hx) as (resp & _ & _ & Hlarge & Hf & _).
  exists (content resp). rewrite Hf, lookup_insert_eq. by split.
Qed.

(** A download leaves all the other files alone. *)
Lemma download_other_files (lon lat : R) (output_path : string)
    (bh : option R) (use_bh : bool) (pitch : npfloat) (w : world) :
  let run := download_streetview_image lon lat output_path bh use_bh pitch w in
  forall path, path <> output_path ->
    files (snd run) !! path = files w !! path.
Proof.
  cbv zeta. rewrite download_run, download_exit_run.
  pose proof (streetview_pitch_disk lon lat bh use_bh pitch w) as [Hfiles _].
  destruct (streetview_pitch lon lat bh use_bh pitch w) as [[p|e] w1];
    simpl in Hfiles; [|by simpl; rewrite Hfiles].
  pose proof (fetch_and_save_other_files (streetview_url_text lon lat p)
                output_path w1) as [_ Hother].
  cbv zeta in Hother. rewrite <- Hfiles.
  by destruct (try_io _ _ w1) as [[x|e] w2].
Qed.

(** X8.  [download_streetview_image] can change one file only, the one at
    [output_path].  When it returns [True], that file holds the body of
    the response to the request for the image, the URL being the one
    built with the pitch of the pitch block; the status of the response
    is no error, the body has at least 5000 bytes, and the files are
    those of before with this one written.  In every other case (it
    returns [False] or an exception escapes) no file has changed. *)
Theorem download_writes_output_path_only (lon lat : R) (output_path : string)
    (bh : option R) (use_bh : bool) (pitch : npfloat) (w : world) :
  let run := download_streetview_image lon lat output_path bh use_bh pitch w in
  (forall path, path <> output_path ->
     files (snd run) !! path = files w !! path)
  /\ (fst run = Ok true ->
      exists p response,
        fst (streetview_pitch lon lat bh use_bh pitch w) = Ok p
        /\ requests_get (streetview_url_text lon lat p) = Ok response
        /\ ~ (400 <= status_code response < 600)%Z
        /\ (5000 <= Z.of_nat (length (content response)))%Z
        /\ files (snd run) = <[output_path := content response]> (files w)
        /\ files (snd run) !! output_path = Some (content response))
  /\ (fst run <> Ok true -> files (snd run) = files w).
Proof.
  intros run. split; [apply download_other_files|]. split.
  - intros Htrue.
    destruct (download_returns _ _ _ _ _ _ _ _ Htrue)
      as (p & w1 & x & Hpitch & Hfiles & _ & Hx & Hret & Hw).
    subst run. rewrite Hw. destruct x; try discriminate.
    destruct (fetch_and_save_saved _ _ _ Hx)
      as (response & Hget & Hstatus & Hlarge & Hf & _).
    exists p, response. rewrite Hpitch, Hf, Hfiles, lookup_insert_eq.
    by repeat split.
  - subst run. rewrite download_run, download_exit_run.
    pose proof (streetview_pitch_disk lon lat bh use_bh pitch w) as [Hfiles _].
    destruct (streetview_pitch lon lat bh use_bh pitch w) as [[p|e] w1];
      simpl in Hfiles; [|done].
    pose proof (try_fetch_and_save (streetview_url_text lon lat p) output_path
                  w1) as (_ & Hkeep & _).
    cbv zeta in Hkeep.
    destruct (try_io _ _ w1) as [[x|e] w2]; simpl in *.
    + intros Hfalse. rewrite <- Hfiles. apply Hkeep.
      intros [= ->]. by destruct Hfalse.
    + intros _. rewrite <- Hfiles. by apply Hkeep.
Qed.

(** On the height path, a metadata request that raises ends the
    download at once. *)
Lemma download_metadata_failure (lon lat h : R) (output_path : string)
    (bh : option R) (pitch : npfloat) (w : world) (e : exn) :
  height_given bh = Some h ->
  requests_get (get_streetview_metadata_url lon lat) = Raise e ->
  download_streetview_image lon lat output_path bh true pitch w =
  (Raise e,
   record_call (CallGet (get_streetview_metadata_url lon lat))
     (record_call (CallTransform lon lat 0) w)).
Proof.
  intros Hh Hget.
  rewrite download_run, download_exit_run.
  rewrite (streetview_pitch_height lon lat h bh pitch w Hh). cbv zeta.
  unfold get_streetview_camera_position, http_get, mbind, IO_bind.
  by rewrite Hget.
Qed.

(** X9.  The URL is built before the [try] block: on the height path, an
    exception of the metadata request is not caught.  It escapes
    [download_streetview_image], which then has printed nothing, changed
    no file and not asked for the image. *)
Theorem metadata_failure_escapes (lon lat h : R) (output_path : string)
    (bh : option R) (pitch : npfloat) (w : world) (e : exn) :
  height_given bh = Some h ->
  requests_get (get_streetview_metadata_url lon lat) = Raise e ->
  let run := download_streetview_image lon lat output_path bh true pitch w in
  fst run = Raise e
  /\ stdout (snd run) = stdout w
  /\ files (snd run) = files w
  /\ calls (snd run) =
     calls w ++ [CallTransform lon lat 0;
                 CallGet (get_streetview_metadata_url lon lat)].
Proof.
  intros Hh Hget run. subst run.
  rewrite (download_metadata_failure lon lat h output_path bh pitch w e Hh Hget).
  simpl. repeat split. by rewrite <- app_assoc.
Qed.

(** X10.  Without a height to use, [download_streetview_image] never
    raises: it asks for the image of the given pitch and nothing else,
    and whatever goes wrong inside the [try] block comes out as
    [False]. *)
Theorem download_without_height_returns (lon lat : R) (output_path : string)
    (bh : option R) (use_bh : bool) (pitch : npfloat) (w : world) :
  use_bh = false \/ height_given bh = None ->
  let run := download_streetview_image lon lat output_path bh use_bh pitch w in
  (exists b, fst run = Ok b)
  /\ forall c, c ∈ calls (snd run) ->
       c ∈ calls w \/ c = CallGet (streetview_url_text lon lat pitch).
Proof.
  intros Hno. cbv zeta.
  rewrite download_run, download_exit_run.
  rewrite (streetview_pitch_no_height lon lat bh use_bh pitch w Hno).
  pose proof (fetch_and_save_other_files (streetview_url_text lon lat pitch)
                output_path w) as [[x Hx] _].
  cbv zeta in Hx.
  assert (Hcalls : forall c,
            c ∈ calls (snd (try_io (fetch_and_save
                   (streetview_url_text lon lat pitch) output_path)
                   on_download_error w)) ->
            c ∈ calls w \/ c = CallGet (streetview_url_text lon lat pitch)).
  { unfold try_io, fetch_and_save, on_download_error, mbind, IO_bind,
      os_makedirs, http_get, raise_for_status, write_file, print, lift, mret,
      IO_ret.
    destruct (makedirs (dirname output_path) (dirs w)) as [ds|e1]; simpl;
      [|by auto].
    destruct (requests_get _) as [resp|e2]; simpl.
    2:{ intros c Hc. apply elem_of_app in Hc as [?|Hc]; [by left|].
        apply list_elem_of_singleton in Hc. by right. }
    destruct (decide (400 <= status_code resp < 600)%Z); simpl.
    { intros c Hc. apply elem_of_app in Hc as [?|Hc]; [by left|].
      apply list_elem_of_singleton in Hc. by right. }
    destruct (decide (Z.of_nat (length (content resp)) < 5000)%Z); simpl.
    { intros c Hc. apply elem_of_app in Hc as [?|Hc]; [by left|].
      apply list_elem_of_singleton in Hc. by right. }
    destruct (decide (output_path ∈ ds)); simpl;
      intros c Hc; (apply elem_of_app in Hc as [?|Hc]; [by left|]);
      apply list_elem_of_singleton in Hc; by right. }
  destruct (try_io _ _ w) as [r w2]. simpl in *. subst r. simpl.
  split; [by eauto|exact Hcalls].
Qed.

(** With an [os.makedirs] that removes no directory, a download removes
    none. *)
Lemma download_dirs_mono (lon lat : R) (output_path : string)
    (bh : option R) (use_bh : bool) (pitch : npfloat) (w : world) :
  (forall path ds ds', makedirs path ds = Ok ds' -> ds ⊆ ds') ->
  dirs w ⊆ dirs (snd (download_streetview_image lon lat output_path bh use_bh
                        pitch w)).
Proof.
  intros Hkeeps. rewrite download_run, download_exit_run.
  pose proof (streetview_pitch_disk lon lat bh use_bh pitch w) as [_ Hdirs].
  destruct (streetview_pitch lon lat bh use_bh pitch w) as [[p|e] w1];
    simpl in Hdirs; [|by simpl; rewrite Hdirs].
  rewrite <- Hdirs.
  assert (Hmono : dirs w1 ⊆ dirs (snd (try_io (fetch_and_save
            (streetview_url_text lon lat p) output_path) on_download_error w1))).
  { unfold try_io, fetch_and_save, on_download_error, mbind, IO_bind,
      os_makedirs, http_get, raise_for_status, write_file, print, lift, mret,
      IO_ret.
    destruct (makedirs (dirname output_path) (dirs w1)) as [ds|e1] eqn:Hmk;
      simpl; [|done].
    apply Hkeeps in Hmk.
    destruct (requests_get _) as [resp|e2]; simpl; [|done].
    destruct (decide (400 <= status_code resp < 600)%Z); simpl; [done|].
    destruct (decide (Z.of_nat (length (content resp)) < 5000)%Z); simpl;
      [done|].
    by destruct (decide (output_path ∈ ds)). }
  by destruct (try_io _ _ w1) as [[x|e] w2].
Qed.

End WithServices.

Section Examples.
#[local] Existing Instances Fixtures.local_frame UtilsSamples.offline
  Fixtures.plain_format Fixtures.no_key Fixtures.any_directory.

Lemma metadata_failure_escapes_witness :
  height_given (Some 10) = Some 10
  /\ fst (download_streetview_image 0 0 "data/1.jpg" (Some 10) true (Fin 30)
            Fixtures.empty_world) = Raise RequestException.
Proof.
  assert (Hh : height_given (Some 10) = Some 10)
    by (apply height_given_Some; split; [done|lra]).
  split; [exact Hh|].
  assert (Hget : requests_get (get_streetview_metadata_url 0 0)
                 = Raise RequestException) by reflexivity.
  exact (proj1 (metadata_failure_escapes 0 0 10 "data/1.jpg" (Some 10) (Fin 30)
                  Fixtures.empty_world RequestException Hh Hget)).
Defined.

Lemma download_without_height_returns_witness :
  exists b, fst (download_streetview_image 0 0 "data/1.jpg" (Some 10) false
                   (Fin 30) Fixtures.empty_world) = Ok b.
Proof.
  exact (proj1 (download_without_height_returns 0 0 "data/1.jpg" (Some 10)
                  false (Fin 30) Fixtures.empty_world (or_introl eq_refl))).
Defined.

End Examples.

End DownloadFacts.

(** ** Directories and images for the models *)

Module FilesFacts.
Import Utils UtilsFiles.

Section WithOs.
Context `{Os} `{Base64}.

Lemma os_makedirs_run (path : string) (w : world) :
  os_makedirs path w =
  match makedirs path (dirs w) with
  | Ok ds => (Ok tt, mkWorld (calls w) ds (files w) (stdout w))
  | Raise e => (Raise e, w)
  end.
Proof. reflexivity. Qed.

Lemma make_directories_cons (directory : string) (rest : list string)
    (w : world) :
  make_directories (directory :: rest) w =
  match makedirs directory (dirs w) with
  | Ok ds => make_directories rest (mkWorld (calls w) ds (files w) (stdout w))
  | Raise e => (Raise e, w)
  end.
Proof.
  simpl. unfold mbind, IO_bind. rewrite os_makedirs_run.
  by destruct (makedirs directory (dirs w)).
Qed.

(** Only the directories change. *)
Lemma make_directories_rest (ds : list string) (w : world) :
  let w' := snd (make_directories ds w) in
  calls w' = calls w /\ files w' = files w /\ stdout w' = stdout w.
Proof.
  revert w. induction ds as [|d ds IH]; intros w; [done|].
  cbv zeta. rewrite make_directories_cons.
  destruct (makedirs d (dirs w)) as [ds'|e]; [|done].
  apply (IH (mkWorld (calls w) ds' (files w) (stdout w))).
Qed.

Section Documented.
(** [os.makedirs(path, exist_ok=True)] as documented: an existing
    directory is left as it is, and a call that returns has made the
    directory and removed none. *)
Hypothesis makedirs_exist_ok :
  forall path ds, path ∈ ds -> makedirs path ds = Ok ds.
Hypothesis makedirs_made :
  forall path ds ds', makedirs path ds = Ok ds' -> path ∈ ds' /\ ds ⊆ ds'.

Lemma make_directories_made (ds : list string) (w : world) :
  fst (make_directories ds w) = Ok tt ->
  dirs w ⊆ dirs (snd (make_directories ds w))
  /\ Forall (fun d => d ∈ dirs (snd (make_directories ds w))) ds.
Proof.
  revert w. induction ds as [|d ds IH]; intros w.
  - intros _. split; [done|constructor].
  - rewrite make_directories_cons.
    destruct (makedirs d (dirs w)) as [ds'|e] eqn:Hmk; [|discriminate].
    intros Hrun. destruct (makedirs_made _ _ _ Hmk) as [Hd Hsub].
    destruct (IH _ Hrun) as [Hmono Hall]. simpl in Hmono.
    split; [set_solver|]. constructor; [set_solver|done].
Qed.

Lemma make_directories_existing (ds : list string) (w : world) :
  Forall (fun d => d ∈ dirs w) ds -> make_directories ds w = (Ok tt, w).
Proof.
  induction ds as [|d ds IH]; intros Hall; [done|].
  apply Forall_cons in Hall as [Hd Hall].
  rewrite make_directories_cons, (makedirs_exist_ok _ _ Hd).
  destruct w as [c dd f o]. simpl in *. by apply IH.
Qed.

(** X11.  With [os.makedirs] as documented, a run of
    [setup_directory_structure] that returns leaves the four directories
    of the project on disk, removes no directory, and changes nothing
    else; and the setup is idempotent: run again, it returns and changes
    nothing at all. *)
Theorem setup_directory_structure_idempotent (w : world) :
  fst (setup_directory_structure w) = Ok tt ->
  let w' := snd (setup_directory_structure w) in
  Forall (fun d => d ∈ dirs w') directories
  /\ dirs w ⊆ dirs w'
  /\ files w' = files w /\ calls w' = calls w /\ stdout w' = stdout w
  /\ setup_directory_structure w' = (Ok tt, w').
Proof.
  intros Hrun w'. unfold setup_directory_structure in *.
  destruct (make_directories_made directories w Hrun) as [Hmono Hall].
  destruct (make_directories_rest directories w) as (Hc & Hf & Ho).
  fold w' in Hmono, Hall, Hc, Hf, Ho.
  repeat split; try done. by apply make_directories_existing.
Qed.

End Documented.

(** The loop of [load_and_encode_all_images] from any list built so
    far. *)
Lemma encode_images_run (paths : list string) (acc : list string) (w : world) :
  snd (encode_images paths acc w) = w
  /\ match fst (encode_images paths acc w) with
     | Ok images =>
         exists new, images = acc ++ new
           /\ Forall2 (fun path image =>
                 (path ∉ dirs w)
                 /\ exists data, files w !! path = Some data
                                 /\ image = base64_encode_image data)
               paths new
     | Raise e =>
         e = OSError
         /\ Exists (fun path => path ∈ dirs w \/ files w !! path = None) paths
     end.
Proof.
  revert acc. induction paths as [|path paths IH]; intros acc.
  - simpl. split; [done|]. exists []. by rewrite app_nil_r.
  - simpl. unfold mbind, IO_bind, read_file.
    destruct (decide (path ∈ dirs w)) as [Hdir|Hdir].
    { simpl. split; [done|]. split; [done|]. left. by left. }
    destruct (files w !! path) as [data|] eqn:Hfile; simpl.
    2:{ split; [done|]. split; [done|]. left. by right. }
    destruct (IH (acc ++ [base64_encode_image data])) as [Hw Hres].
    split; [exact Hw|].
    destruct (fst (encode_images paths _ w)) as [images|e].
    + destruct Hres as (new & -> & Hall).
      exists (base64_encode_image data :: new).
      split; [by rewrite <- app_assoc|].
      constructor; [|done]. split; [done|]. by exists data.
    + destruct Hres as [-> Hex]. split; [done|]. by right.
Qed.

(** X12.  [load_and_encode_all_images] gives all the images or none: it
    returns one encoded image per path, in the order of the paths, each
    the encoding of the file at its path; or it raises [OSError] because
    some path is missing or a directory, and returns no partial list.  It
    changes nothing on disk. *)
Theorem load_and_encode_all_or_nothing (image_paths : list string) (w : world) :
  let run := load_and_encode_all_images image_paths w in
  snd run = w
  /\ match fst run with
     | Ok images =>
         Forall2 (fun path image =>
                    (path ∉ dirs w)
                    /\ exists data, files w !! path = Some data
                                    /\ image = base64_encode_image data)
           image_paths images
     | Raise e =>
         e = OSError
         /\ Exists (fun path => path ∈ dirs w \/ files w !! path = None)
              image_paths
     end.
Proof.
  cbv zeta. unfold load_and_encode_all_images.
  destruct (encode_images_run image_paths [] w) as [Hw Hres].
  split; [exact Hw|].
  destruct (fst (encode_images image_paths [] w)) as [images|e]; [|done].
  by destruct Hres as (new & -> & Hall).
Qed.

End WithOs.

Lemma startswith_inv (s prefix : string) :
  startswith s prefix = true -> exists rest, s = prefix +:+ rest.
Proof.
  unfold startswith. revert s.
  induction prefix as [|a prefix IH]; intros s; [by exists s|].
  destruct s as [|b s]; [done|]. cbn [String.prefix].
  destruct (Ascii.ascii_dec a b) as [->|]; [|done].
  intros Hp. destruct (IH s Hp) as [rest ->]. by exists rest.
Qed.

Lemma startswith_gpt_not_gemini (model : string) :
  startswith model "gpt" = true -> startswith model "gemini" = false.
Proof. intros Hp. by destruct (startswith_inv _ _ Hp) as [rest ->]. Qed.

Lemma startswith_claude_not_gemini (model : string) :
  startswith model "claude" = true -> startswith model "gemini" = false.
Proof. intros Hp. by destruct (startswith_inv _ _ Hp) as [rest ->]. Qed.

Lemma startswith_claude_not_gpt (model : string) :
  startswith model "claude" = true -> startswith model "gpt" = false.
Proof. intros Hp. by destruct (startswith_inv _ _ Hp) as [rest ->]. Qed.

Lemma data_url_inj (image1 image2 : string) :
  data_url image1 = data_url image2 -> image1 = image2.
Proof. unfold data_url. cbn. intros Heq. by injection Heq. Qed.

(** X13.  [format_image_for_model] treats the GPT and the Claude models
    alike: a model whose name starts with [gpt] and one whose name starts
    with [claude] get the same object for the same image, with the URL
    inside a dict, where a Gemini model gets the URL itself.  The image
    can be read back from the object: two calls that return the same
    object were given the same image. *)
Theorem format_image_by_provider (image : string) (gpt claude : string) :
  startswith gpt "gpt" = true -> startswith claude "claude" = true ->
  format_image_for_model image gpt = format_image_for_model image claude
  /\ format_image_for_model image gpt =
     Ok (mkImageObject "image_url" (UrlDict (data_url image)))
  /\ (forall gemini, startswith gemini "gemini" = true ->
       format_image_for_model image gemini =
       Ok (mkImageObject "image_url" (UrlText (data_url image))))
  /\ (forall image1 image2 model1 model2 object,
       format_image_for_model image1 model1 = Ok object ->
       format_image_for_model image2 model2 = Ok object ->
       image1 = image2).
Proof.
  intros Hgpt Hclaude. unfold format_image_for_model.
  rewrite (startswith_gpt_not_gemini _ Hgpt), Hgpt.
  rewrite (startswith_claude_not_gemini _ Hclaude),
    (startswith_claude_not_gpt _ Hclaude), Hclaude.
  split; [done|]. split; [done|]. split.
  - by intros gemini ->.
  - intros image1 image2 model1 model2 object.
    destruct (startswith model1 "gemini"), (startswith model1 "gpt"),
      (startswith model1 "claude"), (startswith model2 "gemini"),
      (startswith model2 "gpt"), (startswith model2 "claude");
      intros [= <-] [= Heq]; try done; by apply data_url_inj.
Qed.

Section Examples.
#[local] Existing Instances Fixtures.any_directory.

Lemma any_directory_exist_ok (path : string) (ds : gset string) :
  path ∈ ds -> makedirs path ds = Ok ds.
Proof. intros Hin. simpl. f_equal. set_solver. Qed.

Lemma any_directory_made (path : string) (ds ds' : gset string) :
  makedirs path ds = Ok ds' -> path ∈ ds' /\ ds ⊆ ds'.
Proof. simpl. intros [= <-]. set_solver. Qed.

Lemma setup_directory_structure_idempotent_witness :
  fst (setup_directory_structure Fixtures.empty_world) = Ok tt
  /\ Forall (fun d => d ∈ dirs (snd (setup_directory_structure Fixtures.empty_world)))
       directories.
Proof.
  assert (Hrun : fst (setup_directory_structure Fixtures.empty_world) = Ok tt)
    by reflexivity.
  split; [exact Hrun|].
  exact (proj1 (setup_directory_structure_idempotent any_directory_exist_ok
                  any_directory_made Fixtures.empty_world Hrun)).
Defined.

Lemma format_image_by_provider_witness :
  startswith "gpt-4o" "gpt" = true /\ startswith "claude-3-opus" "claude" = true
  /\ format_image_for_model "QUJD" "gpt-4o" =
     format_image_for_model "QUJD" "claude-3-opus".
Proof.
  split; [reflexivity|]. split; [reflexivity|].
  exact (proj1 (format_image_by_provider "QUJD" "gpt-4o" "claude-3-opus"
                  eq_refl eq_refl)).
Defined.

End Examples.

End FilesFacts.

(** ** The main program of [process_osm_data.py] *)

Module ProcessMainFacts.
Import Utils ProcessOsmData FilterBuildings UtilsFiles Scripts ProcessMain.
Import FilterFacts FilesFacts.

Section WithLibraries.
Context `{Utm} `{Shapely} `{Builtins} `{Os} `{Json}.

(** The loop over the filtered buildings, from any list built so far. *)
Lemma process_buildings_run (bs : list building)
    (acc : list processed_building) (out : list log_line) :
  process_buildings bs acc out =
  (acc ++ kept process_body bs, out ++ reported process_body bs).
Proof.
  revert acc out. induction bs as [|b bs IH]; intros acc out.
  - simpl. by rewrite !app_nil_r.
  - simpl. unfold process_osm_building, kept, reported. simpl.
    destruct (process_body b) as [p|e]; simpl; rewrite IH;
      unfold kept, reported; by rewrite <- app_assoc.
Qed.

(** The type and the street of a processed building are those of its
    tags. *)
Lemma process_body_tags (b : building) (p : processed_building) :
  process_body b = Ok p ->
  building_type p = building_type_of b
  /\ street p = default "" (building_street b).
Proof.
  unfold process_body.
  destruct (convert_osm_to_wkt (default [] (geometry b))) as [w|?]; simpl;
    [|discriminate].
  destruct (wkt_loads w) as [poly|?]; simpl; [|discriminate].
  destruct (representative_point poly) as [[lon lat]|?]; simpl; [|discriminate].
  destruct (calculate_polygon_area_in_utm poly) as [a|?]; simpl; [|discriminate].
  intros [= <-]. simpl.
  unfold tag_text, building_type_of, building_street, street_of.
  destruct (tags b) as [t|]; simpl; [|by rewrite !lookup_empty].
  split; [done|].
  destruct (t !! "addr:street") as [s|]; simpl; [|done].
  by destruct (decide (s = "")) as [->|].
Qed.

Lemma kept_streets (bs : list building) :
  filter (fun s => s <> "") (street <$> kept process_body bs)
  `sublist_of` omap building_street bs.
Proof.
  induction bs as [|b bs IH]; [done|].
  unfold kept in *. cbn [omap list_omap].
  assert (Hne : forall s, building_street b = Some s -> s <> "").
  { unfold building_street, street_of. destruct (tags b) as [t|]; simpl; [|done].
    destruct (t !! "addr:street") as [s'|]; [|done].
    destruct (decide (s' = "")); [done|]. by intros s [= <-]. }
  destruct (process_body b) as [p|e] eqn:Hp; cbn [to_option].
  - destruct (process_body_tags b p Hp) as [_ Hstreet].
    rewrite fmap_cons, Hstreet.
    destruct (building_street b) as [s|]; simpl.
    + rewrite filter_cons_True by (by apply Hne). by apply sublist_skip.
    + by rewrite filter_cons_False by (by intros Hs; apply Hs).
  - destruct (building_street b) as [s|]; [by apply sublist_cons|done].
Qed.

Lemma not_house (b : building) :
  eligible (Some {["house"]}) b -> building_type_of b <> "house".
Proof.
  intros [_ Hex]. unfold excluded in Hex.
  destruct (decide (({["house"]} : gset string) = ∅)) as [Hempty|_];
    [set_solver|].
  apply bool_decide_eq_false in Hex. set_solver.
Qed.

(** X14.  The program never raises, whatever is on disk and whatever
    the libraries do, and of the files it can change one only, the
    processed list at [output_file]. *)
Theorem main_never_raises (w : world) (out : list main_line) :
  fst (main (w, out)) = Ok tt
  /\ forall path, path <> output_file ->
       files (fst (snd (main (w, out)))) !! path = files w !! path.
Proof.
  unfold main, try_script, main_body, mbind, Script_bind, on_disk, say,
    reporting.
  cbn [fst snd].
  destruct (make_directories_rest directories w) as (_ & Hf & _).
  fold setup_directory_structure in Hf.
  destruct (setup_directory_structure w) as [[[]|e] w1]; simpl in Hf;
    [|simpl; by rewrite Hf].
  unfold load_osm_data, mbind, IO_bind, read_file, lift. cbn [fst snd].
  case_decide; [simpl; by rewrite Hf|].
  destruct (files w1 !! input_file) as [text|]; cbn [of_option];
    [|simpl; by rewrite Hf].
  destruct (json_load text) as [doc|e]; [|simpl; by rewrite Hf].
  destruct (filter_buildings_by_street _ _ []) as [[l|e] lines];
    [|simpl; by rewrite Hf].
  destruct (process_buildings l [] []) as [processed printed].
  cbn [fst snd]. unfold write_file.
  case_decide; cbn [fst snd]; [simpl; by rewrite Hf|].
  split; [done|]. intros path Hpath. simpl. by rewrite lookup_insert_ne, Hf.
Qed.



End WithLibraries.

Section Examples.
Import FilterSamples ProcessSamples.

Lemma setup_on_sample_disk :
  fst (setup_directory_structure (H:=Fixtures.any_directory) raw_on_disk) = Ok tt.
Proof. reflexivity. Qed.

Lemma read_on_sample_disk :
  fst (read_file input_file
         (snd (setup_directory_structure (H:=Fixtures.any_directory) raw_on_disk)))
  = Ok [].
Proof. vm_compute. reflexivity. Qed.

Lemma output_not_a_directory :
  output_file ∉
    dirs (snd (setup_directory_structure (H:=Fixtures.any_directory) raw_on_disk)).
Proof. apply (bool_decide_unpack _). vm_compute. exact I. Qed.


(** The first office is processed: its triangle is closed and read, and
    the projection of [Fixtures] keeps its coordinates. *)
Lemma first_office_processed :
  exists p,
    process_body (H:=Fixtures.flat_utm) (H0:=Fixtures.first_vertex_point)
      (H1:=Fixtures.no_numbers) first_office = Ok p
    /\ building_type p = "office" /\ street p = "High Street".
Proof.
  assert (Hwkt : convert_osm_to_wkt (node_of <$> Fixtures.triangle)
                 = Ok (POLYGON (Fixtures.triangle ++ [(0%R, 0%R)]))).
  { assert (Hclose : close_coords Fixtures.triangle
                     = Ok (Fixtures.triangle ++ [(0%R, 0%R)])).
    { apply (Closing.close_coords_open (0%R, 0%R) [(1%R, 0%R); (1%R, 1%R)]).
      simpl. intros [= Hx _]. lra. }
    unfold convert_osm_to_wkt. rewrite Closing.geometry_coords_node_of.
    unfold mbind, result_bind. by rewrite Hclose. }
  assert (Hload : wkt_loads (POLYGON (Fixtures.triangle ++ [(0%R, 0%R)]))
                  = Ok (mkPolygon (Fixtures.triangle ++ [(0%R, 0%R)]) [])).
  { apply (Closing.wkt_loads_closed (0%R, 0%R) [(1%R, 0%R); (1%R, 1%R)]).
    simpl. lia. }
  destruct (process_body (H:=Fixtures.flat_utm)
              (H0:=Fixtures.first_vertex_point) (H1:=Fixtures.no_numbers)
              first_office) as [p|e] eqn:Hbody.
  - exists p. split; [done|].
    destruct (process_body_tags (H:=Fixtures.flat_utm)
                (H0:=Fixtures.first_vertex_point) (H1:=Fixtures.no_numbers)
                first_office p Hbody) as [-> ->].
    split; vm_compute; reflexivity.
  - exfalso. revert Hbody. unfold process_body.
    change (default [] (geometry first_office))
      with (node_of <$> Fixtures.triangle).
    rewrite Hwkt. unfold mbind, result_bind. rewrite Hload.
    cbn [representative_point Fixtures.first_vertex_point exterior head
         Fixtures.triangle app of_option].
    unfold calculate_polygon_area_in_utm, calculate_ring_area_in_utm.
    cbn. discriminate.
Qed.

Lemma three_footprints_filtered :
  fst (filter_buildings_by_street three_footprints (Some {["house"]}) [])
  = Ok [first_office].
Proof. vm_compute. reflexivity. Qed.


End Examples.

End ProcessMainFacts.

(** ** Images of one building, and of all *)

Module FetchFacts.
Import Utils ProcessOsmData UtilsFiles Scripts FetchStreetviewImages.
Import PitchSolver Download DownloadFacts FilesFacts.
Local Open Scope R_scope.

(** The two images of a building go to different paths, and none to the
    path of a list. *)
Lemma image_paths_differ (directory : string) (osm_id : option Z) :
  image_path directory "fixed_pitch" osm_id
  <> image_path directory "height_pitch" osm_id.
Proof.
  unfold image_path. intros Heq.
  apply (inj (String.app directory)) in Heq. cbn in Heq. discriminate.
Qed.

Lemma image_path_not_output (kind : string) (osm_id : option Z) :
  image_path image_directory kind osm_id <> output_file.
Proof. unfold image_path, image_directory, output_file. cbn. discriminate. Qed.

Section WithServices.
Context `{Pyproj} `{Requests} `{Format} `{Environ} `{Os}.

(** One block of [download_building_images], by its three ways. *)
Lemma fetch_image_run (b : processed_building) (path : string) (use_bh : bool)
    (pitch : npfloat) (skipped downloaded failed : fetch_line)
    (s : world * list fetch_line) :
  fetch_image b path use_bh pitch skipped downloaded failed s =
  if path_exists path (fst s) then (Ok (Some path), (fst s, snd s ++ [skipped]))
  else
    match download_streetview_image (longitude b) (latitude b) path
            (building_height b) use_bh pitch (fst s) with
    | (Ok true, w') => (Ok (Some path), (w', snd s ++ [downloaded]))
    | (Ok false, w') => (Ok None, (w', snd s ++ [failed]))
    | (Raise e, w') => (Raise e, (w', snd s))
    end.
Proof.
  unfold fetch_image, mbind, Script_bind, os_path_exists, on_disk, say.
  destruct (path_exists path (fst s)); [done|].
  by destruct (download_streetview_image _ _ _ _ _ _ _) as [[[]|e] w'].
Qed.

(** [download_building_images] is its two blocks, one after the other. *)
Lemma download_building_images_run (b : processed_building)
    (directory : string) (fetch_fixed fetch_height : bool) (fixed_pitch : R)
    (s : world * list fetch_line) :
  download_building_images b directory fetch_fixed fetch_height fixed_pitch s =
  let s0 := (fst s, snd s ++ [ProcessingBuilding (osm_id b)]) in
  match (if fetch_fixed then
           fetch_image b (image_path directory "fixed_pitch" (osm_id b)) false
             (Fin fixed_pitch) (SkippedFixed fixed_pitch)
             (DownloadedFixed fixed_pitch) (FailedFixed fixed_pitch) s0
         else (Ok None, s0)) with
  | (Ok fixed, s1) =>
      match (if fetch_height then
               fetch_image b (image_path directory "height_pitch" (osm_id b))
                 true DEFAULT_PITCH_ANGLE SkippedHeight DownloadedHeight
                 FailedHeight s1
             else (Ok None, s1)) with
      | (Ok height, s2) => (Ok (mkEntry b fixed height), s2)
      | (Raise e, s2) => (Raise e, s2)
      end
  | (Raise e, s1) => (Raise e, s1)
  end.
Proof.
  unfold download_building_images, mbind, Script_bind, say. cbn [fst snd].
  destruct fetch_fixed, fetch_height; cbn [mret Script_ret];
    repeat match goal with
           | |- context [fetch_image ?a ?b ?c ?d ?e ?f ?g ?s] =>
               destruct (fetch_image a b c d e f g s) as [[?|?] ?]
           end; reflexivity.
Qed.

(** A block leaves the files at all other paths alone. *)
Lemma fetch_image_other_files (b : processed_building) (path : string)
    (use_bh : bool) (pitch : npfloat) (skipped downloaded failed : fetch_line)
    (s : world * list fetch_line) (other : string) :
  other <> path ->
  files (fst (snd (fetch_image b path use_bh pitch skipped downloaded failed s)))
    !! other = files (fst s) !! other.
Proof.
  intros Hother. rewrite fetch_image_run.
  destruct (path_exists path (fst s)); [done|].
  pose proof (download_other_files (longitude b) (latitude b) path
                (building_height b) use_bh pitch (fst s) other Hother) as Hf.
  cbv zeta in Hf.
  by destruct (download_streetview_image _ _ _ _ _ _ _) as [[[]|e] w'].
Qed.

Section Documented.
(** [os.makedirs] as documented: it removes no directory. *)
Hypothesis makedirs_keeps :
  forall path ds ds', makedirs path ds = Ok ds' -> ds ⊆ ds'.

(** A path that exists still exists after a block for another path. *)
Lemma fetch_image_keeps (b : processed_building) (path : string)
    (use_bh : bool) (pitch : npfloat) (skipped downloaded failed : fetch_line)
    (s : world * list fetch_line) (other : string) :
  other <> path ->
  path_exists other (fst s) = true ->
  path_exists other
    (fst (snd (fetch_image b path use_bh pitch skipped downloaded failed s)))
  = true.
Proof.
  intros Hother Hex.
  pose proof (fetch_image_other_files b path use_bh pitch skipped downloaded
                failed s other Hother) as Hfiles.
  assert (Hdirs : dirs (fst s) ⊆ dirs (fst (snd (fetch_image b path use_bh
            pitch skipped downloaded failed s)))).
  { rewrite fetch_image_run.
    destruct (path_exists path (fst s)); [done|].
    pose proof (download_dirs_mono (longitude b) (latitude b) path
                  (building_height b) use_bh pitch (fst s) makedirs_keeps).
    by destruct (download_streetview_image _ _ _ _ _ _ _) as [[[]|e] w']. }
  unfold path_exists in *. rewrite Hfiles.
  apply orb_true_iff in Hex as [Hd|Hf]; apply orb_true_iff; [left|by right].
  apply bool_decide_eq_true in Hd. apply bool_decide_eq_true. set_solver.
Qed.

End Documented.

(** The path that a block records is its own, and is on disk. *)
Lemma fetch_image_recorded (b : processed_building) (path : string)
    (use_bh : bool) (pitch : npfloat) (skipped downloaded failed : fetch_line)
    (s : world * list fetch_line) (recorded : string) :
  fst (fetch_image b path use_bh pitch skipped downloaded failed s)
    = Ok (Some recorded) ->
  recorded = path
  /\ path_exists path
       (fst (snd (fetch_image b path use_bh pitch skipped downloaded failed s)))
     = true.
Proof.
  rewrite fetch_image_run.
  destruct (path_exists path (fst s)) eqn:Hex; [by intros [= <-]|].
  pose proof (download_true_saved (longitude b) (latitude b) path
                (building_height b) use_bh pitch (fst s)) as Hsaved.
  cbv zeta in Hsaved.
  destruct (download_streetview_image _ _ _ _ _ _ _) as [[[]|e] w'];
    [|discriminate..].
  intros [= <-]. split; [done|].
  destruct (Hsaved eq_refl) as (data & Hdata & _). simpl in *.
  unfold path_exists. rewrite Hdata. apply orb_true_iff. right.
  apply bool_decide_eq_true. by eexists.
Qed.

Section Recorded.
Hypothesis makedirs_keeps :
  forall path ds ds', makedirs path ds = Ok ds' -> ds ⊆ ds'.

(** What a run that returns has recorded. *)
Lemma recorded_images_facts (b : processed_building) (directory : string)
    (fetch_fixed fetch_height : bool) (fixed_pitch : R)
    (s : world * list fetch_line) (d : building_entry) :
  fst (download_building_images b directory fetch_fixed fetch_height
         fixed_pitch s) = Ok d ->
  let w' := fst (snd (download_building_images b directory fetch_fixed
                        fetch_height fixed_pitch s)) in
  processed d = b
  /\ (forall path, fixed_pitch_image d = Some path ->
       path = image_path directory "fixed_pitch" (osm_id b)
       /\ fetch_fixed = true /\ path_exists path w' = true)
  /\ (forall path, height_pitch_image d = Some path ->
       path = image_path directory "height_pitch" (osm_id b)
       /\ fetch_height = true /\ path_exists path w' = true).
Proof.
  rewrite download_building_images_run. cbv zeta.
  set (s0 := (fst s, snd s ++ [ProcessingBuilding (osm_id b)])).
  set (pf := image_path directory "fixed_pitch" (osm_id b)).
  set (ph := image_path directory "height_pitch" (osm_id b)).
  assert (Hne : pf <> ph) by apply image_paths_differ.
  destruct fetch_fixed.
  - pose proof (fetch_image_recorded b pf false (Fin fixed_pitch)
                  (SkippedFixed fixed_pitch) (DownloadedFixed fixed_pitch)
                  (FailedFixed fixed_pitch) s0) as Hfixed.
    destruct (fetch_image b pf _ _ _ _ _ s0) as [[fixed|e] s1] eqn:Hrun1;
      [|discriminate].
    cbn [fst snd] in Hfixed.
    destruct fetch_height.
    + pose proof (fetch_image_recorded b ph true DEFAULT_PITCH_ANGLE
                    SkippedHeight DownloadedHeight FailedHeight s1) as Hheight.
      pose proof (fetch_image_keeps makedirs_keeps b ph true DEFAULT_PITCH_ANGLE
                    SkippedHeight DownloadedHeight FailedHeight s1 pf Hne)
        as Hkeeps.
      destruct (fetch_image b ph _ _ _ _ _ s1) as [[height|e] s2];
        [|discriminate].
      cbn [fst snd] in *. intros [= <-]. cbn. split; [done|]. split.
      * intros path ->. destruct (Hfixed path eq_refl) as [-> Hex].
        split; [done|]. split; [done|]. by apply Hkeeps.
      * intros path ->. destruct (Hheight path eq_refl) as [-> Hex]. done.
    + cbn [fst snd]. intros [= <-]. cbn. split; [done|]. split; [|done].
      intros path ->. by destruct (Hfixed path eq_refl) as [-> Hex].
  - destruct fetch_height.
    + pose proof (fetch_image_recorded b ph true DEFAULT_PITCH_ANGLE
                    SkippedHeight DownloadedHeight FailedHeight s0) as Hheight.
      destruct (fetch_image b ph _ _ _ _ _ s0) as [[height|e] s2];
        [|discriminate].
      cbn [fst snd] in *. intros [= <-]. cbn. split; [done|]. split; [done|].
      intros path ->. by destruct (Hheight path eq_refl) as [-> Hex].
    + cbn [fst snd]. by intros [= <-].
Qed.

(** X17.  With an [os.makedirs] that removes no directory, the paths
    that [download_building_images] records are on disk when it returns:
    a recorded image is the path of its kind for the building, it was
    asked for, and it exists, found there or just saved.  Nothing is
    recorded for a kind that was not asked for, and the building itself
    is returned as it was given. *)
Theorem recorded_images_exist (b : processed_building) (directory : string)
    (fetch_fixed fetch_height : bool) (fixed_pitch : R)
    (s : world * list fetch_line) (d : building_entry) :
  fst (download_building_images b directory fetch_fixed fetch_height
         fixed_pitch s) = Ok d ->
  let w' := fst (snd (download_building_images b directory fetch_fixed
                        fetch_height fixed_pitch s)) in
  let recorded (image : option string) (kind : string) (asked : bool) :=
    match image with
    | Some path =>
        path = image_path directory kind (osm_id b)
        /\ asked = true /\ path_exists path w' = true
    | None => True
    end in
  processed d = b
  /\ recorded (fixed_pitch_image d) "fixed_pitch" fetch_fixed
  /\ recorded (height_pitch_image d) "height_pitch" fetch_height
  /\ (fetch_fixed = false -> fixed_pitch_image d = None)
  /\ (fetch_height = false -> height_pitch_image d = None).
Proof.
  intros Hrun w' recorded.
  destruct (recorded_images_facts b directory fetch_fixed fetch_height
              fixed_pitch s d Hrun) as (Hb & Hf & Hh).
  fold w' in Hf, Hh. subst recorded. cbv beta.
  split; [exact Hb|]. split; [|split; [|split]].
  - destruct (fixed_pitch_image d) as [path|]; [by apply Hf|done].
  - destruct (height_pitch_image d) as [path|]; [by apply Hh|done].
  - intros ->. destruct (fixed_pitch_image d) as [path|]; [|done].
    by destruct (Hf path eq_refl) as (_ & ? & _).
  - intros ->. destruct (height_pitch_image d) as [path|]; [|done].
    by destruct (Hh path eq_refl) as (_ & ? & _).
Qed.

(** X18.  Downloads are skipped on a second run.  After a run of
    [download_building_images] that recorded every image it was asked
    for, a second run with the same arguments returns the same building
    with the same paths, and leaves the disk and the calls as they are:
    it asks the services for nothing.  It writes the record of the
    building and one record per image skipped. *)
Theorem second_run_skips_downloads (b : processed_building)
    (directory : string) (fetch_fixed fetch_height : bool) (fixed_pitch : R)
    (s : world * list fetch_line) (d : building_entry) :
  let run := download_building_images b directory fetch_fixed fetch_height
               fixed_pitch in
  fst (run s) = Ok d ->
  (fetch_fixed = true -> is_Some (fixed_pitch_image d)) ->
  (fetch_height = true -> is_Some (height_pitch_image d)) ->
  run (snd (run s)) =
    (Ok d,
     (fst (snd (run s)),
      snd (snd (run s))
      ++ [ProcessingBuilding (osm_id b)]
      ++ (if fetch_fixed then [SkippedFixed fixed_pitch] else [])
      ++ (if fetch_height then [SkippedHeight] else []))).
Proof.
  intros run Hrun Hfixed Hheight.
  destruct (recorded_images_facts b directory fetch_fixed fetch_height fixed_pitch s d
              Hrun) as (Hb & Hf & Hh).
  subst run. cbv zeta in Hf, Hh.
  destruct (snd (download_building_images b directory fetch_fixed fetch_height
                   fixed_pitch s)) as [w1 out1].
  cbn [fst snd] in *.
  rewrite download_building_images_run. cbv zeta. cbn [fst snd].
  destruct d as [b' fixed height]. cbn in Hb, Hf, Hh, Hfixed, Hheight.
  subst b'.
  destruct fetch_fixed.
  - destruct (Hfixed eq_refl) as [pf Hpf]. subst fixed.
    destruct (Hf pf eq_refl) as (-> & _ & Hex1).
    rewrite fetch_image_run. cbn [fst snd]. rewrite Hex1.
    destruct fetch_height.
    + destruct (Hheight eq_refl) as [ph Hph]. subst height.
      destruct (Hh ph eq_refl) as (-> & _ & Hex2).
      rewrite fetch_image_run. cbn [fst snd]. rewrite Hex2.
      by rewrite <- !app_assoc.
    + destruct height as [ph|]; [by destruct (Hh ph eq_refl) as (_ & ? & _)|].
      by rewrite <- !app_assoc.
  - destruct fixed as [pf|]; [by destruct (Hf pf eq_refl) as (_ & ? & _)|].
    destruct fetch_height.
    + destruct (Hheight eq_refl) as [ph Hph]. subst height.
      destruct (Hh ph eq_refl) as (-> & _ & Hex2).
      rewrite fetch_image_run. cbn [fst snd]. rewrite Hex2.
      by rewrite <- !app_assoc.
    + destruct height as [ph|]; [by destruct (Hh ph eq_refl) as (_ & ? & _)|].
      by rewrite app_nil_r.
Qed.

End Recorded.

(** X19.  [download_building_images] has no handler of its own.  When
    only the height-based image is asked for and is not on disk yet, the
    building has a height, and the metadata request raises, the exception
    escapes: no entry is returned, and no file has changed. *)
Theorem metadata_failure_stops_building (b : processed_building)
    (directory : string) (fixed_pitch h : R) (s : world * list fetch_line)
    (e : exn) :
  height_given (building_height b) = Some h ->
  requests_get (get_streetview_metadata_url (longitude b) (latitude b))
    = Raise e ->
  path_exists (image_path directory "height_pitch" (osm_id b)) (fst s) = false ->
  let run := download_building_images b directory false true fixed_pitch s in
  fst run = Raise e
  /\ files (fst (snd run)) = files (fst s)
  /\ snd (snd run) = snd s ++ [ProcessingBuilding (osm_id b)].
Proof.
  intros Hh Hget Hex. cbv zeta.
  rewrite download_building_images_run. cbv zeta.
  rewrite fetch_image_run. cbn [fst snd]. rewrite Hex.
  by rewrite (download_metadata_failure _ _ h _ _ _ _ e Hh Hget).
Qed.

(** *** The dict of the buildings with images *)

Lemma dict_set_elem_of {V} (key : option Z) (value : V)
    (d : list (option Z * V)) (kv : option Z * V) :
  kv ∈ dict_set key value d -> kv = (key, value) \/ kv ∈ d.
Proof.
  induction d as [|[k v] d IH]; simpl.
  - intros Hin. apply list_elem_of_singleton in Hin. by left.
  - case_decide; rewrite !elem_of_cons; intros [->|Hin]; subst; auto.
    destruct (IH Hin); auto.
Qed.

Lemma dict_set_keys_kept {V} (key : option Z) (value : V)
    (d : list (option Z * V)) (k : option Z) :
  k ∈ (dict_set key value d).*1 <-> k = key \/ k ∈ d.*1.
Proof.
  induction d as [|[k' v] d IH]; simpl.
  - rewrite list_elem_of_singleton. set_solver.
  - case_decide; simpl; set_solver.
Qed.

Lemma dict_set_NoDup {V} (key : option Z) (value : V)
    (d : list (option Z * V)) :
  NoDup d.*1 -> NoDup (dict_set key value d).*1.
Proof.
  induction d as [|[k v] d IH]; simpl; intros Hnd.
  - apply NoDup_singleton.
  - apply NoDup_cons in Hnd as [Hk Hd]. case_decide; simpl.
    + by apply NoDup_cons.
    + apply NoDup_cons. split; [|by apply IH].
      rewrite dict_set_keys_kept. intros [->|?]; done.
Qed.

Lemma dict_set_length {V} (key : option Z) (value : V)
    (d : list (option Z * V)) :
  (length d <= length (dict_set key value d) <= S (length d))%nat.
Proof.
  induction d as [|[k v] d IH]; simpl; [lia|]. case_decide; simpl; lia.
Qed.

Lemma dict_set_keyed (key : option Z) (value : existing_building)
    (d : list (option Z * existing_building)) :
  entry_id value = Some key -> keyed d -> keyed (dict_set key value d).
Proof.
  unfold keyed. intros Hid. induction d as [|[k v] d IH]; simpl; intros Hd.
  - by repeat constructor.
  - apply Forall_cons in Hd as [Hk Hd]. case_decide; constructor; subst; auto.
Qed.

(** The dict of an earlier output that was read to its end. *)
Lemma index_entries_ok (entries : list stored_building)
    (d d' : list (option Z * existing_building)) :
  NoDup d.*1 -> keyed d ->
  index_entries entries d = Ok d' ->
  NoDup d'.*1 /\ keyed d'.
Proof.
  revert d. induction entries as [|b entries IH]; intros d Hnd Hk.
  - simpl. by intros [= <-].
  - simpl. destruct (stored_osm_id b) as [key|] eqn:Hkey; [|discriminate].
    cbn. apply IH; [by apply dict_set_NoDup|by apply dict_set_keyed].
Qed.

Lemma keyed_values (d : list (option Z * existing_building)) :
  keyed d -> entry_id <$> d.*2 = Some <$> d.*1.
Proof.
  unfold keyed. induction d as [|[k v] d IH]; [done|].
  intros Hd. apply Forall_cons in Hd as [Hk Hd]. cbn in *.
  f_equal; [done|by apply IH].
Qed.

(** The count of the summary raises at a value without the key only:
    with the key in every value, it is a number. *)
Lemma count_images_outcomes (image : existing_building -> result (option string))
    (entries : list existing_building) :
  (forall b e, image b = Raise e -> e = KeyError) ->
  match count_images image entries with
  | Ok count => Forall (fun b => is_ok (image b) = true) entries
                /\ (count <= length entries)%nat
  | Raise e => e = KeyError /\ Exists (fun b => image b = Raise KeyError) entries
  end.
Proof.
  intros Himage. induction entries as [|b entries IH]; simpl.
  - split; [constructor|lia].
  - destruct (image b) as [value|e] eqn:Hb; cbn.
    2:{ pose proof (Himage b e Hb) as ->. split; [done|]. by apply Exists_cons_hd. }
    destruct (count_images image entries) as [count|e]; cbn.
    + destruct IH as [Hall Hle]. split.
      * constructor; [by rewrite Hb|done].
      * destruct (py_not value); simpl; lia.
    + destruct IH as [-> Hex]. split; [done|]. by apply Exists_cons_tl.
Qed.

(** The building of an entry is the one given. *)
Lemma download_building_images_processed (b : processed_building)
    (directory : string) (fetch_fixed fetch_height : bool) (fixed_pitch : R)
    (s : world * list fetch_line) (d : building_entry) :
  fst (download_building_images b directory fetch_fixed fetch_height
         fixed_pitch s) = Ok d ->
  processed d = b.
Proof.
  rewrite download_building_images_run. cbv zeta.
  destruct (if fetch_fixed then _ else _) as [[fixed|e] s1]; [|discriminate].
  destruct (if fetch_height then _ else _) as [[height|e] s2]; [|discriminate].
  by intros [= <-].
Qed.

(** One round of the loop. *)
Lemma download_all_cons (b : processed_building) (bs : list processed_building)
    (args : arguments) (d : list (option Z * existing_building)) (n : nat)
    (s : world * list fetch_line) :
  download_all (b :: bs) args d n s =
  match download_building_images b image_directory (arg_fixed_pitch args)
          (arg_height_pitch args) (arg_pitch args) s with
  | (Ok entry, s1) =>
      if Rlt_dec (arg_sleep args) 0 then (Raise ValueError, s1)
      else if has_image entry then
        download_all bs args
          (dict_set (osm_id (processed entry)) (Current entry) d) n s1
      else download_all bs args d (S n) s1
  | (Raise e, s1) => (Raise e, s1)
  end.
Proof.
  cbn [download_all]. unfold mbind, Script_bind.
  destruct (download_building_images _ _ _ _ _ s) as [[entry|e] s1]; [|done].
  unfold time_sleep.
  destruct (has_image entry); by destruct (Rlt_dec (arg_sleep args) 0).
Qed.

(** The loop keeps one entry per identifier, each under its own. *)
Lemma download_all_index (bs : list processed_building)
    (args : arguments) (d d' : list (option Z * existing_building)) (n n' : nat)
    (s : world * list fetch_line) :
  NoDup d.*1 -> keyed d ->
  fst (download_all bs args d n s) = Ok (d', n') ->
  NoDup d'.*1 /\ keyed d'.
Proof.
  revert d n s. induction bs as [|b bs IH]; intros d n s Hnd Hk.
  - simpl. by intros [= <- <-].
  - rewrite download_all_cons.
    destruct (download_building_images _ _ _ _ _ s) as [[entry|e] s1];
      [|discriminate].
    destruct (Rlt_dec (arg_sleep args) 0); [discriminate|].
    destruct (has_image entry); intros Hloop.
    + exact (IH _ _ _ (dict_set_NoDup _ _ _ Hnd)
               (dict_set_keyed _ (Current entry) _ eq_refl Hk) Hloop).
    + exact (IH _ _ _ Hnd Hk Hloop).
Qed.

(** X20.  The loop keeps the dict of the buildings with images in order.
    When it returns, the dict still has one entry per [osm_id], each under
    its own identifier; no earlier key is lost; every entry is an earlier
    one or a building of this run that has an image; the count of skipped
    downloads has not gone down, and the dict and the count together have
    grown by the number of buildings of the run at most. *)
Theorem download_all_keeps_index (bs : list processed_building)
    (args : arguments) (d d' : list (option Z * existing_building)) (n n' : nat)
    (s : world * list fetch_line) :
  NoDup d.*1 -> keyed d ->
  fst (download_all bs args d n s) = Ok (d', n') ->
  NoDup d'.*1 /\ keyed d'
  /\ (forall k, k ∈ d.*1 -> k ∈ d'.*1)
  /\ (forall kv, kv ∈ d' ->
        kv ∈ d
        \/ (exists entry, kv.2 = Current entry
                          /\ has_image entry = true /\ processed entry ∈ bs))
  /\ (n <= n')%nat
  /\ (length d' + n' <= length d + n + length bs)%nat.
Proof.
  revert d n s. induction bs as [|b bs IH]; intros d n s Hnd Hk.
  - simpl. intros [= <- <-]. repeat split; auto with lia.
  - rewrite download_all_cons.
    destruct (download_building_images _ _ _ _ _ s) as [[entry|e] s1] eqn:Hrun;
      [|discriminate].
    destruct (Rlt_dec (arg_sleep args) 0); [discriminate|].
    assert (Hb : processed entry = b).
    { eapply download_building_images_processed. by rewrite Hrun. }
    destruct (has_image entry) eqn:Himg; intros Hloop.
    + destruct (IH _ _ _ (dict_set_NoDup _ _ _ Hnd)
                  (dict_set_keyed _ (Current entry) _ eq_refl Hk) Hloop)
        as (Hnd' & Hk' & Hkeys & Hprov & Hn & Hlen).
      pose proof (dict_set_length (osm_id (processed entry)) (Current entry) d).
      split; [done|]. split; [done|]. split.
      { intros k Hin. apply Hkeys, dict_set_keys_kept. by right. }
      split; [|simpl; lia].
      intros kv Hin. destruct (Hprov kv Hin) as [Hold|(e' & He' & Hi & Hp)].
      * apply dict_set_elem_of in Hold as [->|Hold]; [|by left].
        right. exists entry. simpl. split; [done|]. split; [done|].
        rewrite Hb. by left.
      * right. exists e'. split; [done|]. split; [done|]. by right.
    + destruct (IH _ _ _ Hnd Hk Hloop) as (Hnd' & Hk' & Hkeys & Hprov & Hn & Hlen).
      split; [done|]. split; [done|]. split; [done|].
      split; [|simpl; lia].
      intros kv Hin. destruct (Hprov kv Hin) as [Hold|(e' & He' & Hi & Hp)];
        [by left|].
      right. exists e'. split; [done|]. split; [done|]. by right.
Qed.

(** A run for one building, and the loop, change image files only. *)
Lemma download_building_images_other_files (b : processed_building)
    (directory : string) (fetch_fixed fetch_height : bool) (fixed_pitch : R)
    (s : world * list fetch_line) (other : string) :
  (forall kind, other <> image_path directory kind (osm_id b)) ->
  files (fst (snd (download_building_images b directory fetch_fixed
                     fetch_height fixed_pitch s))) !! other
  = files (fst s) !! other.
Proof.
  intros Hother. rewrite download_building_images_run. cbv zeta.
  set (s0 := (fst s, snd s ++ [ProcessingBuilding (osm_id b)])).
  assert (Hfx : files (fst (snd (if fetch_fixed then
             fetch_image b (image_path directory "fixed_pitch" (osm_id b)) false
               (Fin fixed_pitch) (SkippedFixed fixed_pitch)
               (DownloadedFixed fixed_pitch) (FailedFixed fixed_pitch) s0
           else (Ok None, s0)))) !! other = files (fst s) !! other).
  { destruct fetch_fixed; [|done].
    by rewrite fetch_image_other_files by apply Hother. }
  destruct (if fetch_fixed then _ else _) as [[fixed|e] s1]; [|exact Hfx].
  cbn [fst snd] in Hfx.
  assert (Hhx : files (fst (snd (if fetch_height then
             fetch_image b (image_path directory "height_pitch" (osm_id b))
               true DEFAULT_PITCH_ANGLE SkippedHeight DownloadedHeight
               FailedHeight s1
           else (Ok None, s1)))) !! other = files (fst s) !! other).
  { destruct fetch_height; [|done].
    by rewrite fetch_image_other_files by apply Hother. }
  by destruct (if fetch_height then _ else _) as [[height|e] s2].
Qed.

Lemma download_all_other_files (bs : list processed_building)
    (args : arguments) (d : list (option Z * existing_building)) (n : nat)
    (s : world * list fetch_line) (other : string) :
  (forall kind osm_id, other <> image_path image_directory kind osm_id) ->
  files (fst (snd (download_all bs args d n s))) !! other
  = files (fst s) !! other.
Proof.
  intros Hother. revert d n s. induction bs as [|b bs IH]; intros d n s; [done|].
  rewrite download_all_cons.
  pose proof (download_building_images_other_files b image_directory
                (arg_fixed_pitch args) (arg_height_pitch args) (arg_pitch args)
                s other (fun kind => Hother kind (osm_id b))) as Hone.
  destruct (download_building_images _ _ _ _ _ s) as [[entry|e] s1];
    [|exact Hone].
  cbn [fst snd] in Hone.
  destruct (Rlt_dec (arg_sleep args) 0); [exact Hone|].
  destruct (has_image entry); by rewrite IH.
Qed.

End WithServices.

Section WithJson.
Context `{Pyproj} `{Requests} `{Format} `{Environ} `{Os} `{ImagesJson}
  `{StdoutEncoding}.

(** The earlier output, when it is read: a dict in order, and the disk
    as it was. *)
Lemma load_existing_run (s : world * list fetch_line) :
  fst (snd (load_existing s)) = fst s
  /\ match fst (load_existing s) with
     | Ok d => NoDup d.*1 /\ keyed d
     | Raise _ => True
     end.
Proof.
  unfold load_existing, mbind, Script_bind, os_path_exists, on_disk, say,
    read_file, lift. cbn [fst snd].
  destruct (path_exists output_file (fst s)).
  2:{ simpl. split; [done|]. split; constructor. }
  case_decide; [done|].
  destruct (files (fst s) !! output_file) as [text|]; cbn [of_option]; [|done].
  destruct (load_entries text) as [entries|e]; [|done].
  cbn [fst snd].
  destruct (index_entries entries []) as [d|e] eqn:Hindex; [|done].
  cbn. split; [done|].
  apply (index_entries_ok entries [] d); [constructor|constructor|done].
Qed.

(** The steps of the program before the loop leave the list of the
    output as it is. *)
Lemma configure_logging_output (w : world) :
  files (snd (configure_logging log_directory w)) !! output_file
  = files w !! output_file.
Proof.
  unfold configure_logging. case_decide; [done|].
  cbn. by rewrite lookup_insert_ne.
Qed.

(** Only a building of the earlier output can be without an image key. *)
Lemma missing_image_key (entries : list existing_building) :
  Exists (fun b => fixed_image_of b = Raise KeyError) entries
  \/ Exists (fun b => height_image_of b = Raise KeyError) entries ->
  Exists (fun b => exists earlier,
            b = Earlier earlier
            /\ (stored_fixed_pitch_image earlier = None
                \/ stored_height_pitch_image earlier = None)) entries.
Proof.
  intros [Hex|Hex]; eapply Exists_impl; try exact Hex;
    intros [earlier|entry]; simpl; try discriminate; intros Hkey;
    exists earlier; (split; [done|]).
  - left. by destruct (stored_fixed_pitch_image earlier).
  - right. by destruct (stored_height_pitch_image earlier).
Qed.

Lemma image_of_raises (b : existing_building) (e : exn) :
  (fixed_image_of b = Raise e -> e = KeyError)
  /\ (height_image_of b = Raise e -> e = KeyError).
Proof.
  destruct b as [earlier|entry]; simpl; [|by split].
  split.
  - destruct (stored_fixed_pitch_image earlier); cbn; congruence.
  - destruct (stored_height_pitch_image earlier); cbn; congruence.
Qed.


End WithJson.

(** X22.  The limit of the command line.  Whatever the limit, the
    buildings processed are a prefix of the list, so they come in order
    from its start.  No limit and the limit 0 both mean all buildings; a
    positive limit means that many buildings, or all if there are fewer;
    a negative limit leaves that many buildings out at the end. *)
Theorem limit_takes_a_prefix {A} (limit : option Z) (buildings : list A) :
  buildings_to_process limit buildings `prefix_of` buildings
  /\ buildings_to_process (Some 0%Z) buildings = buildings
  /\ buildings_to_process None buildings = buildings
  /\ (forall n, (0 < n)%Z ->
       length (buildings_to_process (Some n) buildings)
       = Nat.min (Z.to_nat n) (length buildings))
  /\ (forall n, (n < 0)%Z ->
       length (buildings_to_process (Some n) buildings)
       = (length buildings - Z.to_nat (- n))%nat).
Proof.
  split; [|split; [done|split; [done|split]]].
  - unfold buildings_to_process. destruct limit as [n|]; [|done].
    repeat case_decide; try done; apply prefix_take.
  - intros n Hn. unfold buildings_to_process.
    rewrite decide_False by lia. rewrite decide_True by lia.
    by rewrite length_take.
  - intros n Hn. unfold buildings_to_process.
    rewrite decide_False by lia. rewrite decide_False by lia.
    rewrite length_take. lia.
Qed.

Section Examples.
Import FetchSamples.

Lemma any_directory_keeps (path : string) (ds ds' : gset string) :
  makedirs (Os:=Fixtures.any_directory) path ds = Ok ds' -> ds ⊆ ds'.
Proof. simpl. intros [= <-]. set_solver. Qed.

Lemma office_images_run :
  fst (office_images (Fixtures.empty_world, [])) = Ok office_entry.
Proof. vm_compute. reflexivity. Qed.

Lemma recorded_images_exist_witness :
  fst (office_images (Fixtures.empty_world, [])) = Ok office_entry
  /\ path_exists "data/images/fixed_pitch/7.jpg"
       (fst (snd (office_images (Fixtures.empty_world, [])))) = true.
Proof.
  split; [exact office_images_run|].
  destruct (@recorded_images_exist Fixtures.local_frame image_service
              Fixtures.plain_format Fixtures.no_key Fixtures.any_directory
              any_directory_keeps office image_directory true true 30
              (Fixtures.empty_world, []) office_entry office_images_run)
    as (_ & (_ & _ & Hexists) & _).
  exact Hexists.
Defined.

Lemma second_run_skips_downloads_witness :
  fst (office_images (Fixtures.empty_world, [])) = Ok office_entry
  /\ fst (office_images (snd (office_images (Fixtures.empty_world, []))))
     = Ok office_entry
  /\ fst (snd (office_images (snd (office_images (Fixtures.empty_world, [])))))
     = fst (snd (office_images (Fixtures.empty_world, []))).
Proof.
  split; [exact office_images_run|].
  pose proof (@second_run_skips_downloads Fixtures.local_frame image_service
                Fixtures.plain_format Fixtures.no_key Fixtures.any_directory
                any_directory_keeps office image_directory true true 30
                (Fixtures.empty_world, []) office_entry office_images_run
                (fun _ => ex_intro _ _ eq_refl) (fun _ => ex_intro _ _ eq_refl))
    as Hagain.
  unfold office_images. by rewrite Hagain.
Defined.

Lemma tall_office_height : height_given (building_height tall_office) = Some 10.
Proof. apply height_given_Some. split; [done|lra]. Qed.

Lemma metadata_failure_stops_building_witness :
  height_given (building_height tall_office) = Some 10
  /\ fst (@download_building_images Fixtures.local_frame UtilsSamples.offline
            Fixtures.plain_format Fixtures.no_key Fixtures.any_directory
            tall_office image_directory false true 30
            (Fixtures.empty_world, [])) = Raise RequestException.
Proof.
  split; [exact tall_office_height|].
  assert (Hmissing : path_exists
            (image_path image_directory "height_pitch" (osm_id tall_office))
            (fst (Fixtures.empty_world, @nil fetch_line)) = false)
    by (vm_compute; reflexivity).
  exact (proj1 (@metadata_failure_stops_building Fixtures.local_frame
                  UtilsSamples.offline Fixtures.plain_format Fixtures.no_key
                  Fixtures.any_directory tall_office image_directory 30 10
                  (Fixtures.empty_world, []) RequestException
                  tall_office_height eq_refl Hmissing)).
Defined.

Lemma office_loop_run :
  fst (@download_all Fixtures.local_frame image_service Fixtures.plain_format
         Fixtures.no_key Fixtures.any_directory [office] both_images [] 0%nat
         (Fixtures.empty_world, []))
  = Ok ([(Some 7%Z, Current office_entry)], 0%nat).
Proof.
  rewrite download_all_cons.
  pose proof office_images_run as Hone. unfold office_images in Hone.
  cbn [arg_fixed_pitch arg_height_pitch arg_pitch arg_sleep both_images].
  destruct (download_building_images _ _ _ _ _ _) as [[entry|e] s1];
    cbn [fst] in Hone; [|discriminate].
  injection Hone as ->.
  destruct (Rlt_dec 0 0) as [Hlt|_]; [lra|]. reflexivity.
Qed.

Lemma download_all_keeps_index_witness :
  fst (@download_all Fixtures.local_frame image_service Fixtures.plain_format
         Fixtures.no_key Fixtures.any_directory [office] both_images [] 0%nat
         (Fixtures.empty_world, []))
  = Ok ([(Some 7%Z, Current office_entry)], 0%nat)
  /\ NoDup [(Some 7%Z, Current office_entry)].*1
  /\ keyed [(Some 7%Z, Current office_entry)].
Proof.
  split; [exact office_loop_run|].
  destruct (@download_all_keeps_index Fixtures.local_frame image_service
              Fixtures.plain_format Fixtures.no_key Fixtures.any_directory
              [office] both_images [] [(Some 7%Z, Current office_entry)]
              0%nat 0%nat
              (Fixtures.empty_world, []) (NoDup_nil_2) (Forall_nil_2 _)
              office_loop_run)
    as (Hnd & Hkeyed & _).
  split; [exact Hnd|exact Hkeyed].
Defined.

(** The third way of the program: the earlier output has a building
    without the key ["fixed_pitch_image"]; the list is written again, and
    then the summary raises. *)
Example summary_raises_after_the_list_is_written :
  fst (run_with_earlier_output utf8_stdout) = Ok tt
  /\ files (fst (snd (run_with_earlier_output utf8_stdout))) !! output_file
     = Some [Byte.x01]
  /\ lists_on_disk.(files) !! output_file = Some [Byte.x00]
  /\ snd (snd (run_with_earlier_output utf8_stdout))
     = [Starting; WillFetchFixed 30; WillFetchHeight; SleepTime 0;
        ProcessingCount 0 0; LoadedExisting 1; DownloadedFor 1;
        SkippedDownloads 0; SavedData output_file;
        ErrorPrinted KeyError; ErrorRecord KeyError].
Proof. repeat split; vm_compute; reflexivity. Qed.

(** And on a standard output without the degree sign, with no earlier
    output at all: the summary stops at its line of the fixed pitch. *)
Example summary_raises_at_the_degree_sign :
  fst (run_without_earlier_output ascii_stdout) = Ok tt
  /\ files (fst (snd (run_without_earlier_output ascii_stdout))) !! output_file
     = Some []
  /\ snd (snd (run_without_earlier_output ascii_stdout))
     = [Starting; WillFetchFixed 30; WillFetchHeight; SleepTime 0;
        ProcessingCount 0 0; DownloadedFor 0; SkippedDownloads 0;
        SavedData output_file; SummaryTotal 0;
        ErrorPrinted ValueError; ErrorRecord ValueError]
  /\ snd (snd (run_without_earlier_output utf8_stdout))
     = [Starting; WillFetchFixed 30; WillFetchHeight; SleepTime 0;
        ProcessingCount 0 0; DownloadedFor 0; SkippedDownloads 0;
        SavedData output_file; SummaryTotal 0; SummaryFixed 30 0;
        SummaryRest 0 0].
Proof. repeat split; vm_compute; reflexivity. Qed.

End Examples.

End FetchFacts.

(** ** The Overpass query and its program *)

Module FetchOsmFacts.
Import Utils UtilsFiles Scripts ProcessOsmData ProcessMain FetchOsmData.
Import FilesFacts.

Lemma string_length_app (s t : string) :
  String.length (s +:+ t) = (String.length s + String.length t)%nat.
Proof.
  induction s as [|a s IH]; [done|].
  change (String a s +:+ t) with (String a (s +:+ t)).
  cbn [String.length]. by rewrite IH.
Qed.

Lemma string_app_inj_r (s1 s2 t : string) : s1 +:+ t = s2 +:+ t -> s1 = s2.
Proof.
  revert s2. induction s1 as [|a s1 IH]; intros [|b s2] Heq.
  - done.
  - apply (f_equal String.length) in Heq.
    rewrite !string_length_app in Heq. cbn [String.length] in Heq. lia.
  - apply (f_equal String.length) in Heq.
    rewrite !string_length_app in Heq. cbn [String.length] in Heq. lia.
  - change (String a (s1 +:+ t) = String b (s2 +:+ t)) in Heq.
    injection Heq as -> Heq. f_equal. by apply IH.
Qed.

(** X23.  The limit of the Overpass query.  The limit 0 is no limit: its
    query is the query for all buildings.  Any other limit is written
    into the last statement, so that different limits give different
    queries, none of them the query for all.  The limit changes nothing
    else: every query starts with the same filters and bounding box. *)
Theorem overpass_query_limit (num_buildings : option Z) :
  create_overpass_query (Some 0%Z) = create_overpass_query None
  /\ (exists rest, create_overpass_query num_buildings = query_head +:+ rest)
  /\ (forall n m, n <> 0%Z -> m <> 0%Z ->
      create_overpass_query (Some n) = create_overpass_query (Some m) -> n = m)
  /\ (forall n, n <> 0%Z ->
      create_overpass_query (Some n) <> create_overpass_query None).
Proof.
  split; [done|]. split; [|split].
  - unfold create_overpass_query. destruct num_buildings as [n|]; [|by eexists].
    case_decide; by eexists.
  - intros n m Hn Hm. unfold create_overpass_query.
    rewrite !decide_False by done. intros Heq.
    apply (inj (String.app query_head)) in Heq.
    apply (inj (String.app newline)) in Heq.
    apply (inj (String.app "out body geom ")) in Heq.
    apply string_app_inj_r in Heq. by apply (inj pretty).
  - intros n Hn. unfold create_overpass_query.
    rewrite decide_False by done. intros Heq.
    apply (inj (String.app query_head)) in Heq.
    apply (inj (String.app newline)) in Heq.
    cbn in Heq. discriminate.
Qed.

Section WithLibraries.
Context `{Os} `{Overpass}.


End WithLibraries.

End FetchOsmFacts.

(** ** Aerial images *)

Module AerialFacts.
Import Utils UtilsFiles Scripts Aerial.
Local Open Scope R_scope.

Lemma radians_neg (degrees : R) : radians (- degrees) = - radians degrees.
Proof. unfold radians. field. Qed.

Lemma radians_quarter (degrees : R) :
  -90 <= degrees <= 90 -> - (PI / 2) <= radians degrees <= PI / 2.
Proof.
  intros [Hlo Hhi]. unfold radians. pose proof PI_RGT_0 as Hpi.
  split; nra.
Qed.

(** The denominator of [meters_per_pixel] for a [zoom] that is not
    negative. *)
Lemma denominator_doubles (zoom scale : Z) :
  (0 <= zoom)%Z ->
  (256 * 2 ^ (zoom + 1) * scale = 2 * (256 * 2 ^ zoom * scale))%Z
  /\ (256 * 2 ^ zoom * (2 * scale) = 2 * (256 * 2 ^ zoom * scale))%Z.
Proof. intros Hzoom. rewrite Z.pow_add_r by lia. lia. Qed.

Lemma denominator_not_zero (zoom scale : Z) :
  (0 <= zoom)%Z -> scale <> 0%Z -> (256 * 2 ^ zoom * scale)%Z <> 0%Z.
Proof.
  intros Hzoom Hscale. pose proof (Z.pow_pos_nonneg 2 zoom ltac:(lia) Hzoom).
  nia.
Qed.

(** Within the range of the floats, [meters_per_pixel] is the quotient. *)
Lemma meters_per_pixel_quotient (lat_deg : R) (zoom scale : Z) :
  (0 <= zoom)%Z -> scale <> 0%Z ->
  (Z.abs (256 * 2 ^ zoom * scale) < float_limit)%Z ->
  meters_per_pixel lat_deg zoom scale
  = inr (Fin (cos (radians lat_deg) * earth_circumference
              / IZR (256 * 2 ^ zoom * scale))).
Proof.
  intros Hzoom Hscale Hrange. unfold meters_per_pixel.
  rewrite decide_True by done. cbv zeta.
  rewrite decide_False by lia.
  by rewrite decide_False by by apply denominator_not_zero.
Qed.



Section WithServices.
Context `{Format} `{StaticMaps} `{StdoutEncoding}.

(** X26.  [fetch_google_aerial] asks for nothing without a key, and
    writes nothing unless the image arrived.  It raises the missing-key
    error exactly when neither [api_key] nor the variable
    [GOOGLE_MAPS_API_KEY] holds a non-empty string, and has then made no
    request.  When it returns, the service answered with status 200 and
    a content type that is no text; the image went to [outfile] if one
    was given, and was returned otherwise, with the files as they were.
    When it raises, no file has changed, with one exception: the
    [UnicodeEncodeError] of the line that [print] writes after the
    image went to [outfile], on a standard output that cannot encode the
    line; the image is in [outfile] then, and the line is not
    printed. *)
Theorem fetch_google_aerial_outcomes (environ : gmap string string)
    (lat lon : R) (zoom : Z) (size : string) (scale : Z) (fmt : string)
    (marker api_key outfile : option string) (w : world) :
  let run := fetch_google_aerial environ lat lon zoom size scale fmt marker
               api_key outfile w in
  let no_key :=
    truthy api_key = None
    /\ truthy (environ !! "GOOGLE_MAPS_API_KEY") = None in
  (fst run = inl MissingKey <-> no_key)
  /\ (no_key -> snd run = w)
  /\ (forall e, fst run = inl e -> e <> UnicodeEncodeError ->
      files (snd run) = files w /\ stdout (snd run) = stdout w)
  /\ (fst run = inl UnicodeEncodeError ->
      exists url response path,
        maps_get url = Ok response
        /\ maps_status response = 200%Z
        /\ startswith (default "" (content_type response)) "text/" = false
        /\ truthy outfile = Some path
        /\ encodes ("✅ Saved to " +:+ path) = false
        /\ files (snd run) = <[path := maps_content response]> (files w)
        /\ stdout (snd run) = stdout w)
  /\ (forall image, fst run = inr image ->
      exists url response,
        maps_get url = Ok response
        /\ calls (snd run) = calls w ++ [CallGet url]
        /\ maps_status response = 200%Z
        /\ startswith (default "" (content_type response)) "text/" = false
        /\ match image with
           | ImageBytes content =>
               content = maps_content response
               /\ truthy outfile = None
               /\ files (snd run) = files w
           | Outfile path =>
               truthy outfile = Some path
               /\ encodes ("✅ Saved to " +:+ path) = true
               /\ files (snd run)
                  = <[path := maps_content response]> (files w)
           end).
Proof.
  cbv zeta. unfold fetch_google_aerial.
  assert (Hkey : truthy (or_else api_key (environ !! "GOOGLE_MAPS_API_KEY"))
                 = None
                 <-> truthy api_key = None
                     /\ truthy (environ !! "GOOGLE_MAPS_API_KEY") = None).
  { unfold or_else. destruct (truthy api_key) as [text|] eqn:Ha.
    - split; [|by intros [? _]].
      unfold truthy in *. destruct api_key as [a|]; [|done].
      destruct (decide (a = "")); simplify_eq. by rewrite decide_False.
    - split; [done|by intros [_ ?]]. }
  destruct (truthy (or_else api_key _)) as [key|] eqn:Hk.
  2:{ cbn. split; [split; [intros _; by apply Hkey|done]|].
      split; [done|]. split; [done|]. split; [discriminate|].
      intros image [=]. }
  assert (Hsome : ~ (truthy api_key = None
                     /\ truthy (environ !! "GOOGLE_MAPS_API_KEY") = None)).
  { intros Hno. apply Hkey in Hno. discriminate. }
  set (url := _STATIC_MAPS_ENDPOINT +:+ "?" +:+ urlencode _).
  destruct (maps_get url) as [response|e] eqn:Hget.
  2:{ cbn. split; [split; [discriminate|done]|].
      split; [done|]. split; [done|]. split; [discriminate|].
      intros image [=]. }
  destruct (bool_decide (maps_status response <> 200%Z)) eqn:Hstatus.
  { cbn. split; [split; [discriminate|done]|].
    split; [done|]. split; [done|]. split; [discriminate|].
    intros image [=]. }
  apply bool_decide_eq_false in Hstatus.
  assert (Hok : maps_status response = 200%Z).
  { destruct (decide (maps_status response = 200%Z)); [done|].
    by destruct Hstatus. }
  cbn [orb].
  destruct (startswith (default "" (content_type response)) "text/") eqn:Htext.
  { cbn. split; [split; [discriminate|done]|].
    split; [done|]. split; [done|]. split; [discriminate|].
    intros image [=]. }
  destruct (truthy outfile) as [path|] eqn:Hout.
  - unfold write_file, print_encoded. cbn [dirs record_call].
    case_decide.
    + cbn. split; [split; [discriminate|done]|].
      split; [done|]. split; [done|]. split; [discriminate|].
      intros image [=].
    + destruct (encodes ("✅ Saved to " +:+ path)) eqn:Hencodes.
      * cbn. split; [split; [discriminate|done]|].
        split; [done|]. split; [discriminate|]. split; [discriminate|].
        intros image [= <-]. by exists url, response.
      * cbn. split; [split; [discriminate|done]|].
        split; [done|]. split; [by intros e [= <-]|].
        split; [|intros image [=]].
        intros _. by exists url, response, path.
  - cbn. split; [split; [discriminate|done]|].
    split; [done|]. split; [discriminate|]. split; [discriminate|].
    intros image [= <-]. by exists url, response.
Qed.

(** X27.  The module cannot be imported without its own key.  The
    example at its end runs on import; in an environment without a
    non-empty [GOOGLE_MAPS_API_KEY] it raises the missing-key error,
    having asked for nothing and printed nothing, whatever else the
    environment holds. *)
Theorem import_needs_api_key (environ : gmap string string) (w : world) :
  truthy (environ !! "GOOGLE_MAPS_API_KEY") = None ->
  module_body environ w = (inl MissingKey, w).
Proof.
  intros Hno. unfold module_body, fetch_google_aerial, or_else.
  cbn [truthy]. by rewrite Hno.
Qed.

End WithServices.

(** On a standard output of ASCII characters, an image that arrived is
    in [outfile] when [fetch_google_aerial] raises. *)
Example print_raises_after_the_image_is_written :
  let run := fetch_google_aerial (H:=Fixtures.plain_format)
               (H0:=AerialSamples.image_service)
               (H1:=FetchSamples.ascii_stdout) ∅ 0 0 19 "640x640" 2 "png"
               None (Some "secret") (Some "aerial.png") Fixtures.empty_world in
  fst run = inl UnicodeEncodeError
  /\ files (snd run) !! "aerial.png" = Some [Byte.x01; Byte.x02; Byte.x03]
  /\ files Fixtures.empty_world !! "aerial.png" = None.
Proof. cbv zeta. repeat split; vm_compute; reflexivity. Qed.

Lemma import_needs_api_key_witness :
  truthy (AerialSamples.streetview_key_only !! "GOOGLE_MAPS_API_KEY") = None
  /\ AerialSamples.streetview_key_only !! "GOOGLE_MAPS_KEY" = Some "secret"
  /\ module_body (H:=Fixtures.plain_format) (H0:=AerialSamples.unreachable)
       (H1:=FetchSamples.ascii_stdout)
       AerialSamples.streetview_key_only Fixtures.empty_world
     = (inl MissingKey, Fixtures.empty_world).
Proof.
  assert (Hno : truthy
            (AerialSamples.streetview_key_only !! "GOOGLE_MAPS_API_KEY") = None)
    by (vm_compute; reflexivity).
  split; [exact Hno|]. split; [vm_compute; reflexivity|].
  exact (import_needs_api_key (H:=Fixtures.plain_format)
           (H0:=AerialSamples.unreachable) (H1:=FetchSamples.ascii_stdout)
           AerialSamples.streetview_key_only Fixtures.empty_world Hno).
Defined.

End AerialFacts.

(** ** One building: the ring and the tags *)

Module ProcessFacts.
Import Utils ProcessOsmData Closing.
Local Open Scope R_scope.

(** The list comprehension fails on a node without a coordinate, with a
    [KeyError], and in no other way. *)
Lemma geometry_coords_raises (g : list node) (e : exn) :
  geometry_coords g = Raise e ->
  e = KeyError
  /\ Exists (fun n => node_lon n = None \/ node_lat n = None) g.
Proof.
  induction g as [|n g IH]; [discriminate|].
  cbn [geometry_coords]. unfold node_coords.
  destruct (node_lon n) as [lon|] eqn:Hlon; cbn.
  2:{ intros [= <-]. split; [done|]. left. by left. }
  destruct (node_lat n) as [lat|] eqn:Hlat; cbn.
  2:{ intros [= <-]. split; [done|]. left. by right. }
  destruct (geometry_coords g) as [cs|e']; cbn; [discriminate|].
  intros [= <-]. destruct (IH eq_refl) as [-> Hex]. split; [done|].
  by right.
Qed.

(** X28.  The ring that [convert_osm_to_wkt] writes is closed and starts
    with the coordinates of the nodes, in their order, with at most one
    vertex more.  The function raises in two cases only: [IndexError] on
    an empty geometry, and [KeyError] when a node lacks a coordinate. *)
Theorem convert_osm_to_wkt_outcomes (g : list node) :
  match convert_osm_to_wkt g with
  | Ok (POLYGON ring) =>
      exists coords,
        geometry_coords g = Ok coords
        /\ coords <> []
        /\ head ring = last ring
        /\ coords `prefix_of` ring
        /\ (length g <= length ring <= length g + 1)%nat
  | Raise e =>
      (e = IndexError /\ g = [])
      \/ (e = KeyError
          /\ Exists (fun n => node_lon n = None \/ node_lat n = None) g)
  end.
Proof.
  unfold convert_osm_to_wkt.
  destruct (geometry_coords g) as [coords|e] eqn:Hg; cbn.
  2:{ right. by apply geometry_coords_raises. }
  pose proof (geometry_coords_length g coords Hg) as Hlen.
  destruct coords as [|v vs].
  { left. split; [done|]. by destruct g. }
  destruct (decide (last (v :: vs) = Some v)) as [Heq|Hne].
  - rewrite (close_coords_closed _ _ Heq). cbn.
    exists (v :: vs). split; [done|]. split; [done|].
    split; [by rewrite Heq|]. split; [done|]. simpl in *. lia.
  - rewrite (close_coords_open _ _ Hne). cbn.
    exists (v :: vs). split; [done|]. split; [done|].
    split; [by rewrite last_cons, last_snoc|].
    split; [by apply (prefix_app_r (v :: vs) (v :: vs) [v])|].
    rewrite !length_app. simpl in *. lia.
Qed.

Section WithLibraries.
Context `{Utm} `{Shapely} `{Builtins}.

(** X29.  The tags cannot make a building fail.  Whether
    [process_osm_building] keeps a building, and with which footprint,
    area, point and identifier, depends on its geometry and not on its
    tags; a building without tags is processed like the others, with no
    height, no levels and empty texts (where [filter_buildings_by_street]
    raises on it). *)
Theorem tags_never_fail_processing (b : building)
    (other_tags : option (gmap string string)) :
  let b' := mkBuilding (id b) (geometry b) other_tags in
  match process_body b, process_body b' with
  | Ok p, Ok p' =>
      osm_id p' = osm_id p
      /\ footprint_wkt p' = footprint_wkt p
      /\ footprint_area p' = footprint_area p
      /\ longitude p' = longitude p /\ latitude p' = latitude p
      /\ (other_tags = None ->
          building_height p' = None /\ levels p' = None
          /\ building_type p' = "" /\ street p' = "" /\ name p' = "")
  | Raise e, Raise e' => e' = e
  | _, _ => False
  end.
Proof.
  cbv zeta. unfold process_body. cbn [id geometry tags].
  destruct (convert_osm_to_wkt (default [] (geometry b))) as [w|e]; cbn;
    [|done].
  destruct (wkt_loads w) as [poly|e]; cbn; [|done].
  destruct (representative_point poly) as [[lon lat]|e]; cbn; [|done].
  destruct (calculate_polygon_area_in_utm poly) as [a|e]; cbn; [|done].
  split; [done|]. split; [done|]. split; [done|]. split; [done|].
  split; [done|]. intros ->. cbn. unfold tag_float, tag_int, tag_text.
  by rewrite !lookup_empty.
Qed.

End WithLibraries.

End ProcessFacts.
